(** * qontract-validator: a shallow embedding of [validator/validator.py]

    The validator receives a bundle (a map of schemas and a map of data
    documents), validates every schema against its meta-schema, every
    document against its schema, every [$ref] found inside a document and
    every resource path found inside a document, and aggregates the
    outcomes.

    Modelling choices.
    - JSON trees are the inductive type [json].  A Python [dict] keeps its
      insertion order and iteration order is observable (pointer paths are
      collected in that order), so an object is an association list; the
      uniqueness of keys that a [dict] guarantees is the predicate
      [wf_json].  Numbers are integers: no function of the program looks
      inside a number, so floats behave like any other scalar.
    - A Python [str] is a sequence of Unicode code points; it is
      represented by its UTF-8 encoding, a [string] of bytes.  Equality,
      concatenation, [startswith], the substring test, [split] and [rfind]
      on an ASCII separator give on the encodings the encoding of what
      they give on the code points.  [str.isdigit] looks at the code
      points, so [isdigit] decodes them.
    - A Python call either returns or raises: [result].  Only the
      exceptions the program can meet are listed in [exn].
    - The program is read as Python 3 (it names [json.JSONDecodeError]):
      [basestring] is [str], [dict.items()] is a view of the live dict, and
      a dict that grows while it is iterated makes its iterator raise
      [RuntimeError].
    - The JSON-Schema engine, the network and the resource filesystem are
      collaborators of the program; they are the variables of the section
      [Validator].
    - [validate_schema] writes into the schema bundle, so it returns the
      bundle next to its outcome. *)

From Stdlib Require Import List String Ascii ZArith Bool Arith Lia DecimalString.
From Stdlib Require Import Sorted Permutation.
Import ListNotations.
Open Scope string_scope.

(** ** JSON values *)

Unset Elimination Schemes.
Inductive json : Type :=
| JNull
| JBool (b : bool)
| JNum (n : Z)
| JStr (s : string)
| JArr (xs : list json)
| JObj (kvs : list (string * json)).
Set Elimination Schemes.

Definition dict := list (string * json).

(** Structural induction that reaches below arrays and objects. *)
Section json_induction.
Variable P : json -> Prop.
Hypothesis P_null : P JNull.
Hypothesis P_bool : forall b, P (JBool b).
Hypothesis P_num : forall n, P (JNum n).
Hypothesis P_str : forall s, P (JStr s).
Hypothesis P_arr : forall xs, Forall P xs -> P (JArr xs).
Hypothesis P_obj : forall kvs, Forall (fun kv => P (snd kv)) kvs -> P (JObj kvs).

Fixpoint json_deep_ind (j : json) : P j :=
  match j with
  | JNull => P_null
  | JBool b => P_bool b
  | JNum n => P_num n
  | JStr s => P_str s
  | JArr xs =>
      P_arr xs ((fix elems (l : list json) : Forall P l :=
                   match l with
                   | [] => Forall_nil P
                   | x :: r => Forall_cons x (json_deep_ind x) (elems r)
                   end) xs)
  | JObj kvs =>
      P_obj kvs ((fix members (l : dict) : Forall (fun kv => P (snd kv)) l :=
                    match l with
                    | [] => Forall_nil _
                    | kv :: r => Forall_cons kv (json_deep_ind (snd kv)) (members r)
                    end) kvs)
  end.
End json_induction.

(** A [dict] never holds a key twice. *)
Unset Elimination Schemes.
Inductive wf_json : json -> Prop :=
| wf_null : wf_json JNull
| wf_bool b : wf_json (JBool b)
| wf_num n : wf_json (JNum n)
| wf_str s : wf_json (JStr s)
| wf_arr xs : Forall wf_json xs -> wf_json (JArr xs)
| wf_obj kvs :
    NoDup (map fst kvs) -> Forall (fun kv => wf_json (snd kv)) kvs ->
    wf_json (JObj kvs).
Set Elimination Schemes.

(** ** Python exceptions and results *)

Inductive exn : Type :=
| KeyError (key : json)
| TypeError
| AttributeError
| RuntimeError
| MissingSchemaFile (path : string)
| JsValidationError          (* jsonschema.ValidationError *)
| JsSchemaError              (* jsonschema.SchemaError *)
| JsRefResolutionError       (* jsonschema.exceptions.RefResolutionError *)
| IOError
| YAMLError
| JSONDecodeError
| RequestError               (* requests: connection failure or HTTPError *)
| OtherError (what : string).

Inductive result (A : Type) : Type :=
| Return (a : A)
| Raise (e : exn).
Arguments Return {A} a.
Arguments Raise {A} e.

Definition bind {A B} (r : result A) (k : A -> result B) : result B :=
  match r with
  | Return a => k a
  | Raise e => Raise e
  end.

Notation "x <- r ;; k" := (bind r (fun x => k))
  (at level 61, r at next level, right associativity).

(** ** Python primitives on JSON values *)

(** [d.get(k)] on a dict: the value of the first (and only) entry for [k]. *)
Fixpoint dict_get (d : dict) (k : string) : option json :=
  match d with
  | [] => None
  | (k', v) :: r => if k' =? k then Some v else dict_get r k
  end.

(** [k in d] on a dict. *)
Definition dict_has (d : dict) (k : string) : bool :=
  match dict_get d k with Some _ => true | None => false end.

(** [v[k]] with [k] a string: a dict raises [KeyError] on a missing key,
    every other value raises [TypeError] (lists and strings want integer
    indices, the other scalars are not subscriptable). *)
Definition subscript (v : json) (k : string) : result json :=
  match v with
  | JObj kvs =>
      match dict_get kvs k with
      | Some x => Return x
      | None => Raise (KeyError (JStr k))
      end
  | _ => Raise TypeError
  end.

(** Lists and dicts cannot be hashed, so they cannot be looked up in a dict. *)
Definition hashable (k : json) : bool :=
  match k with
  | JArr _ | JObj _ => false
  | _ => true
  end.

(** [b[k]] on a bundle, whose keys are strings, with [k] any JSON value. *)
Definition bundle_subscript (b : dict) (k : json) : result json :=
  match k with
  | JStr s =>
      match dict_get b s with
      | Some x => Return x
      | None => Raise (KeyError k)
      end
  | JArr _ | JObj _ => Raise TypeError
  | _ => Raise (KeyError k)
  end.

(** [k in b] on a bundle with [k] any JSON value. *)
Definition bundle_contains (b : dict) (k : json) : result bool :=
  match k with
  | JStr s => Return (dict_has b s)
  | JArr _ | JObj _ => Raise TypeError
  | _ => Return false
  end.

(** [v == s] with [s] a string. *)
Definition eq_str (v : json) (s : string) : bool :=
  match v with
  | JStr t => t =? s
  | _ => false
  end.

(** [k in v] with [k] a string and [v] of any type: key membership on a
    dict, element membership on a list, substring on a string, and a
    [TypeError] on the values that are not containers. *)
Definition contains (v : json) (k : string) : result bool :=
  match v with
  | JObj kvs => Return (dict_has kvs k)
  | JArr xs => Return (existsb (fun x => eq_str x k) xs)
  | JStr s => Return (match index 0 k s with Some _ => true | None => false end)
  | _ => Raise TypeError
  end.

(** [s.startswith(p)] *)
Definition startswith (s p : string) : bool := prefix p s.

(** The decimal digits of ASCII, the characters of [str(index)]. *)
Definition is_digit_char (c : ascii) : bool :=
  ((48 <=? nat_of_ascii c) && (nat_of_ascii c <=? 57))%nat.

Fixpoint all_digits (s : string) : bool :=
  match s with
  | EmptyString => true
  | String c r => is_digit_char c && all_digits r
  end.

(** The code points of a string.  A lead byte announces the length of its
    sequence and every byte after it is a continuation byte [10xxxxxx]. *)
Definition continuation (c : ascii) : option N :=
  let b := N_of_ascii c in
  if ((128 <=? b) && (b <? 192))%N then Some (b - 128)%N else None.

Fixpoint code_points (s : string) : option (list N) :=
  match s with
  | EmptyString => Some []
  | String c r =>
      let b := N_of_ascii c in
      if (b <? 128)%N then option_map (cons b) (code_points r)
      else if (b <? 192)%N then None
      else if (b <? 224)%N then
        match r with
        | String c1 r1 =>
            match continuation c1 with
            | Some x1 =>
                option_map (cons ((b - 192) * 64 + x1)%N) (code_points r1)
            | None => None
            end
        | _ => None
        end
      else if (b <? 240)%N then
        match r with
        | String c1 (String c2 r2) =>
            match continuation c1, continuation c2 with
            | Some x1, Some x2 =>
                option_map (cons ((b - 224) * 4096 + x1 * 64 + x2)%N)
                           (code_points r2)
            | _, _ => None
            end
        | _ => None
        end
      else if (b <? 248)%N then
        match r with
        | String c1 (String c2 (String c3 r3)) =>
            match continuation c1, continuation c2, continuation c3 with
            | Some x1, Some x2, Some x3 =>
                option_map
                  (cons ((b - 240) * 262144 + x1 * 4096 + x2 * 64 + x3)%N)
                  (code_points r3)
            | _, _, _ => None
            end
        | _ => None
        end
      else None
  end.

(** The code points whose Unicode property Numeric_Type is Decimal or
    Digit, as inclusive ranges (Unicode 14.0, the database of CPython
    3.11): the decimal digits of every script, and the superscript,
    subscript, circled and similar digits. *)
Definition digit_ranges : list (N * N) :=
  [(48, 57); (178, 179); (185, 185); (1632, 1641); (1776, 1785);
   (1984, 1993); (2406, 2415); (2534, 2543); (2662, 2671); (2790, 2799);
   (2918, 2927); (3046, 3055); (3174, 3183); (3302, 3311); (3430, 3439);
   (3558, 3567); (3664, 3673); (3792, 3801); (3872, 3881); (4160, 4169);
   (4240, 4249); (4969, 4977); (6112, 6121); (6160, 6169); (6470, 6479);
   (6608, 6618); (6784, 6793); (6800, 6809); (6992, 7001); (7088, 7097);
   (7232, 7241); (7248, 7257); (8304, 8304); (8308, 8313); (8320, 8329);
   (9312, 9320); (9332, 9340); (9352, 9360); (9450, 9450); (9461, 9469);
   (9471, 9471); (10102, 10110); (10112, 10120); (10122, 10130);
   (42528, 42537); (43216, 43225); (43264, 43273); (43472, 43481);
   (43504, 43513); (43600, 43609); (44016, 44025); (65296, 65305);
   (66720, 66729); (68160, 68163); (68912, 68921); (69216, 69224);
   (69714, 69722); (69734, 69743); (69872, 69881); (69942, 69951);
   (70096, 70105); (70384, 70393); (70736, 70745); (70864, 70873);
   (71248, 71257); (71360, 71369); (71472, 71481); (71904, 71913);
   (72016, 72025); (72784, 72793); (73040, 73049); (73120, 73129);
   (92768, 92777); (92864, 92873); (93008, 93017); (120782, 120831);
   (123200, 123209); (123632, 123641); (125264, 125273); (127232, 127242);
   (130032, 130041)]%N.

Definition is_digit_code_point (c : N) : bool :=
  existsb (fun r => (fst r <=? c) && (c <=? snd r))%N digit_ranges.

(** [s.isdigit()]: non-empty and every character is a digit of Unicode. *)
Definition isdigit (s : string) : bool :=
  match code_points s with
  | Some (c :: l) => forallb is_digit_code_point (c :: l)
  | _ => false
  end.

(** [s.split("/")]: always at least one piece. *)
Fixpoint split_slash (s : string) : list string :=
  match s with
  | EmptyString => [EmptyString]
  | String c r =>
      if Ascii.eqb c "/"%char then EmptyString :: split_slash r
      else match split_slash r with
           | [] => [String c EmptyString]
           | piece :: pieces => String c piece :: pieces
           end
  end.

(** [str(n)] for a list index. *)
Definition str_of_index (n : nat) : string :=
  NilEmpty.string_of_uint (Nat.to_uint n).

(** ["{}/{}".format(ptr, seg)] *)
Definition join_ptr (ptr seg : string) : string := ptr ++ "/" ++ seg.

(** ** Reference discovery *)

(** [find_refs(obj, ptr, refs)]: the list [refs] is the accumulator the
    recursive calls append to; it is threaded through the calls. *)
Fixpoint find_refs_from (obj : json) (ptr : string)
    (refs : list (string * json)) : list (string * json) :=
  match obj with
  | JObj kvs =>
      if dict_has kvs "$ref" then refs ++ [(ptr, obj)]
      else
        (fix items (l : dict) (refs : list (string * json)) :=
           match l with
           | [] => refs
           | (key, item) :: r =>
               items r (find_refs_from item (join_ptr ptr key) refs)
           end) kvs refs
  | JArr xs =>
      (fix enumerate (l : list json) (index : nat)
           (refs : list (string * json)) :=
         match l with
         | [] => refs
         | item :: r =>
             enumerate r (S index)
               (find_refs_from item (join_ptr ptr (str_of_index index)) refs)
         end) xs 0 refs
  | _ => refs
  end.

(** A top-level call: [ptr] and [refs] default to [None], which the body
    replaces by the empty pointer and a new empty list. *)
Definition find_refs (obj : json) : list (string * json) :=
  find_refs_from obj "" [].

(** The trigger of [find_resource_paths]:
    ['provider' in obj and obj['provider'] == 'resource' and 'path' in obj]. *)
Definition is_resource (kvs : dict) : bool :=
  match dict_get kvs "provider" with
  | Some v => eq_str v "resource" && dict_has kvs "path"
  | None => false
  end.

Fixpoint find_resource_paths_from (obj : json) (ptr : string)
    (paths : list (string * json)) : list (string * json) :=
  match obj with
  | JObj kvs =>
      if is_resource kvs then paths ++ [(ptr, obj)]
      else
        (fix items (l : dict) (paths : list (string * json)) :=
           match l with
           | [] => paths
           | (key, item) :: r =>
               items r (find_resource_paths_from item (join_ptr ptr key) paths)
           end) kvs paths
  | JArr xs =>
      (fix enumerate (l : list json) (index : nat)
           (paths : list (string * json)) :=
         match l with
         | [] => paths
         | item :: r =>
             enumerate r (S index)
               (find_resource_paths_from item
                  (join_ptr ptr (str_of_index index)) paths)
         end) xs 0 paths
  | _ => paths
  end.

Definition find_resource_paths (obj : json) : list (string * json) :=
  find_resource_paths_from obj "" [].

(** ** Schema pointer navigation *)

(** One turn of the loop of [get_schema_info_from_pointer]. *)
Definition descend (info : json) (chunk : string) : result json :=
  if isdigit chunk then subscript info "items"
  else (props <- subscript info "properties" ;; subscript props chunk).

Fixpoint descend_all (info : json) (chunks : list string) : result json :=
  match chunks with
  | [] => Return info
  | chunk :: r => (info' <- descend info chunk ;; descend_all info' r)
  end.

Definition get_schema_info_from_pointer (schema : json) (ptr : string)
  : result json :=
  descend_all schema (tl (split_slash ptr)).

(** ** Validation outcomes *)

Inductive ValidatedFileKind : Type := SCHEMA | DATA_FILE | REF | RESOURCE_PATH.

(** [kind.value] *)
Definition kind_value (k : ValidatedFileKind) : string :=
  match k with
  | SCHEMA => "SCHEMA"
  | DATA_FILE => "FILE"
  | REF => "REF"
  | RESOURCE_PATH => "RESOURCE_PATH"
  end.

(** The [error] argument of [ValidationError]: a caught exception, a message,
    or an [IncorrectSchema] built (not raised) by [validate_ref]. *)
Inductive error_value : Type :=
| ErrExn (e : exn)
| ErrText (message : string)
| IncorrectSchema (got : json) (expecting : string).

Inductive ValidationResult : Type :=
| ValidationOK (kind : ValidatedFileKind) (filename : string) (schema_url : json)
| ValidationRefOK (kind : ValidatedFileKind) (filename : string)
    (ref : json) (schema_url : json)
| ValidationError (kind : ValidatedFileKind) (filename : string)
    (reason : string) (error : error_value) (kwargs : dict).

(** The class attribute [status]. *)
Definition status (r : ValidationResult) : bool :=
  match r with
  | ValidationError _ _ _ _ _ => false
  | _ => true
  end.

(** The reason code of an outcome, when it is an error. *)
Definition reason_of (r : ValidationResult) : option string :=
  match r with
  | ValidationError _ _ reason _ _ => Some reason
  | _ => None
  end.

Definition kind_of (r : ValidationResult) : ValidatedFileKind :=
  match r with
  | ValidationOK k _ _ | ValidationRefOK k _ _ _ | ValidationError k _ _ _ _ => k
  end.

Definition filename_of (r : ValidationResult) : string :=
  match r with
  | ValidationOK _ f _ | ValidationRefOK _ f _ _ | ValidationError _ f _ _ _ => f
  end.

(** What [dump()] returns.  The texts under ["summary"] and ["error"] are
    renderings of the fields kept here and are left out; [d_fields] holds the
    remaining keys of ["result"]. *)
Record dumped : Type := Dumped {
  d_filename : string;
  d_kind : string;
  d_ref : option json;
  d_status : string;
  d_reason : option string;
  d_fields : dict
}.

Definition dump (r : ValidationResult) : dumped :=
  match r with
  | ValidationOK kind filename schema_url =>
      Dumped filename (kind_value kind) None "OK" None
        [("schema_url", schema_url)]
  | ValidationRefOK kind filename ref schema_url =>
      Dumped filename (kind_value kind) (Some ref) "OK" None
        [("schema_url", schema_url); ("ref", ref)]
  | ValidationError kind filename reason _ kwargs =>
      Dumped filename (kind_value kind) None "ERROR" (Some reason) kwargs
  end.

(** ** [os.path.splitext] (POSIX) *)

Fixpoint rfind_from (c : ascii) (s : string) (i last : Z) : Z :=
  match s with
  | EmptyString => last
  | String a r => rfind_from c r (i + 1)%Z (if Ascii.eqb a c then i else last)
  end.

(** [s.rfind(c)]: the last position of [c], or [-1]. *)
Definition rfind (s : string) (c : ascii) : Z := rfind_from c s 0%Z (-1)%Z.

Fixpoint all_dots (s : string) : bool :=
  match s with
  | EmptyString => true
  | String a r => Ascii.eqb a "."%char && all_dots r
  end.

(** The extension starts at the last dot of the last path component, leading
    dots of that component not counting. *)
Definition splitext (p : string) : string * string :=
  let sepIndex := rfind p "/"%char in
  let dotIndex := rfind p "."%char in
  if (sepIndex <? dotIndex)%Z then
    let filenameIndex := Z.to_nat (sepIndex + 1) in
    let dot := Z.to_nat dotIndex in
    if all_dots (substring filenameIndex (dot - filenameIndex) p)
    then (p, EmptyString)
    else (substring 0 dot p, substring dot (String.length p - dot) p)
  else (p, EmptyString).

Definition valid_json_ext : list string := [".json"].
Definition valid_yaml_ext : list string := [".yml"; ".yaml"].
Definition valid_extensions : list string := valid_json_ext ++ valid_yaml_ext.

Definition str_in (s : string) (l : list string) : bool :=
  existsb (String.eqb s) l.

(** ** The validators *)

(** The resolver handed to the JSON-Schema engine: [RefResolver(base, referrer,
    handlers=get_handlers(schemas_bundle))], or the engine's own when none is
    given. *)
Inductive resolver : Type :=
| RefResolver (base_uri : string) (referrer : json) (schemas_bundle : dict)
| DefaultResolver.

(** [d[k] = v]: replaces the value of an existing key, appends a new one. *)
Fixpoint dict_set (d : dict) (k : string) (v : json) : dict :=
  match d with
  | [] => [(k, v)]
  | (k', v') :: r => if k' =? k then (k', v) :: r else (k', v') :: dict_set r k v
  end.

Section Validator.

(** [jsonschema.Draft4Validator.check_schema(schema)]: what it raises. *)
Variable check_schema : json -> option exn.
(** [jsonschema.Draft4Validator(schema, resolver=r).validate(instance)]:
    what it raises. *)
Variable draft4_validate : resolver -> json -> json -> option exn.
(** [requests.get(url)], [raise_for_status()] and [anymarkup.parse]. *)
Variable http_get : string -> result json.
(** [open(path, 'r')]: the text of the file, or nothing ([IOError]). *)
Variable open_file : string -> option string.
(** [yaml.load(fh, Loader=yamlLoader)] and [json.load(fh)]. *)
Variable yaml_load : string -> result json.
Variable json_load : string -> result json.

Definition fetch_schema (schema_url : json) : result json :=
  match schema_url with
  | JStr url =>
      if startswith url "http" then http_get url
      else Raise (MissingSchemaFile url)
  | _ => Raise AttributeError          (* no [startswith] on a non-string *)
  end.

(** [schemas_bundle[meta_schema_url] = meta_schema]; the key is a string
    whenever [fetch_schema] has returned. *)
Definition bundle_set (b : dict) (k : json) (v : json) : dict :=
  match k with
  | JStr s => dict_set b s v
  | _ => b
  end.

Definition validate_schema (schemas_bundle : dict) (filename : string)
    (schema_data : json) : result (ValidationResult * dict) :=
  let kind := SCHEMA in
  match subscript schema_data "$schema" with
  | Raise (KeyError k) =>
      Return (ValidationError kind filename "MISSING_SCHEMA_URL"
                (ErrExn (KeyError k)) [], schemas_bundle)
  | Raise e => Raise e
  | Return meta_schema_url =>
      present <- bundle_contains schemas_bundle meta_schema_url ;;
      found <- (if present : bool then
                  meta_schema <- bundle_subscript schemas_bundle meta_schema_url ;;
                  Return (meta_schema, schemas_bundle)
                else
                  meta_schema <- fetch_schema meta_schema_url ;;
                  Return (meta_schema,
                          bundle_set schemas_bundle meta_schema_url meta_schema)) ;;
      let '(meta_schema, schemas_bundle) := found in
      let resolver := RefResolver filename schema_data schemas_bundle in
      let raised :=
        match check_schema schema_data with
        | Some e => Some e
        | None => draft4_validate resolver meta_schema schema_data
        end in
      match raised with
      | Some JsValidationError =>
          Return (ValidationError kind filename "VALIDATION_ERROR"
                    (ErrExn JsValidationError)
                    [("meta_schema_url", meta_schema_url)], schemas_bundle)
      | Some JsSchemaError =>
          Return (ValidationError kind filename "SCHEMA_ERROR"
                    (ErrExn JsSchemaError)
                    [("meta_schema_url", meta_schema_url)], schemas_bundle)
      | Some JsRefResolutionError =>
          Return (ValidationError kind filename "SCHEMA_ERROR"
                    (ErrExn JsRefResolutionError)
                    [("meta_schema_url", meta_schema_url)], schemas_bundle)
      | Some e => Raise e
      | None => Return (ValidationOK kind filename meta_schema_url, schemas_bundle)
      end
  end.

(** The normalisation of [validate_file]:
    [if not url.startswith('http') and not url.startswith('/'): url = '/' + url] *)
Definition normalize_url (schema_url : string) : string :=
  if negb (startswith schema_url "http") && negb (startswith schema_url "/")
  then "/" ++ schema_url else schema_url.

Definition validate_file (schemas_bundle : dict) (filename : string)
    (data : json) : result ValidationResult :=
  let kind := DATA_FILE in
  match subscript data "$schema" with
  | Raise (KeyError k) =>
      Return (ValidationError kind filename "MISSING_SCHEMA_URL"
                (ErrExn (KeyError k)) [])
  | Raise e => Raise e
  | Return (JStr schema_url) =>
      let schema_url := normalize_url schema_url in
      match bundle_subscript schemas_bundle (JStr schema_url) with
      | Raise (KeyError k) =>
          Return (ValidationError kind filename "SCHEMA_NOT_FOUND"
                    (ErrExn (KeyError k)) [("schema_url", JStr schema_url)])
      | Raise e => Raise e
      | Return schema =>
          let resolver := RefResolver schema_url schema schemas_bundle in
          match draft4_validate resolver schema data with
          | Some JsValidationError =>
              Return (ValidationError kind filename "VALIDATION_ERROR"
                        (ErrExn JsValidationError) [("schema_url", JStr schema_url)])
          | Some JsSchemaError =>
              Return (ValidationError kind filename "SCHEMA_ERROR"
                        (ErrExn JsSchemaError) [("schema_url", JStr schema_url)])
          | Some TypeError =>
              Return (ValidationError kind filename "SCHEMA_TYPE_ERROR"
                        (ErrExn TypeError) [("schema_url", JStr schema_url)])
          | Some e => Raise e
          | None => Return (ValidationOK kind filename (JStr schema_url))
          end
      end
  | Return _ => Raise AttributeError    (* no [startswith] on a non-string *)
  end.

(** [schema_info.get('$schemaRef')]: only a dict has [get]. *)
Definition get_schemaRef (schema_info : json) : result (option json) :=
  match schema_info with
  | JObj kvs => Return (dict_get kvs "$schemaRef")
  | _ => Raise AttributeError
  end.

Definition validate_ref (schemas_bundle bundle : dict) (filename : string)
    (data : json) (ptr : string) (ref : json) : result ValidationResult :=
  let kind := REF in
  match (target <- subscript ref "$ref" ;; bundle_subscript bundle target) with
  | Raise (KeyError k) =>
      r <- subscript ref "$ref" ;;
      Return (ValidationError kind filename "FILE_NOT_FOUND"
                (ErrExn (KeyError k)) [("ref", r)])
  | Raise e => Raise e
  | Return ref_data =>
  match (url <- subscript data "$schema" ;; bundle_subscript schemas_bundle url) with
  | Raise (KeyError k) =>
      r <- subscript ref "$ref" ;;
      Return (ValidationError kind filename "SCHEMA_NOT_FOUND"
                (ErrExn (KeyError k)) [("ref", r)])
  | Raise e => Raise e
  | Return schema =>
  match get_schema_info_from_pointer schema ptr with
  | Raise (KeyError k) =>
      r <- subscript ref "$ref" ;;
      Return (ValidationError kind filename "SCHEMA_DEFINITION_NOT_FOUND"
                (ErrExn (KeyError k)) [("ref", r)])
  | Raise e => Raise e
  | Return schema_info =>
      expected_schema <- get_schemaRef schema_info ;;
      let ok :=
        r <- subscript ref "$ref" ;;
        url <- subscript data "$schema" ;;
        Return (ValidationRefOK kind filename r url) in
      match expected_schema with
      | None | Some JNull => ok
      | Some (JStr expected) =>
          got <- subscript ref_data "$schema" ;;
          if negb (eq_str got expected) then
            got <- subscript ref_data "$schema" ;;
            r <- subscript ref "$ref" ;;
            Return (ValidationError kind filename "INCORRECT_SCHEMA"
                      (IncorrectSchema got expected) [("ref", r)])
          else ok
      | Some expected =>
          match draft4_validate DefaultResolver expected ref_data with
          | Some JsValidationError =>
              Return (ValidationError kind filename "SCHEMA_REF_VALIDATION_ERROR"
                        (ErrExn JsValidationError) [])
          | Some e => Raise e
          | None => ok
          end
      end
  end end end.

(** The [try] block of [validate_resource_paths]: open the file and parse it
    with the loader its extension selects. *)
Definition load_resource (real_res_path ext : string) : result json :=
  match open_file real_res_path with
  | None => Raise IOError
  | Some fh =>
      if str_in ext valid_yaml_ext then yaml_load fh
      else if str_in ext valid_json_ext then json_load fh
      else Raise (OtherError "resourcedata is unbound")
  end.

(** [all(k in resourcedata for k in ('apiVersion', 'metadata', 'kind'))]:
    the generator stops at the first key that is missing. *)
Fixpoint all_in (resourcedata : json) (keys : list string) : result bool :=
  match keys with
  | [] => Return true
  | k :: r =>
      here <- contains resourcedata k ;;
      if here : bool then all_in resourcedata r else Return false
  end.

Definition validate_resource_paths (schemas_bundle bundle : dict)
    (filename : string) (data : json) (ptr : string) (res : json)
  : result ValidationResult :=
  let kind := RESOURCE_PATH in
  path <- subscript res "path" ;;
  match path with
  | JStr res_path =>
      let file_ext := splitext res_path in
      let real_res_path := "resources" ++ res_path in
      if negb (str_in (snd file_ext) valid_extensions) then
        Return (ValidationError kind filename "MISSING_EXTENSION"
                  (ErrText "The resource file extension should end in one of the following: .json, .yml, .yaml")
                  [("res", path)])
      else
      match load_resource real_res_path (snd file_ext) with
      | Raise IOError =>
          Return (ValidationError kind filename "FILE_NOT_FOUND"
                    (ErrText ("Resource file could not be found: " ++ real_res_path))
                    [("res", path)])
      | Raise YAMLError =>
          Return (ValidationError kind filename "INVALID_YAML"
                    (ErrText ("Resource file could not be parsed as valid YAML: "
                              ++ real_res_path))
                    [("res", path)])
      | Raise JSONDecodeError =>
          Return (ValidationError kind filename "INVALID_JSON"
                    (ErrText ("Resource file could not be parsed as valid JSON: "
                              ++ real_res_path))
                    [("res", path)])
      | Raise e => Raise e
      | Return resourcedata =>
          basic <- all_in resourcedata ["apiVersion"; "metadata"; "kind"] ;;
          if negb basic then
            Return (ValidationError kind filename "INVALID_OBJECT"
                      (ErrText ("Resource file is not a valid kubernetes object: "
                                ++ real_res_path))
                      [("res", path)])
          else
            k <- subscript resourcedata "kind" ;;
            needs_data <-
              (if eq_str k "ConfigMap" || eq_str k "Secret"
               then has <- contains resourcedata "data" ;; Return (negb has)
               else Return false) ;;
            if needs_data : bool then
              Return (ValidationError kind filename "INVALID_OBJECT"
                        (ErrText ("ConfigMap or Secret resource file is missing a data field: "
                                  ++ real_res_path))
                        [("res", path)])
            else
              url <- subscript data "$schema" ;;
              Return (ValidationRefOK kind filename path url)
      end
  | _ => Raise TypeError       (* [os.path.splitext] wants a string *)
  end.

(** ** The orchestrator *)

(** The first comprehension of [main].  It walks the live schema bundle while
    [validate_schema] may insert a fetched meta-schema into it; a dict that
    has grown makes the next step of its iterator raise [RuntimeError]. *)
Fixpoint run_schemas (items : dict) (schemas_bundle : dict) (acc : list dumped)
  : result (list dumped * dict) :=
  match items with
  | [] => Return (acc, schemas_bundle)
  | (filename, schema_data) :: r =>
      out <- validate_schema schemas_bundle filename schema_data ;;
      let '(outcome, schemas_bundle') := out in
      if (List.length schemas_bundle' =? List.length schemas_bundle)%nat
      then run_schemas r schemas_bundle' (acc ++ [dump outcome])%list
      else Raise RuntimeError
  end.

(** A comprehension with one [for]: one unit per document. *)
Fixpoint run_files (schemas_bundle : dict) (items : dict) : result (list dumped) :=
  match items with
  | [] => Return []
  | (filename, data) :: r =>
      outcome <- validate_file schemas_bundle filename data ;;
      rest <- run_files schemas_bundle r ;;
      Return (dump outcome :: rest)
  end.

(** The inner [for] of a comprehension with two: one unit per discovered pair. *)
Fixpoint run_pairs (unit : string -> json -> result ValidationResult)
    (pairs : list (string * json)) : result (list dumped) :=
  match pairs with
  | [] => Return []
  | (ptr, obj) :: r =>
      outcome <- unit ptr obj ;;
      rest <- run_pairs unit r ;;
      Return (dump outcome :: rest)
  end.

(** The outer [for]: the documents of the data bundle, each with the pairs
    [discover] finds in it. *)
Fixpoint run_nested (discover : json -> list (string * json))
    (unit : string -> json -> string -> json -> result ValidationResult)
    (items : dict) : result (list dumped) :=
  match items with
  | [] => Return []
  | (filename, data) :: r =>
      here <- run_pairs (unit filename data) (discover data) ;;
      rest <- run_nested discover unit r ;;
      Return (here ++ rest)%list
  end.

(** What a completed run leaves: the aggregate, its error subset, the list
    written to the standard output and the exit status. *)
Record run : Type := Run {
  results : list dumped;
  errors : list dumped;
  output : list dumped;
  exit_status : Z
}.

Definition is_error (x : dumped) : bool := d_status x =? "ERROR".

Definition main (only_errors : bool) (data_bundle schemas_bundle : dict)
  : result run :=
  s <- run_schemas schemas_bundle schemas_bundle [] ;;
  let '(results_schemas, schemas_bundle) := s in
  results_files <- run_files schemas_bundle data_bundle ;;
  results_refs <-
    run_nested find_refs (validate_ref schemas_bundle data_bundle) data_bundle ;;
  results_res_paths <-
    run_nested find_resource_paths
      (validate_resource_paths schemas_bundle data_bundle) data_bundle ;;
  let results :=
    (results_schemas ++ results_files ++ results_refs ++ results_res_paths)%list in
  let errors := filter is_error results in
  Return (Run results errors (if only_errors then errors else results)
            (if (0 <? List.length errors)%nat then 1%Z else 0%Z)).

End Validator.

(** The exit status of the process.  A run that completes ends with the
    status [main] asks for ([sys.exit(1)], or the end of [main]); an
    exception that leaves [main] ends the interpreter with status 1. *)
Definition process_exit (outcome : result run) : Z :=
  match outcome with
  | Return r => exit_status r
  | Raise _ => 1%Z
  end.

(** * Properties *)

Open Scope list_scope.

(** ** Schema pointer navigation *)

(** The navigator as the specification words it: a segment that reads as a
    non-negative integer selects [items], any other selects
    [properties[segment]], and a segment that cannot be resolved is a miss. *)
Definition nonneg_integer (segment : string) : bool :=
  match segment, NilEmpty.uint_of_string segment with
  | String _ _, Some _ => true
  | _, _ => false
  end.

Definition member (v : json) (k : string) : option json :=
  match v with
  | JObj kvs => dict_get kvs k
  | _ => None
  end.

Definition spec_segment (schema : json) (segment : string) : option json :=
  if nonneg_integer segment then member schema "items"
  else match member schema "properties" with
       | Some props => member props segment
       | None => None
       end.

Definition drop_empty_leading (segments : list string) : list string :=
  match segments with
  | EmptyString :: rest => rest
  | _ => segments
  end.

Definition resolveSchemaAtPointer (schema : json) (pointerPath : string)
  : option json :=
  fold_left
    (fun found segment =>
       match found with
       | Some s => spec_segment s segment
       | None => None
       end)
    (drop_empty_leading (split_slash pointerPath)) (Some schema).

Definition returned {A} (r : result A) : option A :=
  match r with
  | Return a => Some a
  | Raise _ => None
  end.

Lemma digit_char_parses (c : ascii) (d : Decimal.uint) :
  is_digit_char c = true <-> exists d', uint_of_char c (Some d) = Some d'.
Proof.
  destruct c as [[] [] [] [] [] [] [] []]; cbn; split;
    solve [ discriminate | intros [d' Hd']; discriminate
          | reflexivity | eexists; reflexivity ].
Qed.

Lemma all_digits_parses (s : string) :
  all_digits s = true <-> exists d, NilEmpty.uint_of_string s = Some d.
Proof.
  induction s as [|c s IH]; simpl.
  - split; [eexists; reflexivity | reflexivity].
  - rewrite andb_true_iff, IH. split.
    + intros [Hc [d Hd]]. rewrite Hd. now apply digit_char_parses.
    + intros [d' Hd']. destruct (NilEmpty.uint_of_string s) as [d|] eqn:E.
      * split; [apply (digit_char_parses c d) | ]; eauto.
      * destruct c as [[] [] [] [] [] [] [] []]; discriminate.
Qed.

(** Text made of ASCII characters only. *)
Fixpoint ascii_text (s : string) : bool :=
  match s with
  | EmptyString => true
  | String c r => (N_of_ascii c <? 128)%N && ascii_text r
  end.

Lemma digit_code_point_ascii (c : ascii) :
  (N_of_ascii c <? 128)%N = true ->
  is_digit_code_point (N_of_ascii c) = is_digit_char c.
Proof.
  destruct c as [[] [] [] [] [] [] [] []]; vm_compute; intros H;
    solve [reflexivity | discriminate H].
Qed.

Lemma digit_char_ascii (c : ascii) :
  is_digit_char c = true -> (N_of_ascii c <? 128)%N = true.
Proof.
  destruct c as [[] [] [] [] [] [] [] []]; vm_compute; intros H;
    solve [reflexivity | discriminate H].
Qed.

Lemma all_digits_ascii_text (s : string) :
  all_digits s = true -> ascii_text s = true.
Proof.
  induction s as [|c s IH]; simpl; [reflexivity|].
  rewrite !andb_true_iff. intros [Hc Hs]. split; [|exact (IH Hs)].
  exact (digit_char_ascii c Hc).
Qed.

Lemma code_points_ascii (c : ascii) (r : string) :
  (N_of_ascii c <? 128)%N = true ->
  code_points (String c r) = option_map (cons (N_of_ascii c)) (code_points r).
Proof.
  intros H. cbn [code_points]. cbv zeta. rewrite H. reflexivity.
Qed.

Lemma code_points_ascii_text (s : string) :
  ascii_text s = true ->
  exists l, code_points s = Some l /\
            forallb is_digit_code_point l = all_digits s /\
            List.length l = String.length s.
Proof.
  induction s as [|c s IH]; intros H.
  - exists []. repeat split.
  - simpl in H. apply andb_true_iff in H. destruct H as [Hc Hs].
    destruct (IH Hs) as [l [El [Dl Ll]]].
    exists (N_of_ascii c :: l). rewrite (code_points_ascii _ _ Hc), El.
    split; [reflexivity|]. split.
    + simpl. now rewrite Dl, (digit_code_point_ascii _ Hc).
    + simpl. now rewrite Ll.
Qed.

(** On ASCII text [str.isdigit] asks for decimal digits, and at least one. *)
Lemma isdigit_ascii_text (s : string) :
  ascii_text s = true ->
  isdigit s = match s with EmptyString => false | _ => all_digits s end.
Proof.
  intros H. destruct (code_points_ascii_text s H) as [l [El [Dl Ll]]].
  unfold isdigit. rewrite El.
  destruct s as [|c s]; destruct l as [|x l]; try discriminate Ll;
    [reflexivity | exact Dl].
Qed.

Lemma all_digits_isdigit (c : ascii) (s : string) :
  all_digits (String c s) = true -> isdigit (String c s) = true.
Proof.
  intros H. now rewrite isdigit_ascii_text by now apply all_digits_ascii_text.
Qed.

Lemma isdigit_nonneg_integer (s : string) :
  ascii_text s = true -> isdigit s = nonneg_integer s.
Proof.
  intros Ha. rewrite (isdigit_ascii_text s Ha).
  destruct s as [|c s]; [reflexivity|].
  unfold nonneg_integer.
  destruct (all_digits (String c s)) eqn:E.
  - apply all_digits_parses in E. destruct E as [d ->]. reflexivity.
  - destruct (NilEmpty.uint_of_string (String c s)) eqn:E'; [|reflexivity].
    assert (all_digits (String c s) = true) by (apply all_digits_parses; eauto).
    congruence.
Qed.

Lemma descend_spec_segment (info : json) (chunk : string) :
  ascii_text chunk = true ->
  returned (descend info chunk) = spec_segment info chunk.
Proof.
  intros Ha. unfold descend, spec_segment. rewrite (isdigit_nonneg_integer _ Ha).
  destruct (nonneg_integer chunk).
  - destruct info; simpl; try reflexivity. now destruct (dict_get kvs "items").
  - destruct info; simpl; try reflexivity.
    destruct (dict_get kvs "properties") as [props|]; simpl; [|reflexivity].
    destruct props; simpl; try reflexivity. now destruct (dict_get kvs0 chunk).
Qed.

Lemma descend_all_fold (chunks : list string) (info : json) :
  Forall (fun chunk => ascii_text chunk = true) chunks ->
  returned (descend_all info chunks) =
  fold_left (fun found segment =>
               match found with
               | Some s => spec_segment s segment
               | None => None
               end) chunks (Some info).
Proof.
  intros Ha. revert info.
  induction Ha as [|c r Hc Hr IH]; intros info; simpl; [reflexivity|].
  rewrite <- (descend_spec_segment _ _ Hc).
  destruct (descend info c) as [info'|e]; simpl; [apply IH|].
  clear. induction r; simpl; auto.
Qed.

Lemma split_slash_ascii_text (s : string) :
  ascii_text s = true ->
  Forall (fun chunk => ascii_text chunk = true) (split_slash s).
Proof.
  induction s as [|c s IH]; intros H.
  - repeat constructor.
  - simpl in H. apply andb_true_iff in H. destruct H as [Hc Hs].
    specialize (IH Hs). simpl.
    destruct (Ascii.eqb c "/"%char).
    + constructor; [reflexivity | exact IH].
    + destruct (split_slash s) as [|piece pieces].
      * constructor; [simpl; now rewrite Hc | constructor].
      * inversion IH as [|? ? Hp Hps]; subst.
        constructor; [simpl; now rewrite Hc, Hp | exact Hps].
Qed.

(** The pointer paths of the data model: empty, or starting with a slash. *)
Definition pointer_path (ptr : string) : Prop :=
  ptr = EmptyString \/ exists rest, ptr = String "/" rest.

Lemma split_slash_pointer_path (ptr : string) :
  pointer_path ptr ->
  drop_empty_leading (split_slash ptr) = tl (split_slash ptr).
Proof.
  intros [-> | [rest ->]]; reflexivity.
Qed.

Definition schema_a_b : json :=
  JObj [("properties",
         JObj [("a", JObj [("properties",
                            JObj [("b", JObj [("type", JStr "string")])])])])].

Definition schema_a_items : json :=
  JObj [("properties",
         JObj [("a", JObj [("items", JObj [("type", JStr "number")])])])].

(** The one-character string SUPERSCRIPT TWO (U+00B2): the bytes C2 B2. *)
Definition superscript_two : string :=
  String (ascii_of_N 194) (String (ascii_of_N 178) EmptyString).

(** C6 (as stated, refuted).  The segment U+00B2 is not a non-negative
    integer, yet [str.isdigit] accepts it: on the schema with [a] an array
    of numbers and the pointer [/a/] followed by that character the code
    descends into [items] and returns [{type: "number"}], where a navigator
    that takes [properties[segment]] for every segment that is not a
    non-negative integer misses. *)
Lemma superscript_segment_counterexample :
  nonneg_integer superscript_two = false /\
  isdigit superscript_two = true /\
  get_schema_info_from_pointer schema_a_items ("/a/" ++ superscript_two)%string =
    Return (JObj [("type", JStr "number")]) /\
  resolveSchemaAtPointer schema_a_items ("/a/" ++ superscript_two)%string = None /\
  descend (JObj [("items", JNull)]) superscript_two = Return JNull /\
  descend (JObj [("items", JNull)]) superscript_two <>
    (if nonneg_integer superscript_two
     then subscript (JObj [("items", JNull)]) "items"
     else (props <- subscript (JObj [("items", JNull)]) "properties" ;;
           subscript props superscript_two)).
Proof.
  repeat split; try reflexivity. vm_compute. discriminate.
Qed.

(** C6 (amended).  [get_schema_info_from_pointer] splits the pointer path on
    [/], drops the leading segment, and for each remaining segment descends
    into [items] when [segment.isdigit()] holds and into
    [properties[segment]] otherwise.  For a segment of ASCII text
    [isdigit] holds exactly when the segment is a non-negative integer, so on
    every pointer path of ASCII text the function returns what the
    specification's navigator returns, and misses where that one misses.  On
    the schema with [b] below [a] and the pointer [/a/b] it returns
    [{type: "string"}], and on the schema with [a] an array of numbers and the
    pointer [/a/0] it returns [{type: "number"}]. *)
Theorem navigator_follows_specification :
  (forall schema rest,
      ascii_text rest = true ->
      returned (get_schema_info_from_pointer schema (String "/" rest)) =
      resolveSchemaAtPointer schema (String "/" rest)) /\
  (forall schema,
      get_schema_info_from_pointer schema "" = Return schema /\
      resolveSchemaAtPointer schema "" = Some schema) /\
  (forall info chunk,
      descend info chunk =
      if isdigit chunk then subscript info "items"
      else (props <- subscript info "properties" ;; subscript props chunk)) /\
  (forall chunk,
      ascii_text chunk = true -> isdigit chunk = nonneg_integer chunk) /\
  get_schema_info_from_pointer schema_a_b "/a/b" =
    Return (JObj [("type", JStr "string")]) /\
  get_schema_info_from_pointer schema_a_items "/a/0" =
    Return (JObj [("type", JStr "number")]).
Proof.
  repeat split.
  - intros schema rest Ha.
    unfold get_schema_info_from_pointer, resolveSchemaAtPointer.
    rewrite split_slash_pointer_path by (right; eauto).
    apply descend_all_fold.
    assert (H : Forall (fun chunk => ascii_text chunk = true)
                       (split_slash (String "/" rest))).
    { apply split_slash_ascii_text. simpl. exact Ha. }
    simpl in H |- *. inversion H; assumption.
  - exact isdigit_nonneg_integer.
Qed.

Lemma navigator_follows_specification_witness :
  ascii_text "a/0" = true /\
  returned (get_schema_info_from_pointer schema_a_items "/a/0") =
    resolveSchemaAtPointer schema_a_items "/a/0" /\
  isdigit "0" = nonneg_integer "0" /\
  isdigit "a" = nonneg_integer "a".
Proof.
  destruct navigator_follows_specification as [Hnav [_ [_ [Hseg _]]]].
  split; [reflexivity|]. split; [|split].
  - apply (Hnav schema_a_items "a/0"). reflexivity.
  - apply (Hseg "0"). reflexivity.
  - apply (Hseg "a"). reflexivity.
Defined.

(** ** Reference discovery *)

(** A location inside a document: the object keys and array indices from the
    root. *)
Inductive segment : Type :=
| Key (k : string)
| Index (i : nat).

Definition path := list segment.

Definition segment_text (s : segment) : string :=
  match s with
  | Key k => k
  | Index i => str_of_index i
  end.

(** The pointer path of a location below the pointer [base]: every segment
    preceded by a slash. *)
Definition pointer_of (base : string) (p : path) : string :=
  fold_left join_ptr (map segment_text p) base.

Definition child (v : json) (s : segment) : option json :=
  match v, s with
  | JObj kvs, Key k => dict_get kvs k
  | JArr xs, Index i => nth_error xs i
  | _, _ => None
  end.

Fixpoint value_at (v : json) (p : path) : option json :=
  match p with
  | [] => Some v
  | s :: r => match child v s with
              | Some c => value_at c r
              | None => None
              end
  end.

(** An object is a reference site iff it contains the key [$ref]. *)
Definition is_ref (v : json) : bool :=
  match v with
  | JObj kvs => dict_has kvs "$ref"
  | _ => false
  end.

(** [o] is a [$ref]-bearing sub-object of [doc] at [p] that lies inside no
    other [$ref]-bearing object. *)
Definition ref_site (doc : json) (p : path) (o : json) : Prop :=
  value_at doc p = Some o /\ is_ref o = true /\
  forall q r above, p = q ++ r -> r <> [] ->
                    value_at doc q = Some above -> is_ref above = false.

Fixpoint enumerate_from {A : Type} (i : nat) (l : list A) : list (nat * A) :=
  match l with
  | [] => []
  | x :: r => (i, x) :: enumerate_from (S i) r
  end.

(** The children of a value in iteration order, each with its segment. *)
Definition children (v : json) : list (segment * json) :=
  match v with
  | JObj kvs => map (fun kv => (Key (fst kv), snd kv)) kvs
  | JArr xs => map (fun ix => (Index (fst ix), snd ix)) (enumerate_from 0 xs)
  | _ => []
  end.

(** Document order: at the first segment where two locations part, the
    first one goes through the earlier child. *)
Inductive doc_before : json -> path -> path -> Prop :=
| before_sibling v l1 s c l2 t d p q :
    children v = l1 ++ (s, c) :: l2 -> In (t, d) l2 ->
    doc_before v (s :: p) (t :: q)
| before_below v s c p q :
    child v s = Some c -> doc_before c p q ->
    doc_before v (s :: p) (s :: q).

Definition under (s : segment) (site : path * json) : path * json :=
  (s :: fst site, snd site).

Definition located (ptr : string) (site : path * json) : string * json :=
  (pointer_of ptr (fst site), snd site).

(** The reference sites of a value, listed by a walk that does not use an
    accumulator. *)
Fixpoint ref_sites (v : json) : list (path * json) :=
  match v with
  | JObj kvs =>
      if dict_has kvs "$ref" then [([], v)]
      else flat_map (fun kv => map (under (Key (fst kv))) (ref_sites (snd kv))) kvs
  | JArr xs =>
      (fix enumerate (index : nat) (l : list json) : list (path * json) :=
         match l with
         | [] => []
         | item :: r =>
             (map (under (Index index)) (ref_sites item) ++ enumerate (S index) r)%list
         end) 0 xs
  | _ => []
  end.

Lemma located_under (ptr : string) (s : segment) (l : list (path * json)) :
  map (located ptr) (map (under s) l) =
  map (located (join_ptr ptr (segment_text s))) l.
Proof.
  rewrite map_map. apply map_ext. intros [p o]. reflexivity.
Qed.

Lemma find_refs_from_sites (v : json) :
  forall ptr acc,
    find_refs_from v ptr acc = (acc ++ map (located ptr) (ref_sites v))%list.
Proof.
  induction v as [| | | |xs IH|kvs IH] using json_deep_ind; intros ptr acc;
    try (simpl; now rewrite app_nil_r).
  - simpl. generalize 0 as index. revert acc.
    induction IH as [|item r Hitem _ IHr]; intros acc index.
    + now rewrite app_nil_r.
    + rewrite IHr, Hitem, map_app, located_under, <- app_assoc. reflexivity.
  - simpl. destruct (dict_has kvs "$ref"); [reflexivity|].
    revert acc. induction IH as [|[key item] r Hitem _ IHr]; intros acc.
    + now rewrite app_nil_r.
    + simpl in *. rewrite IHr, Hitem, map_app, located_under, <- app_assoc.
      reflexivity.
Qed.

(** *** The walk seen through [children] *)

Lemma ref_sites_children (v : json) :
  ref_sites v =
  if is_ref v then [([], v)]
  else flat_map (fun sc => map (under (fst sc)) (ref_sites (snd sc))) (children v).
Proof.
  destruct v as [| | | |xs|kvs]; try reflexivity.
  - simpl. generalize 0 as index.
    induction xs as [|item r IH]; intros index; simpl; [reflexivity|].
    now rewrite IH.
  - simpl. destruct (dict_has kvs "$ref"); [reflexivity|].
    induction kvs as [|[key item] r IH]; simpl; [reflexivity|].
    now rewrite IH.
Qed.

Lemma in_enumerate_from {A : Type} (l : list A) :
  forall n i x,
    In (i, x) (enumerate_from n l) <-> n <= i /\ nth_error l (i - n) = Some x.
Proof.
  induction l as [|y r IH]; intros n i x; simpl.
  - split; [contradiction|]. intros [_ H]. now destruct (i - n).
  - rewrite IH. split.
    + intros [E | [Hle Hnth]].
      * inversion E; subst. rewrite Nat.sub_diag. auto.
      * split; [lia|]. replace (i - n) with (S (i - S n)) by lia. exact Hnth.
    + intros [Hle Hnth]. destruct (i - n) as [|m] eqn:E.
      * left. inversion Hnth. f_equal. lia.
      * right. split; [lia|]. replace (i - S n) with m by lia. exact Hnth.
Qed.

Lemma json_children_ind (P : json -> Prop) :
  (forall v, (forall s c, In (s, c) (children v) -> P c) -> P v) ->
  forall v, P v.
Proof.
  intros step.
  induction v as [| | | |xs IH|kvs IH] using json_deep_ind;
    apply step; simpl; try contradiction.
  - intros s c Hin. apply in_map_iff in Hin. destruct Hin as [[i x] [E Hin]].
    inversion E; subst; clear E.
    apply in_enumerate_from in Hin. destruct Hin as [_ Hnth].
    apply nth_error_In in Hnth. rewrite Forall_forall in IH. auto.
  - intros s c Hin. apply in_map_iff in Hin. destruct Hin as [[k x] [E Hin]].
    inversion E; subst; clear E.
    rewrite Forall_forall in IH. apply (IH (k, c) Hin).
Qed.

Lemma dict_get_In (kvs : dict) (k : string) (v : json) :
  NoDup (map fst kvs) -> (In (k, v) kvs <-> dict_get kvs k = Some v).
Proof.
  induction kvs as [|[k' v'] r IH]; simpl; intros Hnd.
  - split; [contradiction | discriminate].
  - inversion Hnd as [|? ? Hnotin Hnd']; subst.
    destruct (String.eqb_spec k' k) as [->|Hne].
    + split.
      * intros [E|Hin]; [now inversion E|].
        exfalso. apply Hnotin. apply (in_map fst) in Hin. exact Hin.
      * intros E. inversion E. now left.
    + rewrite <- (IH Hnd'). split; [|tauto].
      intros [E|Hin]; [inversion E; congruence | exact Hin].
Qed.

Lemma children_child (v : json) (s : segment) (c : json) :
  wf_json v -> (In (s, c) (children v) <-> child v s = Some c).
Proof.
  intros Hwf. destruct v as [| | | |xs|kvs]; simpl;
    try (split; [contradiction | destruct s; discriminate]).
  - rewrite in_map_iff. split.
    + intros [[i x] [E Hin]]. inversion E; subst.
      apply in_enumerate_from in Hin. now rewrite Nat.sub_0_r in Hin.
    + destruct s as [k|i]; [discriminate|]. intros Hnth.
      exists (i, c). split; [reflexivity|].
      apply in_enumerate_from. rewrite Nat.sub_0_r. split; [lia | exact Hnth].
  - inversion Hwf as [| | | | |? Hnd _]; subst.
    rewrite in_map_iff. split.
    + intros [[k x] [E Hin]]. inversion E; subst. now apply dict_get_In.
    + destruct s as [k|i]; [|discriminate]. intros Hget.
      exists (k, c). split; [reflexivity|]. now apply dict_get_In.
Qed.

Lemma children_wf (v : json) (s : segment) (c : json) :
  wf_json v -> In (s, c) (children v) -> wf_json c.
Proof.
  intros Hwf Hin. destruct v as [| | | |xs|kvs]; simpl in Hin; try contradiction.
  - inversion Hwf as [| | | |? Hall|]; subst.
    apply in_map_iff in Hin. destruct Hin as [[i x] [E Hin]]. inversion E; subst.
    apply in_enumerate_from in Hin. destruct Hin as [_ Hnth].
    apply nth_error_In in Hnth. rewrite Forall_forall in Hall. auto.
  - inversion Hwf as [| | | | |? _ Hall]; subst.
    apply in_map_iff in Hin. destruct Hin as [[k x] [E Hin]]. inversion E; subst.
    rewrite Forall_forall in Hall. apply (Hall (k, c) Hin).
Qed.

Lemma enumerate_from_fst {A : Type} (l : list A) (n : nat) :
  map fst (enumerate_from n l) = seq n (List.length l).
Proof.
  revert n. induction l as [|x r IH]; intros n; simpl; [reflexivity|].
  now rewrite IH.
Qed.

Lemma children_segments_NoDup (v : json) :
  wf_json v -> NoDup (map fst (children v)).
Proof.
  intros Hwf. destruct v as [| | | |xs|kvs]; simpl; try constructor.
  - rewrite map_map. simpl.
    rewrite <- (map_map fst Index), enumerate_from_fst.
    apply Finite.Injective_map_NoDup; [|apply seq_NoDup].
    intros i j E. now inversion E.
  - inversion Hwf as [| | | | |? Hnd _]; subst.
    rewrite map_map. simpl. rewrite <- (map_map fst Key).
    apply Finite.Injective_map_NoDup; [|exact Hnd].
    intros i j E. now inversion E.
Qed.

(** *** Reference sites, declaratively *)

Lemma ref_site_here (v : json) (p : path) (o : json) :
  is_ref v = true -> (ref_site v p o <-> p = [] /\ o = v).
Proof.
  intros Hv. split.
  - intros (Hat & _ & Habove). destruct p as [|s p'].
    + simpl in Hat. inversion Hat. auto.
    + specialize (Habove [] (s :: p') v eq_refl ltac:(discriminate) eq_refl).
      congruence.
  - intros [-> ->]. repeat split; auto.
    intros q r above E Hr. symmetry in E. apply app_eq_nil in E. tauto.
Qed.

Lemma ref_site_below (v : json) (p : path) (o : json) :
  is_ref v = false ->
  (ref_site v p o <->
   exists s p' c, p = s :: p' /\ child v s = Some c /\ ref_site c p' o).
Proof.
  intros Hv. split.
  - intros (Hat & Ho & Habove). destruct p as [|s p'].
    + simpl in Hat. inversion Hat. congruence.
    + simpl in Hat. destruct (child v s) as [c|] eqn:Hc; [|discriminate].
      exists s, p', c. repeat split; auto.
      intros q r above E Hr Hq. apply (Habove (s :: q) r above).
      * simpl. now rewrite E.
      * exact Hr.
      * simpl. now rewrite Hc.
  - intros (s & p' & c & -> & Hc & Hat & Ho & Habove). repeat split; auto.
    + simpl. now rewrite Hc.
    + intros q r above E Hr Hq. destruct q as [|s' q'].
      * simpl in Hq. inversion Hq. congruence.
      * simpl in E. inversion E; subst s'. simpl in Hq. rewrite Hc in Hq.
        eapply Habove; eauto.
Qed.

Lemma ref_sites_sound_complete :
  forall v, wf_json v ->
            forall p o, In (p, o) (ref_sites v) <-> ref_site v p o.
Proof.
  induction v as [v IH] using json_children_ind. intros Hwf p o.
  rewrite ref_sites_children. destruct (is_ref v) eqn:Hv.
  - rewrite ref_site_here by exact Hv. simpl. split.
    + intros [E|[]]. inversion E. auto.
    + intros [-> ->]. now left.
  - rewrite ref_site_below by exact Hv. rewrite in_flat_map. split.
    + intros ([s c] & Hin & Hsite). simpl in Hsite.
      apply in_map_iff in Hsite. destruct Hsite as ([p' o'] & E & Hsite).
      unfold under in E. simpl in E. injection E as Ep Eo. subst p o.
      exists s, p', c.
      assert (Hc := Hin). apply children_child in Hc; [|exact Hwf].
      split; [reflexivity|]. split; [exact Hc|].
      now apply (IH s c Hin (children_wf _ _ _ Hwf Hin)).
    + intros (s & p' & c & -> & Hc & Hsite).
      apply children_child in Hc; [|exact Hwf].
      exists (s, c). split; [exact Hc|]. simpl. apply in_map_iff.
      exists (p', o). split; [reflexivity|].
      now apply (IH s c Hc (children_wf _ _ _ Hwf Hc)).
Qed.

Lemma under_paths (s : segment) (l : list (path * json)) :
  map fst (map (under s) l) = map (cons s) (map fst l).
Proof.
  rewrite !map_map. reflexivity.
Qed.

Lemma in_sites_below (l : list (segment * json)) (p : path) :
  In p (map fst (flat_map (fun sc => map (under (fst sc)) (ref_sites (snd sc))) l)) ->
  exists t d q, In (t, d) l /\ p = t :: q /\ In q (map fst (ref_sites d)).
Proof.
  rewrite in_map_iff. intros ([p' o] & <- & Hin).
  apply in_flat_map in Hin. destruct Hin as ([t d] & Hl & Hin). simpl in Hin.
  apply in_map_iff in Hin. destruct Hin as ([q o'] & E & Hq).
  unfold under in E. simpl in E. injection E as <- <-.
  exists t, d, q. repeat split; auto. apply (in_map fst) in Hq. exact Hq.
Qed.

Lemma sites_below_NoDup (l : list (segment * json)) :
  NoDup (map fst l) ->
  (forall s c, In (s, c) l -> NoDup (map fst (ref_sites c))) ->
  NoDup (map fst (flat_map (fun sc => map (under (fst sc)) (ref_sites (snd sc))) l)).
Proof.
  induction l as [|[s c] r IH]; simpl; intros Hnd Hall; [constructor|].
  inversion Hnd as [|? ? Hnotin Hnd']; subst.
  rewrite map_app, under_paths. apply NoDup_app.
  - apply Finite.Injective_map_NoDup; [|now apply (Hall s c); left].
    intros a b E. now inversion E.
  - apply IH; [exact Hnd'|]. intros t d Hin. apply (Hall t d). now right.
  - intros p Hp Hp'. apply in_map_iff in Hp. destruct Hp as (q & <- & _).
    apply in_sites_below in Hp'. destruct Hp' as (t & d & q' & Hin & E & _).
    injection E as <- _. apply Hnotin. apply (in_map fst) in Hin. exact Hin.
Qed.

Lemma ref_sites_NoDup :
  forall v, wf_json v -> NoDup (map fst (ref_sites v)).
Proof.
  induction v as [v IH] using json_children_ind. intros Hwf.
  rewrite ref_sites_children. destruct (is_ref v).
  - simpl. constructor; [intros [] | constructor].
  - apply sites_below_NoDup; [now apply children_segments_NoDup|].
    intros s c Hin. apply (IH s c Hin). eapply children_wf; eauto.
Qed.

(** *** Traversal order *)

Definition site_before (doc : json) (a b : path * json) : Prop :=
  doc_before doc (fst a) (fst b).

Lemma StronglySorted_app {A : Type} (R : A -> A -> Prop) (l1 l2 : list A) :
  StronglySorted R l1 -> StronglySorted R l2 ->
  (forall x y, In x l1 -> In y l2 -> R x y) ->
  StronglySorted R (l1 ++ l2).
Proof.
  induction l1 as [|a r IH]; simpl; intros H1 H2 Hcross; [exact H2|].
  inversion H1 as [|? ? Hr Ha]; subst. constructor.
  - apply IH; auto.
  - apply Forall_app. split; [exact Ha|].
    apply Forall_forall. intros y Hy. apply Hcross; auto.
Qed.

Lemma StronglySorted_under (v : json) (s : segment) (c : json)
    (l : list (path * json)) :
  child v s = Some c ->
  StronglySorted (site_before c) l ->
  StronglySorted (site_before v) (map (under s) l).
Proof.
  intros Hc. induction 1 as [|a r _ IH Ha]; simpl; constructor; [exact IH|].
  apply Forall_map. eapply Forall_impl; [|exact Ha].
  intros b Hab. unfold site_before. simpl. now apply before_below with c.
Qed.

Lemma sites_below_sorted (v : json) (suffix : list (segment * json)) :
  wf_json v ->
  (forall s c, In (s, c) suffix -> StronglySorted (site_before c) (ref_sites c)) ->
  forall prefix,
    children v = prefix ++ suffix ->
    StronglySorted (site_before v)
      (flat_map (fun sc => map (under (fst sc)) (ref_sites (snd sc))) suffix).
Proof.
  intros Hwf. induction suffix as [|[s c] r IH]; simpl; intros Hall prefix E;
    [constructor|].
  assert (Hc : child v s = Some c).
  { apply children_child; [exact Hwf|]. rewrite E. apply in_or_app. right. now left. }
  apply StronglySorted_app.
  - apply StronglySorted_under with c; [exact Hc|]. apply (Hall s c). now left.
  - apply (IH (fun t d Hin => Hall t d (or_intror Hin)) (prefix ++ [(s, c)])).
    now rewrite <- app_assoc.
  - intros a b Ha Hb. apply in_map_iff in Ha. destruct Ha as ([p o] & <- & _).
    apply in_flat_map in Hb. destruct Hb as ([t d] & Hin & Hb). simpl in Hb.
    apply in_map_iff in Hb. destruct Hb as ([q o'] & <- & _).
    unfold site_before. simpl. now apply before_sibling with prefix c r d.
Qed.

Lemma ref_sites_sorted :
  forall v, wf_json v -> StronglySorted (site_before v) (ref_sites v).
Proof.
  induction v as [v IH] using json_children_ind. intros Hwf.
  rewrite ref_sites_children. destruct (is_ref v).
  - repeat constructor.
  - apply sites_below_sorted with (prefix := []); [exact Hwf| |reflexivity].
    intros s c Hin. apply (IH s c Hin). eapply children_wf; eauto.
Qed.

(** *** The pointer path of a location, as the data model writes it *)

From Stdlib Require DecimalNat DecimalFacts.

(** [numeral t i]: the text [t] is the decimal numeral of [i]: it reads as
    the number [i] and has no leading zero. *)
Definition numeral (t : string) (i : nat) : Prop :=
  (exists d, NilEmpty.uint_of_string t = Some d /\ Nat.of_uint d = i) /\
  (t = "0" \/ exists c r, t = String c r /\ c <> "0"%char).

(** [written p ptr]: the text [ptr] is, for every segment of [p] in turn, a
    slash followed by the key, or by the numeral of the index. *)
Inductive written : path -> string -> Prop :=
| written_root : written [] EmptyString
| written_key k p rest :
    written p rest -> written (Key k :: p) (String "/" (k ++ rest))
| written_index i t p rest :
    numeral t i -> written p rest ->
    written (Index i :: p) (String "/" (t ++ rest)).

Lemma canonical_text (d : Decimal.uint) :
  Decimal.unorm d = d ->
  NilEmpty.string_of_uint d = "0" \/
  exists c r, NilEmpty.string_of_uint d = String c r /\ c <> "0"%char.
Proof.
  intros H.
  destruct d;
    try (right; simpl; eexists; eexists; split; [reflexivity | discriminate]).
  - discriminate H.
  - unfold Decimal.unorm in H. simpl in H.
    destruct (Decimal.nzhead d) eqn:E;
      try (injection H as <-; left; reflexivity);
      exfalso; rewrite <- E in H; exact (DecimalFacts.nzhead_nonzero _ _ H).
Qed.

Lemma text_canonical (d : Decimal.uint) :
  (NilEmpty.string_of_uint d = "0" \/
   exists c r, NilEmpty.string_of_uint d = String c r /\ c <> "0"%char) ->
  Decimal.unorm d = d.
Proof.
  intros [H | (c & r & H & Hc)].
  - destruct d; try discriminate H. simpl in H. injection H as H.
    destruct d; try discriminate H. reflexivity.
  - destruct d; simpl in H; try discriminate H; try reflexivity.
    injection H as <- _. now elim Hc.
Qed.

(** [str(index)] is the numeral of the index. *)
Lemma str_of_index_numeral (i : nat) : numeral (str_of_index i) i.
Proof.
  unfold str_of_index. split.
  - exists (Nat.to_uint i).
    split; [apply NilEmpty.usu | apply DecimalNat.Unsigned.of_to].
  - apply canonical_text.
    rewrite <- DecimalNat.Unsigned.to_of, DecimalNat.Unsigned.of_to.
    reflexivity.
Qed.

(** A number has one numeral, so a location has one written pointer. *)
Lemma numeral_unique (t t' : string) (i : nat) :
  numeral t i -> numeral t' i -> t = t'.
Proof.
  intros [(d & Hd & Hi) Hc] [(d' & Hd' & Hi') Hc'].
  apply NilEmpty.sus in Hd, Hd'. subst t t'.
  apply text_canonical in Hc, Hc'.
  rewrite <- Hi' in Hi. apply DecimalNat.Unsigned.of_inj in Hi.
  rewrite Hc, Hc' in Hi. now subst.
Qed.

Lemma written_unique (p : path) (a b : string) :
  written p a -> written p b -> a = b.
Proof.
  intros Ha. revert b.
  induction Ha as [|k p rest _ IH|i t p rest Ht _ IH]; intros b Hb.
  - inversion Hb. reflexivity.
  - inversion Hb as [|k' p' rest' Hrest|]; subst.
    now rewrite (IH _ Hrest).
  - inversion Hb as [| |i' t' p' rest' Ht' Hrest]; subst.
    now rewrite (IH _ Hrest), (numeral_unique _ _ _ Ht Ht').
Qed.

Lemma string_append_assoc (a b c : string) :
  ((a ++ b) ++ c = a ++ (b ++ c))%string.
Proof.
  induction a as [|x a IH]; simpl; [reflexivity | now rewrite IH].
Qed.

Lemma string_append_empty (a : string) : (a ++ "")%string = a.
Proof.
  induction a as [|x a IH]; simpl; [reflexivity | now rewrite IH].
Qed.

(** The pointer the walk builds below [base] is [base] followed by the
    written pointer of the location. *)
Lemma pointer_of_written (p : path) :
  forall base,
    exists rest, pointer_of base p = (base ++ rest)%string /\ written p rest.
Proof.
  induction p as [|s r IH]; intros base.
  - exists EmptyString. split; [|constructor].
    unfold pointer_of. simpl. now rewrite string_append_empty.
  - destruct (IH (join_ptr base (segment_text s))) as (rest & E & Hrest).
    exists (String "/" (segment_text s ++ rest))%string. split.
    + unfold pointer_of in *. simpl. rewrite E. unfold join_ptr.
      rewrite string_append_assoc. reflexivity.
    + destruct s as [k|i]; simpl.
      * now constructor.
      * constructor; [apply str_of_index_numeral | exact Hrest].
Qed.

Lemma located_written (sites : list (path * json)) :
  Forall2 (fun found site =>
             written (fst site) (fst found) /\ snd found = snd site)
          (map (located "") sites) sites.
Proof.
  induction sites as [|[p o] r IH]; simpl; constructor; [|exact IH].
  simpl. split; [|reflexivity].
  destruct (pointer_of_written p EmptyString) as (rest & -> & H). exact H.
Qed.

Lemma find_refs_enumerates (doc : json) :
  wf_json doc ->
  exists sites : list (path * json),
    find_refs doc = map (located "") sites /\
    (forall p o, In (p, o) sites <-> ref_site doc p o) /\
    NoDup (map fst sites) /\
    StronglySorted (site_before doc) sites.
Proof.
  intros Hwf. exists (ref_sites doc). split; [|split; [|split]].
  - unfold find_refs. now rewrite find_refs_from_sites.
  - now apply ref_sites_sound_complete.
  - now apply ref_sites_NoDup.
  - now apply ref_sites_sorted.
Qed.

(** C5. Reference discovery is complete and precise.  On a document (a tree
    of dicts and lists) [find_refs] returns one pair per [$ref]-bearing
    sub-object that lies inside no other one: the pairs are exactly those
    sites, each once, in document order, each pointer path being written as
    the location of its site: for every key or index on the way from the
    root, a slash followed by the key or by the decimal numeral of the
    index; hence a document with [k] such sites yields exactly [k] pairs.  An
    object that contains [$ref] is recorded and not descended, and what a
    call returns is what it finds appended to the accumulator it was given,
    so a top-level call, which starts from an empty one, returns its own
    finds only. *)
Theorem find_refs_complete_and_precise (doc : json) (Hwf : wf_json doc) :
  (exists sites : list (path * json),
      Forall2 (fun found site =>
                 written (fst site) (fst found) /\ snd found = snd site)
              (find_refs doc) sites /\
      (forall p o, In (p, o) sites <-> ref_site doc p o) /\
      NoDup (map fst sites) /\
      StronglySorted (site_before doc) sites) /\
  (forall (k : nat) (locations : list path),
      NoDup locations -> List.length locations = k ->
      (forall p, In p locations <-> exists o, ref_site doc p o) ->
      List.length (find_refs doc) = k) /\
  (forall kvs ptr acc,
      dict_has kvs "$ref" = true ->
      find_refs_from (JObj kvs) ptr acc = acc ++ [(ptr, JObj kvs)]) /\
  find_refs doc = find_refs_from doc "" [] /\
  (forall ptr acc, find_refs_from doc ptr acc = acc ++ find_refs_from doc ptr []).
Proof.
  split; [|split; [|split; [|split]]].
  - destruct (find_refs_enumerates doc Hwf) as (sites & E & Hsites).
    exists sites. split; [|exact Hsites]. rewrite E. apply located_written.
  - intros k locations Hnd <- Hlocs.
    destruct (find_refs_enumerates doc Hwf) as (sites & -> & Hsites & Hnd' & _).
    rewrite length_map, <- (length_map fst sites).
    apply Permutation_length, NoDup_Permutation; auto.
    intros p. rewrite Hlocs. split.
    + intros Hin. apply in_map_iff in Hin. destruct Hin as ([p' o] & <- & Hin).
      exists o. now apply Hsites.
    + intros [o Ho]. apply Hsites in Ho. apply (in_map fst) in Ho. exact Ho.
  - intros kvs ptr acc Hk. simpl. now rewrite Hk.
  - reflexivity.
  - intros ptr acc. now rewrite !find_refs_from_sites.
Qed.

Definition sample_document : json :=
  JObj [("$schema", JStr "/app-1.yml");
        ("owner", JObj [("$ref", JStr "/users/ann.yml");
                        ("note", JObj [("$ref", JStr "/hidden.yml")])]);
        ("deps", JArr [JObj [("$ref", JStr "/apps/db.yml")]; JNum 5])].

Lemma sample_document_wf : wf_json sample_document.
Proof.
  unfold sample_document.
  repeat first
    [ apply wf_obj | apply wf_arr | apply wf_str | apply wf_num
    | apply Forall_cons | apply Forall_nil | apply NoDup_nil
    | apply NoDup_cons; [simpl; intuition discriminate|] ]; simpl.
Qed.

Example find_refs_sample :
  find_refs sample_document =
  [("/owner", JObj [("$ref", JStr "/users/ann.yml");
                    ("note", JObj [("$ref", JStr "/hidden.yml")])]);
   ("/deps/0", JObj [("$ref", JStr "/apps/db.yml")])].
Proof. reflexivity. Qed.

Lemma find_refs_complete_and_precise_witness :
  wf_json sample_document /\
  exists sites : list (path * json),
    Forall2 (fun found site =>
               written (fst site) (fst found) /\ snd found = snd site)
            (find_refs sample_document) sites /\
    (forall p o, In (p, o) sites <-> ref_site sample_document p o) /\
    NoDup (map fst sites) /\
    StronglySorted (site_before sample_document) sites.
Proof.
  split; [exact sample_document_wf|].
  exact (proj1 (find_refs_complete_and_precise sample_document sample_document_wf)).
Defined.

(** *** Document order is strict, and discovered pointers are pointer paths *)

Lemma doc_before_distinct (v : json) (p q : path) :
  doc_before v p q -> wf_json v -> p <> q.
Proof.
  induction 1 as [v l1 s c l2 t d p q Hsplit Hin | v s c p q Hc _ IH];
    intros Hwf E.
  - injection E as -> _.
    pose proof (children_segments_NoDup v Hwf) as Hnd.
    rewrite Hsplit, map_app in Hnd. simpl in Hnd.
    apply NoDup_remove_2 in Hnd. apply Hnd, in_or_app. right.
    apply (in_map fst) in Hin. exact Hin.
  - injection E as E. apply IH; [|exact E].
    apply (children_wf v s c Hwf). now apply children_child.
Qed.

Lemma pointer_of_extends (p : path) :
  forall base,
    exists rest,
      pointer_of base p = (base ++ rest)%string /\
      (p = [] -> rest = EmptyString) /\
      (p <> [] -> exists tail, rest = String "/" tail).
Proof.
  induction p as [|s r IH]; intros base.
  - exists EmptyString. split; [|split]; auto.
    + unfold pointer_of. simpl. induction base; simpl; congruence.
    + intros H. now elim H.
  - destruct (IH (join_ptr base (segment_text s))) as (rest & E & _).
    exists (String "/" (segment_text s ++ rest))%string. split; [|split].
    + unfold pointer_of in *. simpl. rewrite E. unfold join_ptr.
      rewrite string_append_assoc. reflexivity.
    + discriminate.
    + eauto.
Qed.

Lemma found_pointers_are_pointer_paths (doc : json) (ptr : string) (o : json) :
  In (ptr, o) (find_refs doc) -> pointer_path ptr.
Proof.
  unfold find_refs. rewrite find_refs_from_sites. simpl. intros Hin.
  apply in_map_iff in Hin. destruct Hin as ([p o'] & E & _).
  unfold located in E. simpl in E. injection E as <- _.
  destruct (pointer_of_extends p EmptyString) as (rest & -> & Hnil & Hcons).
  simpl. destruct p as [|s r].
  - left. now apply Hnil.
  - right. apply Hcons. discriminate.
Qed.

(** ** Facts about the validators *)

(** What a call produced, seen from outside: the reason code of a returned
    error. *)
Definition outcome_reason (r : result ValidationResult) : option string :=
  match r with
  | Return o => reason_of o
  | Raise _ => None
  end.


Definition is_dict (v : json) : bool :=
  match v with JObj _ => true | _ => false end.

Definition is_str (v : json) : bool :=
  match v with JStr _ => true | _ => false end.

(** What a key names in a bundle, whose keys are strings: the entry stored
    under it, if the key is a string and the bundle has it. *)
Definition named (b : dict) (k : json) : option json :=
  match k with
  | JStr s => dict_get b s
  | _ => None
  end.

Lemma bundle_subscript_named (b : dict) (k : json) :
  bundle_subscript b k =
  if hashable k then
    match named b k with
    | Some v => Return v
    | None => Raise (KeyError k)
    end
  else Raise TypeError.
Proof.
  destruct k; reflexivity.
Qed.

Lemma named_hashable (b : dict) (k v : json) :
  named b k = Some v -> hashable k = true.
Proof.
  destruct k; simpl; intros H; try discriminate H; reflexivity.
Qed.

Lemma bundle_subscript_found (b : dict) (k v : json) :
  named b k = Some v -> bundle_subscript b k = Return v.
Proof.
  intros H. rewrite bundle_subscript_named, (named_hashable _ _ _ H), H.
  reflexivity.
Qed.

Lemma bundle_subscript_absent (b : dict) (k : json) :
  hashable k = true -> named b k = None ->
  bundle_subscript b k = Raise (KeyError k).
Proof.
  intros Hh H. rewrite bundle_subscript_named, Hh, H. reflexivity.
Qed.

Lemma bundle_subscript_unhashable (b : dict) (k : json) :
  hashable k = false -> bundle_subscript b k = Raise TypeError.
Proof.
  intros Hh. rewrite bundle_subscript_named, Hh. reflexivity.
Qed.

Lemma subscript_missing (kvs : dict) (k : string) :
  dict_has kvs k = false -> subscript (JObj kvs) k = Raise (KeyError (JStr k)).
Proof.
  unfold dict_has, subscript. now destruct (dict_get kvs k).
Qed.

Lemma subscript_present (kvs : dict) (k : string) (v : json) :
  dict_get kvs k = Some v -> subscript (JObj kvs) k = Return v.
Proof.
  unfold subscript. now intros ->.
Qed.

Section ValidatorFacts.

Variable check_schema : json -> option exn.
Variable draft4_validate : resolver -> json -> json -> option exn.
Variable http_get : string -> result json.
Variable open_file : string -> option string.
Variable yaml_load : string -> result json.
Variable json_load : string -> result json.

Local Abbreviation validate_schema' :=
  (validate_schema check_schema draft4_validate http_get).
Local Abbreviation validate_file' := (validate_file draft4_validate).
Local Abbreviation validate_ref' := (validate_ref draft4_validate).
Local Abbreviation validate_resource_paths' :=
  (validate_resource_paths open_file yaml_load json_load).

(** *** Documents without [$schema] *)

Lemma validate_schema_missing_url schemas_bundle filename kvs :
  dict_has kvs "$schema" = false ->
  validate_schema' schemas_bundle filename (JObj kvs) =
  Return (ValidationError SCHEMA filename "MISSING_SCHEMA_URL"
            (ErrExn (KeyError (JStr "$schema"))) [], schemas_bundle).
Proof.
  intros H. unfold validate_schema.
  now rewrite (subscript_missing _ _ H).
Qed.

Lemma validate_file_missing_url schemas_bundle filename kvs :
  dict_has kvs "$schema" = false ->
  validate_file' schemas_bundle filename (JObj kvs) =
  Return (ValidationError DATA_FILE filename "MISSING_SCHEMA_URL"
            (ErrExn (KeyError (JStr "$schema"))) []).
Proof.
  intros H. unfold validate_file.
  now rewrite (subscript_missing _ _ H).
Qed.

(** *** The first three checks of [validate_ref] *)

Lemma bundle_subscript_hashable (b : dict) (k : json) :
  hashable k = true ->
  (exists v, bundle_subscript b k = Return v) \/
  bundle_subscript b k = Raise (KeyError k).
Proof.
  destruct k; simpl; try discriminate; auto.
  destruct (dict_get b s); eauto.
Qed.

Lemma validate_ref_file_not_found schemas_bundle bundle filename data ptr refkvs target :
  dict_get refkvs "$ref" = Some target ->
  bundle_subscript bundle target = Raise (KeyError target) ->
  validate_ref' schemas_bundle bundle filename data ptr (JObj refkvs) =
  Return (ValidationError REF filename "FILE_NOT_FOUND"
            (ErrExn (KeyError target)) [("ref", target)]).
Proof.
  intros Href Hmiss. unfold validate_ref.
  rewrite (subscript_present _ _ _ Href). simpl. now rewrite Hmiss.
Qed.

Lemma validate_ref_schema_not_found
    schemas_bundle bundle filename datakvs ptr refkvs target ref_data k :
  dict_get refkvs "$ref" = Some target ->
  bundle_subscript bundle target = Return ref_data ->
  (url <- subscript (JObj datakvs) "$schema" ;; bundle_subscript schemas_bundle url)
    = Raise (KeyError k) ->
  validate_ref' schemas_bundle bundle filename (JObj datakvs) ptr (JObj refkvs) =
  Return (ValidationError REF filename "SCHEMA_NOT_FOUND"
            (ErrExn (KeyError k)) [("ref", target)]).
Proof.
  intros Href Hfound Hmiss. unfold validate_ref.
  rewrite (subscript_present _ _ _ Href). simpl bind at 1. rewrite Hfound.
  now rewrite Hmiss.
Qed.

Lemma validate_ref_navigation
    schemas_bundle bundle filename datakvs ptr refkvs target ref_data url schema :
  dict_get refkvs "$ref" = Some target ->
  bundle_subscript bundle target = Return ref_data ->
  dict_get datakvs "$schema" = Some url ->
  bundle_subscript schemas_bundle url = Return schema ->
  validate_ref' schemas_bundle bundle filename (JObj datakvs) ptr (JObj refkvs) =
  match get_schema_info_from_pointer schema ptr with
  | Raise (KeyError k) =>
      Return (ValidationError REF filename "SCHEMA_DEFINITION_NOT_FOUND"
                (ErrExn (KeyError k)) [("ref", target)])
  | Raise e => Raise e
  | Return schema_info =>
      expected_schema <- get_schemaRef schema_info ;;
      match expected_schema with
      | None | Some JNull => Return (ValidationRefOK REF filename target url)
      | Some (JStr expected) =>
          got <- subscript ref_data "$schema" ;;
          if eq_str got expected
          then Return (ValidationRefOK REF filename target url)
          else Return (ValidationError REF filename "INCORRECT_SCHEMA"
                         (IncorrectSchema got expected) [("ref", target)])
      | Some expected =>
          match draft4_validate DefaultResolver expected ref_data with
          | Some JsValidationError =>
              Return (ValidationError REF filename "SCHEMA_REF_VALIDATION_ERROR"
                        (ErrExn JsValidationError) [])
          | Some e => Raise e
          | None => Return (ValidationRefOK REF filename target url)
          end
      end
  end.
Proof.
  intros Href Hfound Hurl Hschema. unfold validate_ref.
  rewrite (subscript_present _ _ _ Href), (subscript_present _ _ _ Hurl).
  simpl bind. rewrite Hfound, Hschema.
  destruct (get_schema_info_from_pointer schema ptr) as [info|e]; [|reflexivity].
  destruct (get_schemaRef info) as [[expected|]|e]; simpl; try reflexivity.
  destruct expected; try reflexivity.
  destruct (subscript ref_data "$schema") as [got|e]; simpl; [|reflexivity].
  now destruct (eq_str got s).
Qed.

(** C1 (amended). For a JSON-object document with no [$schema] key,
    [validate_schema] and [validate_file] return an Error with reason
    MISSING_SCHEMA_URL whatever else the document holds.  [validate_ref], for a
    reference of such a document whose [$ref] value is hashable, returns an
    Error as well, but its reason is FILE_NOT_FOUND when the [$ref] value names
    no document of the data bundle and SCHEMA_NOT_FOUND otherwise. *)
Theorem missing_schema_url_outcomes
    (schemas_bundle bundle : dict) (filename : string) (kvs : dict)
    (Hmissing : dict_has kvs "$schema" = false) :
  validate_schema check_schema draft4_validate http_get
    schemas_bundle filename (JObj kvs) =
  Return (ValidationError SCHEMA filename "MISSING_SCHEMA_URL"
            (ErrExn (KeyError (JStr "$schema"))) [], schemas_bundle) /\
  validate_file draft4_validate schemas_bundle filename (JObj kvs) =
  Return (ValidationError DATA_FILE filename "MISSING_SCHEMA_URL"
            (ErrExn (KeyError (JStr "$schema"))) []) /\
  forall ptr refkvs target,
    dict_get refkvs "$ref" = Some target -> hashable target = true ->
    exists e,
      validate_ref draft4_validate schemas_bundle bundle filename
        (JObj kvs) ptr (JObj refkvs) =
      Return (ValidationError REF filename
                (match bundle_subscript bundle target with
                 | Return _ => "SCHEMA_NOT_FOUND"
                 | Raise _ => "FILE_NOT_FOUND"
                 end) e [("ref", target)]).
Proof.
  split; [now apply validate_schema_missing_url|].
  split; [now apply validate_file_missing_url|].
  intros ptr refkvs target Href Hhash.
  destruct (bundle_subscript_hashable bundle target Hhash) as [[ref_data Hfound]|Hmiss].
  - rewrite Hfound. eexists.
    eapply validate_ref_schema_not_found; [exact Href | exact Hfound |].
    now rewrite (subscript_missing _ _ Hmissing).
  - rewrite Hmiss. eexists. now apply validate_ref_file_not_found.
Qed.



Lemma validate_ref_unhashable_target
    schemas_bundle bundle filename data ptr refkvs target :
  dict_get refkvs "$ref" = Some target ->
  hashable target = false ->
  validate_ref' schemas_bundle bundle filename data ptr (JObj refkvs) =
  Raise TypeError.
Proof.
  intros Href Hh. unfold validate_ref.
  rewrite (subscript_present _ _ _ Href). simpl.
  now rewrite (bundle_subscript_unhashable _ _ Hh).
Qed.



(** *** The [$schemaRef] cross-check *)

Lemma eq_str_true (v : json) (s : string) : eq_str v s = true <-> v = JStr s.
Proof.
  destruct v; simpl; try (split; [discriminate | intros H; inversion H]).
  rewrite String.eqb_eq. split; [now intros -> | now intros [= ->]].
Qed.

(** X19. The [$schemaRef] cross-check of [validate_ref], once the schema
    node at the pointer path is found: with no [$schemaRef] annotation the
    cross-check is skipped and the outcome is RefOk.  With a string annotation
    and a referenced document that declares a [$schema], the outcome is RefOk
    iff that [$schema] equals the annotation exactly, and is an Error with
    reason INCORRECT_SCHEMA otherwise.  With a schema-object annotation, the
    outcome is RefOk iff the engine accepts the referenced document as an
    instance of it, and is an Error with reason SCHEMA_REF_VALIDATION_ERROR
    when the engine rejects it with a validation error. *)
Theorem schemaRef_cross_check
    (schemas_bundle bundle : dict) (filename : string) (datakvs : dict)
    (ptr : string) (refkvs : dict) (target ref_data url schema : json)
    (info : dict)
    (Href : dict_get refkvs "$ref" = Some target)
    (Hfound : bundle_subscript bundle target = Return ref_data)
    (Hurl : dict_get datakvs "$schema" = Some url)
    (Hschema : bundle_subscript schemas_bundle url = Return schema)
    (Hnode : get_schema_info_from_pointer schema ptr = Return (JObj info)) :
  let outcome :=
    validate_ref draft4_validate schemas_bundle bundle filename
      (JObj datakvs) ptr (JObj refkvs) in
  let ref_ok := Return (ValidationRefOK REF filename target url) in
  (dict_get info "$schemaRef" = None -> outcome = ref_ok) /\
  (forall expected got,
      dict_get info "$schemaRef" = Some (JStr expected) ->
      subscript ref_data "$schema" = Return got ->
      (outcome = ref_ok <-> got = JStr expected) /\
      (got <> JStr expected ->
       outcome = Return (ValidationError REF filename "INCORRECT_SCHEMA"
                           (IncorrectSchema got expected) [("ref", target)]))) /\
  (forall expected,
      dict_get info "$schemaRef" = Some (JObj expected) ->
      (outcome = ref_ok <->
       draft4_validate DefaultResolver (JObj expected) ref_data = None) /\
      (draft4_validate DefaultResolver (JObj expected) ref_data
       = Some JsValidationError ->
       outcome = Return (ValidationError REF filename "SCHEMA_REF_VALIDATION_ERROR"
                           (ErrExn JsValidationError) []))).
Proof using draft4_validate.
  intros outcome ref_ok.
  assert (E : outcome =
              (expected_schema <- get_schemaRef (JObj info) ;;
               match expected_schema with
               | None | Some JNull => ref_ok
               | Some (JStr expected) =>
                   got <- subscript ref_data "$schema" ;;
                   if eq_str got expected then ref_ok
                   else Return (ValidationError REF filename "INCORRECT_SCHEMA"
                                  (IncorrectSchema got expected) [("ref", target)])
               | Some expected =>
                   match draft4_validate DefaultResolver expected ref_data with
                   | Some JsValidationError =>
                       Return (ValidationError REF filename
                                 "SCHEMA_REF_VALIDATION_ERROR"
                                 (ErrExn JsValidationError) [])
                   | Some e => Raise e
                   | None => ref_ok
                   end
               end)).
  { subst outcome ref_ok.
    pose proof (validate_ref_navigation _ _ filename _ ptr _ _ _ _ _
                  Href Hfound Hurl Hschema) as E.
    rewrite E, Hnode. reflexivity. }
  rewrite E. clear E. simpl. subst ref_ok. split; [|split].
  - intros Hnone. rewrite Hnone. reflexivity.
  - intros expected got Hexp Hgot. rewrite Hexp, Hgot. simpl.
    destruct (eq_str got expected) eqn:Eq.
    + apply eq_str_true in Eq. split.
      * split; [intros _; exact Eq | reflexivity].
      * intros Hne. contradiction.
    + split; [split; [discriminate|] | reflexivity].
      intros Heq. apply eq_str_true in Heq. rewrite Heq in Eq. discriminate.
  - intros expected Hexp. rewrite Hexp.
    destruct (draft4_validate DefaultResolver (JObj expected) ref_data) as [e|].
    + split.
      * split; [|discriminate]. destruct e; discriminate.
      * intros Hval. injection Hval as Hval. rewrite Hval. reflexivity.
    + split; [split; reflexivity | discriminate].
Qed.

(** *** Resource files *)

Lemma all_in_object (kvs : dict) (keys : list string) :
  all_in (JObj kvs) keys = Return (forallb (dict_has kvs) keys).
Proof.
  induction keys as [|k r IH]; simpl; [reflexivity|].
  destruct (dict_has kvs k); simpl; [exact IH | reflexivity].
Qed.

(** What is left of [validate_resource_paths] once the file has been parsed
    into a dict. *)
Lemma validate_resource_paths_parsed
    schemas_bundle bundle filename data ptr reskvs p kvs :
  dict_get reskvs "path" = Some (JStr p) ->
  str_in (snd (splitext p)) valid_extensions = true ->
  load_resource open_file yaml_load json_load
    ("resources" ++ p)%string (snd (splitext p)) = Return (JObj kvs) ->
  validate_resource_paths' schemas_bundle bundle filename data ptr (JObj reskvs) =
  if negb (dict_has kvs "apiVersion" && dict_has kvs "metadata" && dict_has kvs "kind")
  then Return (ValidationError RESOURCE_PATH filename "INVALID_OBJECT"
                 (ErrText ("Resource file is not a valid kubernetes object: "
                           ++ ("resources" ++ p))%string)
                 [("res", JStr p)])
  else
    match dict_get kvs "kind" with
    | Some k =>
        if (eq_str k "ConfigMap" || eq_str k "Secret") && negb (dict_has kvs "data")
        then Return (ValidationError RESOURCE_PATH filename "INVALID_OBJECT"
                       (ErrText ("ConfigMap or Secret resource file is missing a data field: "
                                 ++ ("resources" ++ p))%string)
                       [("res", JStr p)])
        else (url <- subscript data "$schema" ;;
              Return (ValidationRefOK RESOURCE_PATH filename (JStr p) url))
    | None => Raise (KeyError (JStr "kind"))
    end.
Proof.
  intros Hpath Hext Hparse.
  unfold validate_resource_paths.
  rewrite (subscript_present _ _ _ Hpath). unfold bind at 1. cbv zeta.
  rewrite Hext. simpl negb. cbv iota. rewrite Hparse, all_in_object.
  simpl forallb. rewrite andb_true_r, andb_assoc. simpl bind at 1.
  destruct (dict_has kvs "apiVersion" && dict_has kvs "metadata" && dict_has kvs "kind");
    [|reflexivity].
  simpl negb. cbv iota. unfold subscript at 1.
  destruct (dict_get kvs "kind") as [k|]; [|reflexivity]. simpl bind at 1.
  destruct (eq_str k "ConfigMap" || eq_str k "Secret"); simpl;
    [|reflexivity].
  now destruct (dict_has kvs "data").
Qed.

Lemma ref_ok_has_no_reason {A : Type} (r : result A)
    (k : A -> ValidationResult) :
  (forall a, reason_of (k a) = None) ->
  outcome_reason (a <- r ;; Return (k a)) = None.
Proof.
  intros Hk. destruct r; simpl; auto.
Qed.

(** X20. The structural check of [validate_resource_paths] on a resource
    file that parses into a mapping: the outcome is an Error with reason
    INVALID_OBJECT iff the mapping lacks one of the keys [apiVersion],
    [metadata], [kind], or has [kind] equal to ["ConfigMap"] or ["Secret"]
    and no [data] key.  A ConfigMap with the three keys and a [data] key of
    any shape passes the structural check: the outcome is not INVALID_OBJECT,
    and it is RefOk when the containing document declares a [$schema]. *)
Theorem resource_structural_check
    (schemas_bundle bundle : dict) (filename : string) (data : json)
    (ptr : string) (reskvs : dict) (p : string) (kvs : dict)
    (Hpath : dict_get reskvs "path" = Some (JStr p))
    (Hext : str_in (snd (splitext p)) valid_extensions = true)
    (Hparse : load_resource open_file yaml_load json_load
                ("resources" ++ p)%string (snd (splitext p)) = Return (JObj kvs)) :
  let outcome :=
    validate_resource_paths open_file yaml_load json_load
      schemas_bundle bundle filename data ptr (JObj reskvs) in
  (outcome_reason outcome = Some "INVALID_OBJECT" <->
   dict_has kvs "apiVersion" = false \/ dict_has kvs "metadata" = false \/
   dict_has kvs "kind" = false \/
   ((dict_get kvs "kind" = Some (JStr "ConfigMap") \/
     dict_get kvs "kind" = Some (JStr "Secret")) /\
    dict_has kvs "data" = false)) /\
  (forall shape,
      dict_has kvs "apiVersion" = true -> dict_has kvs "metadata" = true ->
      dict_get kvs "kind" = Some (JStr "ConfigMap") ->
      dict_get kvs "data" = Some shape ->
      outcome_reason outcome <> Some "INVALID_OBJECT" /\
      forall url, subscript data "$schema" = Return url ->
                  outcome = Return (ValidationRefOK RESOURCE_PATH filename (JStr p) url)).
Proof using open_file yaml_load json_load.
  intros outcome. subst outcome.
  pose proof (validate_resource_paths_parsed schemas_bundle bundle filename data
                ptr _ _ _ Hpath Hext Hparse) as E.
  rewrite E. clear E. split.
  - destruct (dict_has kvs "apiVersion") eqn:Ha;
      [|simpl; split; [intros _; left; reflexivity | reflexivity]].
    destruct (dict_has kvs "metadata") eqn:Hm;
      [|simpl; split; [intros _; right; left; reflexivity | reflexivity]].
    destruct (dict_has kvs "kind") eqn:Hk;
      [|simpl; split; [intros _; right; right; left; reflexivity | reflexivity]].
    simpl andb. simpl negb. cbv iota.
    unfold dict_has in Hk. destruct (dict_get kvs "kind") as [k|]; [|discriminate].
    destruct (eq_str k "ConfigMap") eqn:Ecm; [|destruct (eq_str k "Secret") eqn:Es].
    + apply eq_str_true in Ecm. subst k. simpl orb.
      destruct (dict_has kvs "data"); simpl.
      * rewrite ref_ok_has_no_reason by reflexivity.
        split; [discriminate|].
        intros [H|[H|[H|[_ H]]]]; discriminate.
      * split; [|reflexivity]. intros _. do 3 right.
        split; [left|]; reflexivity.
    + apply eq_str_true in Es. subst k. simpl orb.
      destruct (dict_has kvs "data"); simpl.
      * rewrite ref_ok_has_no_reason by reflexivity.
        split; [discriminate|].
        intros [H|[H|[H|[_ H]]]]; discriminate.
      * split; [|reflexivity]. intros _. do 3 right.
        split; [right|]; reflexivity.
    + simpl orb. simpl andb. cbv iota.
      rewrite ref_ok_has_no_reason by reflexivity.
      split; [discriminate|].
      intros [H|[H|[H|[[H|H] _]]]]; try discriminate;
        injection H as H; rewrite H in *; simpl in *; discriminate.
  - intros shape Ha Hm Hk Hd. rewrite Ha, Hm. unfold dict_has. rewrite Hk, Hd.
    simpl. split.
    + rewrite ref_ok_has_no_reason by reflexivity. discriminate.
    + intros url Hu. rewrite Hu. reflexivity.
Qed.

Lemma all_in_container (v : json) (keys : list string) :
  (forall k, exists here, contains v k = Return here) ->
  exists basic,
    all_in v keys = Return basic /\
    (basic = false <-> exists k, In k keys /\ contains v k = Return false).
Proof.
  intros Hc. induction keys as [|k r IH]; simpl.
  - exists true. split; [reflexivity|]. split; [discriminate|].
    intros (k & [] & _).
  - destruct (Hc k) as [here Hk]. rewrite Hk. simpl. destruct here.
    + destruct IH as (basic & E & Hb). exists basic. split; [exact E|].
      rewrite Hb. split.
      * intros (k' & Hin & Hk'). exists k'. split; [now right | exact Hk'].
      * intros (k' & [<-|Hin] & Hk'); [rewrite Hk in Hk'; discriminate|].
        exists k'. split; assumption.
    + exists false. split; [reflexivity|]. split; [|reflexivity].
      intros _. exists k. split; [now left | exact Hk].
Qed.

(** What is left of [validate_resource_paths] once the file has been
    parsed. *)
Lemma validate_resource_paths_loaded
    schemas_bundle bundle filename data ptr reskvs p v :
  dict_get reskvs "path" = Some (JStr p) ->
  str_in (snd (splitext p)) valid_extensions = true ->
  load_resource open_file yaml_load json_load
    ("resources" ++ p)%string (snd (splitext p)) = Return v ->
  validate_resource_paths' schemas_bundle bundle filename data ptr (JObj reskvs) =
  (basic <- all_in v ["apiVersion"; "metadata"; "kind"] ;;
   if negb basic then
     Return (ValidationError RESOURCE_PATH filename "INVALID_OBJECT"
               (ErrText ("Resource file is not a valid kubernetes object: "
                         ++ ("resources" ++ p))%string)
               [("res", JStr p)])
   else
     k <- subscript v "kind" ;;
     needs_data <-
       (if eq_str k "ConfigMap" || eq_str k "Secret"
        then has <- contains v "data" ;; Return (negb has)
        else Return false) ;;
     if needs_data : bool then
       Return (ValidationError RESOURCE_PATH filename "INVALID_OBJECT"
                 (ErrText ("ConfigMap or Secret resource file is missing a data field: "
                           ++ ("resources" ++ p))%string)
                 [("res", JStr p)])
     else
       url <- subscript data "$schema" ;;
       Return (ValidationRefOK RESOURCE_PATH filename (JStr p) url)).
Proof.
  intros Hpath Hext Hparse. unfold validate_resource_paths.
  rewrite (subscript_present _ _ _ Hpath). unfold bind at 1. cbv zeta.
  rewrite Hext. simpl negb. cbv iota. rewrite Hparse. reflexivity.
Qed.

(** X21. A resource file that parses into something that is not a mapping.
    The membership test of the structural check works on lists (element
    membership) and on strings (substring), so such a file gets
    INVALID_OBJECT exactly when it parses into a list or a string in which
    one of the names [apiVersion], [metadata], [kind] does not occur; in every
    other case ([None], a number, a boolean, or a list or string in which the
    three names occur) [validate_resource_paths] raises [TypeError]. *)
Theorem resource_file_that_is_no_mapping
    (schemas_bundle bundle : dict) (filename : string) (data : json)
    (ptr : string) (reskvs : dict) (p : string) (v : json)
    (Hpath : dict_get reskvs "path" = Some (JStr p))
    (Hext : str_in (snd (splitext p)) valid_extensions = true)
    (Hparse : load_resource open_file yaml_load json_load
                ("resources" ++ p)%string (snd (splitext p)) = Return v)
    (Hshape : is_dict v = false) :
  let outcome :=
    validate_resource_paths open_file yaml_load json_load
      schemas_bundle bundle filename data ptr (JObj reskvs) in
  (outcome_reason outcome = Some "INVALID_OBJECT" <->
   exists name,
     In name ["apiVersion"; "metadata"; "kind"] /\
     contains v name = Return false) /\
  (outcome_reason outcome <> Some "INVALID_OBJECT" -> outcome = Raise TypeError) /\
  (outcome_reason outcome = Some "INVALID_OBJECT" ->
   (exists xs, v = JArr xs) \/ (exists text, v = JStr text)).
Proof using open_file yaml_load json_load.
  intros outcome.
  assert (H : (outcome = Raise TypeError /\
               ~ exists name, In name ["apiVersion"; "metadata"; "kind"] /\
                              contains v name = Return false) \/
              (outcome_reason outcome = Some "INVALID_OBJECT" /\
               (exists name, In name ["apiVersion"; "metadata"; "kind"] /\
                             contains v name = Return false) /\
               ((exists xs, v = JArr xs) \/ (exists text, v = JStr text)))).
  { subst outcome.
    rewrite (validate_resource_paths_loaded schemas_bundle bundle filename data
               ptr _ _ _ Hpath Hext Hparse).
    clear Hparse.
    destruct v as [|b|n|text|xs|kvs]; try discriminate Hshape;
      try (left; split; [reflexivity | intros (k & _ & H); discriminate H]).
    - destruct (all_in_container (JStr text) ["apiVersion"; "metadata"; "kind"]
                  (fun k => ex_intro _ _ eq_refl)) as (basic & E & Hb).
      rewrite E. unfold bind. destruct basic; simpl.
      + left. split; [reflexivity|]. intros H. apply Hb in H. discriminate H.
      + right. split; [reflexivity|]. split; [now apply Hb | right; eauto].
    - destruct (all_in_container (JArr xs) ["apiVersion"; "metadata"; "kind"]
                  (fun k => ex_intro _ _ eq_refl)) as (basic & E & Hb).
      rewrite E. unfold bind. destruct basic; simpl.
      + left. split; [reflexivity|]. intros H. apply Hb in H. discriminate H.
      + right. split; [reflexivity|]. split; [now apply Hb | left; eauto]. }
  destruct H as [[E Hno] | [E [Hsome Hshape']]].
  - rewrite E. simpl. split; [|split].
    + split; [discriminate | intros H; now elim Hno].
    + reflexivity.
    + discriminate.
  - split; [|split].
    + split; [intros _; exact Hsome | intros _; exact E].
    + intros H. now elim H.
    + intros _. exact Hshape'.
Qed.

(** On a containing document without [$schema], a resource that passes every
    check makes [validate_resource_paths] raise: the last line reads
    [data['$schema']] outside any handler. *)
Lemma validate_resource_paths_missing_url
    schemas_bundle bundle filename datakvs ptr reskvs p kvs k :
  dict_has datakvs "$schema" = false ->
  dict_get reskvs "path" = Some (JStr p) ->
  str_in (snd (splitext p)) valid_extensions = true ->
  load_resource open_file yaml_load json_load
    ("resources" ++ p)%string (snd (splitext p)) = Return (JObj kvs) ->
  dict_has kvs "apiVersion" = true -> dict_has kvs "metadata" = true ->
  dict_get kvs "kind" = Some k ->
  (eq_str k "ConfigMap" || eq_str k "Secret") && negb (dict_has kvs "data") = false ->
  validate_resource_paths' schemas_bundle bundle filename (JObj datakvs) ptr
    (JObj reskvs) = Raise (KeyError (JStr "$schema")).
Proof.
  intros Hmissing Hpath Hext Hparse Ha Hm Hk Hdata.
  rewrite (validate_resource_paths_parsed _ _ _ _ _ _ _ _ Hpath Hext Hparse).
  assert (Hkind : dict_has kvs "kind" = true) by (unfold dict_has; now rewrite Hk).
  rewrite Ha, Hm, Hkind, Hk, Hdata. cbn [andb negb].
  now rewrite (subscript_missing _ _ Hmissing).
Qed.

(** *** Schema identifiers with and without the leading slash *)

Lemma found_refs_are_ref_objects :
  forall v p o, In (p, o) (ref_sites v) -> is_ref o = true.
Proof.
  induction v as [v IH] using json_children_ind. intros p o.
  rewrite ref_sites_children. destruct (is_ref v) eqn:Hv.
  - intros [E|[]]. now inversion E; subst.
  - intros Hin. apply in_flat_map in Hin. destruct Hin as ([s c] & Hc & Hin).
    simpl in Hin. apply in_map_iff in Hin. destruct Hin as ([p' o'] & E & Hin).
    unfold under in E. simpl in E. injection E as _ <-. eauto.
Qed.

Lemma find_refs_yields_ref_objects (doc : json) (ptr : string) (ref : json) :
  In (ptr, ref) (find_refs doc) ->
  exists refkvs target, ref = JObj refkvs /\ dict_get refkvs "$ref" = Some target.
Proof.
  unfold find_refs. rewrite find_refs_from_sites. simpl.
  intros Hin. apply in_map_iff in Hin. destruct Hin as ([p o] & E & Hin).
  unfold located in E. simpl in E. injection E as _ ->.
  apply found_refs_are_ref_objects in Hin.
  destruct ref as [| | | | |refkvs]; try discriminate. simpl in Hin.
  unfold dict_has in Hin. destruct (dict_get refkvs "$ref") as [target|] eqn:E;
    [eauto | discriminate].
Qed.

(** C10 (amended). Schema-identifier normalisation is applied by
    [validate_file] and not by [validate_ref].  For a data document whose
    [$schema] starts with neither ["http"] nor ["/"], whose slash-prefixed form
    is a key of the schema bundle and whose bare form is not: [validate_file]
    finds the schema (its outcome is never SCHEMA_NOT_FOUND, and it is Ok under
    the slash-prefixed identifier when the document validates), while
    [validate_ref], on every reference discovered in that document, looks up
    the bare value: it returns SCHEMA_NOT_FOUND when the [$ref] value names a
    document of the data bundle.  When the [$ref] value names none, the
    earlier check decides: FILE_NOT_FOUND for a hashable value, and a
    [TypeError] that is raised for a value that is not hashable (a list or a
    dict). *)
Theorem normalization_in_validate_file_only
    (schemas_bundle bundle : dict) (filename : string) (datakvs : dict)
    (url : string) (schema : json)
    (Hurl : dict_get datakvs "$schema" = Some (JStr url))
    (Hhttp : startswith url "http" = false)
    (Hslash : startswith url "/" = false)
    (Hnorm : dict_get schemas_bundle ("/" ++ url)%string = Some schema)
    (Hbare : dict_get schemas_bundle url = None) :
  (outcome_reason (validate_file draft4_validate schemas_bundle filename (JObj datakvs))
   <> Some "SCHEMA_NOT_FOUND" /\
   (draft4_validate (RefResolver ("/" ++ url)%string schema schemas_bundle)
      schema (JObj datakvs) = None ->
    validate_file draft4_validate schemas_bundle filename (JObj datakvs) =
    Return (ValidationOK DATA_FILE filename (JStr ("/" ++ url)%string)))) /\
  forall ptr ref,
    In (ptr, ref) (find_refs (JObj datakvs)) ->
    exists refkvs target,
      ref = JObj refkvs /\ dict_get refkvs "$ref" = Some target /\
      (forall ref_data,
          named bundle target = Some ref_data ->
          validate_ref draft4_validate schemas_bundle bundle filename
            (JObj datakvs) ptr ref =
          Return (ValidationError REF filename "SCHEMA_NOT_FOUND"
                    (ErrExn (KeyError (JStr url))) [("ref", target)])) /\
      (hashable target = true -> named bundle target = None ->
       validate_ref draft4_validate schemas_bundle bundle filename
         (JObj datakvs) ptr ref =
       Return (ValidationError REF filename "FILE_NOT_FOUND"
                 (ErrExn (KeyError target)) [("ref", target)])) /\
      (hashable target = false ->
       validate_ref draft4_validate schemas_bundle bundle filename
         (JObj datakvs) ptr ref = Raise TypeError).
Proof.
  split.
  - unfold validate_file. rewrite (subscript_present _ _ _ Hurl).
    unfold normalize_url. rewrite Hhttp, Hslash. cbn [negb andb].
    unfold bundle_subscript. rewrite Hnorm.
    destruct (draft4_validate _ schema (JObj datakvs)) as [e|].
    + split; [|discriminate]. destruct e; simpl; discriminate.
    + split; [simpl; discriminate | reflexivity].
  - intros ptr ref Hin.
    destruct (find_refs_yields_ref_objects _ _ _ Hin) as (refkvs & target & -> & Href).
    exists refkvs, target.
    split; [reflexivity|]. split; [exact Href|]. split; [|split].
    + intros ref_data Hnamed.
      eapply validate_ref_schema_not_found;
        [exact Href | exact (bundle_subscript_found _ _ _ Hnamed) |].
      rewrite (subscript_present _ _ _ Hurl). simpl. now rewrite Hbare.
    + intros Hh Hnone. apply validate_ref_file_not_found; [exact Href|].
      now apply bundle_subscript_absent.
    + intros Hh. exact (validate_ref_unhashable_target _ _ _ _ _ _ _ Href Hh).
Qed.

End ValidatorFacts.

(** ** Concrete collaborators and bundles *)

(** An engine that accepts every schema and every instance, a network that is
    down, and a resource directory with a single file. *)
Definition accept_all : resolver -> json -> json -> option exn :=
  fun _ _ _ => None.
Definition any_schema : json -> option exn := fun _ => None.
Definition offline : string -> result json := fun _ => Raise RequestError.
Definition one_file (path text : string) : string -> option string :=
  fun p => if p =? path then Some text else None.
Definition parses_to (v : json) : string -> result json := fun _ => Return v.

Definition ann_ref : json := JObj [("$ref", JStr "/users/ann.yml")].

(** A document without [$schema] that refers to a user. *)
Definition app_without_schema : dict := [("owner", ann_ref)].

Definition users : dict :=
  [("/users/ann.yml", JObj [("$schema", JStr "/user-1.yml"); ("name", JStr "Ann")])].

(** A user document that declares no [$schema]. *)
Definition users_without_schema : dict :=
  [("/users/ann.yml", JObj [("name", JStr "Ann")])].

Definition app_schema : json :=
  JObj [("$schema", JStr "/metaschema-1.json");
        ("properties",
         JObj [("owner", JObj [("$schemaRef", JStr "/user-1.yml")])])].

Definition app_schemas : dict :=
  [("/metaschema-1.json", JObj [("$schema", JStr "/metaschema-1.json")]);
   ("/app-1.yml", app_schema)].

Definition app : dict := [("$schema", JStr "/app-1.yml"); ("owner", ann_ref)].



Lemma validate_ref_without_schema_counterexample :
  dict_has app_without_schema "$schema" = false /\
  In ("/owner", ann_ref) (find_refs (JObj app_without_schema)) /\
  validate_ref accept_all app_schemas users "app.yml"
    (JObj app_without_schema) "/owner" ann_ref =
  Return (ValidationError REF "app.yml" "SCHEMA_NOT_FOUND"
            (ErrExn (KeyError (JStr "$schema"))) [("ref", JStr "/users/ann.yml")]) /\
  outcome_reason
    (validate_ref accept_all app_schemas users "app.yml"
       (JObj app_without_schema) "/owner" ann_ref)
  <> Some "MISSING_SCHEMA_URL".
Proof.
  repeat split; try reflexivity; [now left | discriminate].
Qed.

Lemma missing_schema_url_outcomes_witness :
  dict_has app_without_schema "$schema" = false /\
  validate_file accept_all app_schemas "app.yml" (JObj app_without_schema) =
  Return (ValidationError DATA_FILE "app.yml" "MISSING_SCHEMA_URL"
            (ErrExn (KeyError (JStr "$schema"))) []).
Proof.
  split; [reflexivity|].
  exact (proj1 (proj2 (missing_schema_url_outcomes any_schema accept_all offline
                         app_schemas users "app.yml" app_without_schema eq_refl))).
Defined.



(** A user document that declares another schema. *)
Definition users_of_another_schema : dict :=
  [("/users/ann.yml", JObj [("$schema", JStr "/team-1.yml"); ("name", JStr "Ann")])].

(** C2 (the code at the failing input).  The schema node at [/owner] carries
    the string annotation ["/user-1.yml"] and the referenced document
    declares no [$schema], so that its [$schema] does not equal the
    annotation: [validate_ref] raises [KeyError] instead of returning an
    Error with reason INCORRECT_SCHEMA, the outcome it returns when the
    referenced document declares another schema.  Elsewhere the same missing
    key is a typed outcome: [validate_ref] returns SCHEMA_NOT_FOUND when it
    is the containing document that declares no [$schema], and
    [validate_file] returns MISSING_SCHEMA_URL on the referenced document
    itself. *)
Theorem validate_ref_raises_on_referenced_without_schema :
  In ("/owner", ann_ref) (find_refs (JObj app)) /\
  (exists info,
      get_schema_info_from_pointer app_schema "/owner" = Return (JObj info) /\
      dict_get info "$schemaRef" = Some (JStr "/user-1.yml")) /\
  (exists kvs,
      named users_without_schema (JStr "/users/ann.yml") = Some (JObj kvs) /\
      dict_has kvs "$schema" = false) /\
  validate_ref accept_all app_schemas users_without_schema "app.yml"
    (JObj app) "/owner" ann_ref = Raise (KeyError (JStr "$schema")) /\
  validate_ref accept_all app_schemas users_of_another_schema "app.yml"
    (JObj app) "/owner" ann_ref =
  Return (ValidationError REF "app.yml" "INCORRECT_SCHEMA"
            (IncorrectSchema (JStr "/team-1.yml") "/user-1.yml")
            [("ref", JStr "/users/ann.yml")]) /\
  validate_ref accept_all app_schemas users "app.yml"
    (JObj app_without_schema) "/owner" ann_ref =
  Return (ValidationError REF "app.yml" "SCHEMA_NOT_FOUND"
            (ErrExn (KeyError (JStr "$schema"))) [("ref", JStr "/users/ann.yml")]) /\
  validate_file accept_all app_schemas "/users/ann.yml"
    (JObj [("name", JStr "Ann")]) =
  Return (ValidationError DATA_FILE "/users/ann.yml" "MISSING_SCHEMA_URL"
            (ErrExn (KeyError (JStr "$schema"))) []).
Proof.
  split; [now left|].
  split; [eexists; split; reflexivity|].
  split; [eexists; split; reflexivity|].
  repeat split.
Qed.

Lemma schemaRef_cross_check_witness :
  dict_get [("$ref", JStr "/users/ann.yml")] "$ref" = Some (JStr "/users/ann.yml") /\
  validate_ref accept_all app_schemas users "app.yml" (JObj app) "/owner" ann_ref =
  Return (ValidationRefOK REF "app.yml" (JStr "/users/ann.yml") (JStr "/app-1.yml")).
Proof.
  split; [reflexivity|].
  refine (proj2 (proj1 (proj1 (proj2
    (schemaRef_cross_check accept_all app_schemas users "app.yml" app "/owner"
       [("$ref", JStr "/users/ann.yml")] (JStr "/users/ann.yml")
       (JObj [("$schema", JStr "/user-1.yml"); ("name", JStr "Ann")])
       (JStr "/app-1.yml") app_schema [("$schemaRef", JStr "/user-1.yml")]
       eq_refl eq_refl eq_refl eq_refl eq_refl))
    "/user-1.yml" (JStr "/user-1.yml") eq_refl eq_refl)) eq_refl).
Defined.

(** A resource reference and the files it may name. *)
Definition config_res : json :=
  JObj [("provider", JStr "resource"); ("path", JStr "/config/cm.yaml")].

Definition app_with_resource : dict :=
  [("$schema", JStr "/app-1.yml"); ("config", config_res)].

Definition app_with_resource_without_schema : dict := [("config", config_res)].

Definition config_map : dict :=
  [("apiVersion", JStr "v1"); ("kind", JStr "ConfigMap");
   ("metadata", JObj [("name", JStr "cm")]); ("data", JNull)].

Definition deployment : dict :=
  [("apiVersion", JStr "apps/v1"); ("kind", JStr "Deployment");
   ("metadata", JObj [("name", JStr "web")])].

Example splitext_yaml : splitext "/config/cm.yaml" = ("/config/cm", ".yaml").
Proof. reflexivity. Qed.

Example splitext_hidden : splitext "/config/.yaml" = ("/config/.yaml", "").
Proof. reflexivity. Qed.

(** C7 (the code at the failing input).  An empty YAML file parses
    successfully, into [None], which lacks the three keys: the membership
    test of the structural check raises [TypeError] instead of returning an
    Error with reason INVALID_OBJECT.  The check is there to "ensure our
    resource has basic fields common to all kubernetes objects", and it does
    reject the other values that are no such object: an empty mapping, an
    empty list and a plain string get INVALID_OBJECT. *)
Theorem validate_resource_paths_raises_on_empty_file :
  load_resource (one_file "resources/config/cm.yaml" "") (parses_to JNull)
    (parses_to JNull) "resources/config/cm.yaml" ".yaml" = Return JNull /\
  member JNull "apiVersion" = None /\
  validate_resource_paths (one_file "resources/config/cm.yaml" "")
    (parses_to JNull) (parses_to JNull)
    app_schemas [] "app.yml" (JObj app_with_resource) "/config" config_res
  = Raise TypeError /\
  (forall v,
      In v [JObj []; JArr []; JStr "hello"] ->
      validate_resource_paths (one_file "resources/config/cm.yaml" "")
        (parses_to v) (parses_to v)
        app_schemas [] "app.yml" (JObj app_with_resource) "/config" config_res
      = Return (ValidationError RESOURCE_PATH "app.yml" "INVALID_OBJECT"
                  (ErrText "Resource file is not a valid kubernetes object: resources/config/cm.yaml")
                  [("res", JStr "/config/cm.yaml")])).
Proof.
  split; [reflexivity|]. split; [reflexivity|]. split; [reflexivity|].
  intros v [<-|[<-|[<-|[]]]]; reflexivity.
Qed.

Lemma resource_file_that_is_no_mapping_witness :
  is_dict (JArr [JStr "apiVersion"]) = false /\
  outcome_reason
    (validate_resource_paths
       (one_file "resources/config/cm.yaml" "- apiVersion")
       (parses_to (JArr [JStr "apiVersion"])) (parses_to (JArr [JStr "apiVersion"]))
       app_schemas [] "app.yml" (JObj app_with_resource) "/config" config_res)
  = Some "INVALID_OBJECT".
Proof.
  split; [reflexivity|].
  apply (proj2 (proj1
    (resource_file_that_is_no_mapping
       (one_file "resources/config/cm.yaml" "- apiVersion")
       (parses_to (JArr [JStr "apiVersion"])) (parses_to (JArr [JStr "apiVersion"]))
       app_schemas [] "app.yml" (JObj app_with_resource) "/config"
       [("provider", JStr "resource"); ("path", JStr "/config/cm.yaml")]
       "/config/cm.yaml" (JArr [JStr "apiVersion"])
       eq_refl eq_refl eq_refl eq_refl))).
  exists "metadata". split; [right; left; reflexivity | reflexivity].
Defined.

Lemma resource_structural_check_witness :
  load_resource (one_file "resources/config/cm.yaml" "kind: ConfigMap")
    (parses_to (JObj config_map)) (parses_to (JObj config_map))
    "resources/config/cm.yaml" ".yaml" = Return (JObj config_map) /\
  outcome_reason
    (validate_resource_paths (one_file "resources/config/cm.yaml" "kind: ConfigMap")
       (parses_to (JObj config_map)) (parses_to (JObj config_map))
       app_schemas [] "app.yml" (JObj app_with_resource) "/config" config_res)
  <> Some "INVALID_OBJECT".
Proof.
  split; [reflexivity|].
  exact (proj1 (proj2
    (resource_structural_check
       (one_file "resources/config/cm.yaml" "kind: ConfigMap")
       (parses_to (JObj config_map)) (parses_to (JObj config_map))
       app_schemas [] "app.yml" (JObj app_with_resource) "/config"
       [("provider", JStr "resource"); ("path", JStr "/config/cm.yaml")]
       "/config/cm.yaml" config_map eq_refl eq_refl eq_refl)
    JNull eq_refl eq_refl eq_refl eq_refl)).
Defined.

(** C3 (the code at the failing input). A document without [$schema] holds a
    resource reference to a well-formed Kubernetes object; the reference is
    discovered, every check passes, and [validate_resource_paths] raises
    [KeyError] instead of returning an outcome, whereas [validate_file] on the
    same document returns MISSING_SCHEMA_URL. *)
Theorem validate_resource_paths_raises_without_schema :
  dict_has app_with_resource_without_schema "$schema" = false /\
  In ("/config", config_res)
    (find_resource_paths (JObj app_with_resource_without_schema)) /\
  validate_resource_paths (one_file "resources/config/cm.yaml" "kind: Deployment")
    (parses_to (JObj deployment)) (parses_to (JObj deployment))
    app_schemas [] "app.yml" (JObj app_with_resource_without_schema)
    "/config" config_res
  = Raise (KeyError (JStr "$schema")) /\
  validate_resource_paths (one_file "resources/config/cm.yaml" "kind: Deployment")
    (parses_to (JObj deployment)) (parses_to (JObj deployment))
    app_schemas [] "app.yml" (JObj app_with_resource)
    "/config" config_res
  = Return (ValidationRefOK RESOURCE_PATH "app.yml" (JStr "/config/cm.yaml")
              (JStr "/app-1.yml")) /\
  outcome_reason
    (validate_file accept_all app_schemas "app.yml"
       (JObj app_with_resource_without_schema))
  = Some "MISSING_SCHEMA_URL".
Proof.
  split; [reflexivity|]. split; [now left|]. repeat split.
Qed.

(** A document whose [$schema] lacks the leading slash and whose reference
    names a document that is not in the data bundle. *)
Definition bare_app : dict :=
  [("$schema", JStr "app-1.yml"); ("owner", JObj [("$ref", JStr "/users/bob.yml")])].

Lemma bare_schema_missing_target_counterexample :
  dict_get bare_app "$schema" = Some (JStr "app-1.yml") /\
  startswith "app-1.yml" "http" = false /\ startswith "app-1.yml" "/" = false /\
  dict_has app_schemas "/app-1.yml" = true /\
  dict_has app_schemas "app-1.yml" = false /\
  In ("/owner", JObj [("$ref", JStr "/users/bob.yml")]) (find_refs (JObj bare_app)) /\
  validate_ref accept_all app_schemas users "app.yml" (JObj bare_app) "/owner"
    (JObj [("$ref", JStr "/users/bob.yml")]) =
  Return (ValidationError REF "app.yml" "FILE_NOT_FOUND"
            (ErrExn (KeyError (JStr "/users/bob.yml")))
            [("ref", JStr "/users/bob.yml")]) /\
  outcome_reason
    (validate_ref accept_all app_schemas users "app.yml" (JObj bare_app) "/owner"
       (JObj [("$ref", JStr "/users/bob.yml")]))
  <> Some "SCHEMA_NOT_FOUND".
Proof.
  repeat split; try reflexivity; [now left | discriminate].
Qed.

Lemma normalization_in_validate_file_only_witness :
  dict_get bare_app "$schema" = Some (JStr "app-1.yml") /\
  validate_file accept_all app_schemas "app.yml" (JObj bare_app) =
  Return (ValidationOK DATA_FILE "app.yml" (JStr "/app-1.yml")).
Proof.
  split; [reflexivity|].
  exact (proj2 (proj1
    (normalization_in_validate_file_only accept_all app_schemas users "app.yml"
       bare_app "app-1.yml" app_schema eq_refl eq_refl eq_refl eq_refl eq_refl))
    eq_refl).
Defined.

(** ** The orchestrator *)

Lemma dict_set_absent (d : dict) (k : string) (v : json) :
  dict_get d k = None -> dict_set d k v = d ++ [(k, v)].
Proof.
  induction d as [|[k' v'] r IH]; simpl; [reflexivity|].
  destruct (k' =? k); [discriminate|]. intros H. now rewrite IH.
Qed.

Section OrchestratorFacts.

Variable check_schema : json -> option exn.
Variable draft4_validate : resolver -> json -> json -> option exn.
Variable http_get : string -> result json.
Variable open_file : string -> option string.
Variable yaml_load : string -> result json.
Variable json_load : string -> result json.

Local Abbreviation validate_schema' :=
  (validate_schema check_schema draft4_validate http_get).
Local Abbreviation validate_file' := (validate_file draft4_validate).
Local Abbreviation validate_ref' := (validate_ref draft4_validate).
Local Abbreviation validate_resource_paths' :=
  (validate_resource_paths open_file yaml_load json_load).
Local Abbreviation main' :=
  (main check_schema draft4_validate http_get open_file yaml_load json_load).

(** *** The meta-schema of a schema *)



(** What [validate_schema] does once the meta-schema is at hand. *)
Definition schema_outcome (filename : string) (meta_schema_url : json)
    (raised : option exn) : result ValidationResult :=
  match raised with
  | Some JsValidationError =>
      Return (ValidationError SCHEMA filename "VALIDATION_ERROR"
                (ErrExn JsValidationError) [("meta_schema_url", meta_schema_url)])
  | Some JsSchemaError =>
      Return (ValidationError SCHEMA filename "SCHEMA_ERROR"
                (ErrExn JsSchemaError) [("meta_schema_url", meta_schema_url)])
  | Some JsRefResolutionError =>
      Return (ValidationError SCHEMA filename "SCHEMA_ERROR"
                (ErrExn JsRefResolutionError) [("meta_schema_url", meta_schema_url)])
  | Some e => Raise e
  | None => Return (ValidationOK SCHEMA filename meta_schema_url)
  end.

Lemma validate_schema_bundled schemas_bundle filename kvs url meta_schema :
  dict_get kvs "$schema" = Some (JStr url) ->
  dict_get schemas_bundle url = Some meta_schema ->
  validate_schema' schemas_bundle filename (JObj kvs) =
  (o <- schema_outcome filename (JStr url)
          (match check_schema (JObj kvs) with
           | Some e => Some e
           | None => draft4_validate
                       (RefResolver filename (JObj kvs) schemas_bundle)
                       meta_schema (JObj kvs)
           end) ;;
   Return (o, schemas_bundle)).
Proof using.
  intros Hurl Hmeta. unfold validate_schema.
  rewrite (subscript_present _ _ _ Hurl). simpl. unfold dict_has.
  rewrite Hmeta. simpl.
  destruct (match check_schema (JObj kvs) with
            | Some e => Some e
            | None => _
            end) as [[]|]; reflexivity.
Qed.

(** The schema bundle after [validate_schema]: unchanged, or one entry
    longer when a meta-schema was fetched. *)
Lemma validate_schema_bundle_after schemas_bundle filename schema_data o b :
  validate_schema' schemas_bundle filename schema_data = Return (o, b) ->
  b = schemas_bundle \/
  List.length b = S (List.length schemas_bundle).
Proof using.
  unfold validate_schema.
  destruct (subscript schema_data "$schema") as [url|e].
  2:{ destruct e; intros H; inversion H; auto. }
  destruct (bundle_contains schemas_bundle url) as [present|e] eqn:Hin;
    simpl; [|discriminate].
  destruct present.
  - destruct (bundle_subscript schemas_bundle url) as [meta|e]; simpl;
      [|discriminate].
    destruct (match check_schema schema_data with
              | Some e => Some e
              | None => _
              end) as [[]|]; intros H; inversion H; auto.
  - destruct (fetch_schema http_get url) as [meta|e] eqn:Hfetch; simpl;
      [|discriminate].
    assert (Hlen : List.length (bundle_set schemas_bundle url meta)
                   = S (List.length schemas_bundle)).
    { destruct url; simpl in Hfetch; try discriminate. simpl in Hin.
      injection Hin as Hin. unfold dict_has in Hin. simpl.
      destruct (dict_get schemas_bundle s) eqn:Hget; [discriminate|].
      rewrite (dict_set_absent _ _ _ Hget), length_app. simpl. lia. }
    destruct (match check_schema schema_data with
              | Some e => Some e
              | None => _
              end) as [[]|]; intros H; inversion H; subst; auto.
Qed.

(** *** Units and what they produce *)

(** [d] is the record of the outcome the unit returned on [u]. *)
Definition produced {U : Type} (unit : U -> result ValidationResult)
    (u : U) (d : dumped) : Prop :=
  exists o, unit u = Return o /\ d = dump o.

(** The same for a schema, whose validation must leave the bundle as it
    was. *)
Definition produced_schema (schemas_bundle : dict) (item : string * json)
    (d : dumped) : Prop :=
  exists o, validate_schema' schemas_bundle (fst item) (snd item)
            = Return (o, schemas_bundle) /\ d = dump o.

(** The units of a comprehension with two [for]s: every document with every
    pair discovered in it, documents first. *)
Definition nested_units (discover : json -> list (string * json))
    (items : dict) : list (string * json * (string * json)) :=
  flat_map (fun item => map (fun pair => (fst item, snd item, pair))
                          (discover (snd item))) items.

Definition on_file (schemas_bundle : dict) (item : string * json)
  : result ValidationResult :=
  validate_file' schemas_bundle (fst item) (snd item).

Definition on_nested
    (unit : string -> json -> string -> json -> result ValidationResult)
    (u : string * json * (string * json)) : result ValidationResult :=
  unit (fst (fst u)) (snd (fst u)) (fst (snd u)) (snd (snd u)).

Lemma run_schemas_spec (items : dict) :
  forall schemas_bundle acc rs b,
    run_schemas check_schema draft4_validate http_get items schemas_bundle acc
    = Return (rs, b) <->
    b = schemas_bundle /\
    exists new, rs = acc ++ new /\ Forall2 (produced_schema schemas_bundle) items new.
Proof using.
  induction items as [|[filename schema_data] r IH]; intros B acc rs b; simpl.
  - split.
    + intros [= <- <-]. split; [reflexivity|]. exists [].
      now rewrite app_nil_r.
    + intros [-> (new & -> & Hall)]. inversion Hall. now rewrite app_nil_r.
  - destruct (validate_schema' B filename schema_data) as [[o b']|e] eqn:Hv; simpl.
    + destruct (Nat.eqb_spec (List.length b') (List.length B)) as [Hlen|Hlen].
      * assert (b' = B) as ->.
        { destruct (validate_schema_bundle_after _ _ _ _ _ Hv); [assumption | lia]. }
        rewrite IH. split.
        -- intros [-> (new & -> & Hall)]. split; [reflexivity|].
           exists (dump o :: new). rewrite <- app_assoc. split; [reflexivity|].
           constructor; [|exact Hall]. exists o. auto.
        -- intros [-> (new & -> & Hall)]. split; [reflexivity|].
           inversion Hall as [|? d ? new' (o' & Ho' & ->) Hall']; subst.
           simpl in Ho'. rewrite Hv in Ho'. injection Ho' as <-.
           exists new'. rewrite <- app_assoc. auto.
      * split; [discriminate|]. intros [-> (new & -> & Hall)].
        inversion Hall as [|? d ? new' (o' & Ho' & ->) Hall']; subst.
        simpl in Ho'. rewrite Hv in Ho'. injection Ho' as _ ->. now elim Hlen.
    + split; [discriminate|]. intros [-> (new & -> & Hall)].
      inversion Hall as [|? d ? new' (o' & Ho' & ->) Hall']; subst.
      simpl in Ho'. rewrite Hv in Ho'. discriminate.
Qed.

Lemma run_files_spec (schemas_bundle : dict) (items : dict) :
  forall rf,
    run_files draft4_validate schemas_bundle items = Return rf <->
    Forall2 (produced (on_file schemas_bundle)) items rf.
Proof using.
  induction items as [|[filename data] r IH]; intros rf; simpl.
  - split; [intros [= <-]; constructor | intros H; now inversion H].
  - destruct (validate_file' schemas_bundle filename data) as [o|e] eqn:Hv; simpl.
    + destruct (run_files draft4_validate schemas_bundle r) as [rest|e] eqn:Hr; simpl.
      * split.
        -- intros [= <-]. constructor; [exists o; auto | now apply IH].
        -- intros H. inversion H as [|? d ? rest' (o' & Ho' & ->) Hall]; subst.
           unfold on_file in Ho'. simpl in Ho'. rewrite Hv in Ho'.
           injection Ho' as <-. apply IH in Hall. now injection Hall as <-.
      * split; [discriminate|]. intros H.
        inversion H as [|? d ? rest' _ Hall]; subst.
        apply IH in Hall. discriminate.
    + split; [discriminate|]. intros H.
      inversion H as [|? d ? rest' (o' & Ho' & _) _]; subst.
      unfold on_file in Ho'. simpl in Ho'. rewrite Hv in Ho'. discriminate.
Qed.

Lemma run_pairs_spec (unit : string -> json -> result ValidationResult)
    (pairs : list (string * json)) :
  forall rs,
    run_pairs unit pairs = Return rs <->
    Forall2 (produced (fun pair => unit (fst pair) (snd pair))) pairs rs.
Proof using.
  induction pairs as [|[ptr obj] r IH]; intros rs; simpl.
  - split; [intros [= <-]; constructor | intros H; now inversion H].
  - destruct (unit ptr obj) as [o|e] eqn:Hv; simpl.
    + destruct (run_pairs unit r) as [rest|e] eqn:Hr; simpl.
      * split.
        -- intros [= <-]. constructor; [exists o; auto | now apply IH].
        -- intros H. inversion H as [|? d ? rest' (o' & Ho' & ->) Hall]; subst.
           simpl in Ho'. rewrite Hv in Ho'.
           injection Ho' as <-. apply IH in Hall. now injection Hall as <-.
      * split; [discriminate|]. intros H.
        inversion H as [|? d ? rest' _ Hall]; subst.
        apply IH in Hall. discriminate.
    + split; [discriminate|]. intros H.
      inversion H as [|? d ? rest' (o' & Ho' & _) _]; subst.
      simpl in Ho'. rewrite Hv in Ho'. discriminate.
Qed.

Lemma Forall2_map_left {A B C : Type} (R : B -> C -> Prop) (g : A -> B)
    (l : list A) (l' : list C) :
  Forall2 R (map g l) l' <-> Forall2 (fun x => R (g x)) l l'.
Proof using.
  revert l'. induction l as [|x r IH]; intros l'; simpl.
  - split; intros H; inversion H; constructor.
  - split; intros H; inversion H; subst; constructor; auto; now apply IH.
Qed.

Lemma run_pairs_nested
    (unit : string -> json -> string -> json -> result ValidationResult)
    (filename : string) (data : json) (pairs : list (string * json))
    (rs : list dumped) :
  run_pairs (unit filename data) pairs = Return rs <->
  Forall2 (produced (on_nested unit))
    (map (fun pair => (filename, data, pair)) pairs) rs.
Proof using.
  rewrite run_pairs_spec.
  rewrite (Forall2_map_left (produced (on_nested unit))
             (fun pair => (filename, data, pair))).
  reflexivity.
Qed.

Lemma run_nested_spec (discover : json -> list (string * json))
    (unit : string -> json -> string -> json -> result ValidationResult)
    (items : dict) :
  forall rs,
    run_nested discover unit items = Return rs <->
    Forall2 (produced (on_nested unit)) (nested_units discover items) rs.
Proof using.
  induction items as [|[filename data] r IH]; intros rs; simpl.
  - split; [intros [= <-]; constructor | intros H; now inversion H].
  - destruct (run_pairs (unit filename data) (discover data)) as [here|e] eqn:Hp;
      simpl.
    + destruct (run_nested discover unit r) as [rest|e] eqn:Hr; simpl.
      * split.
        -- intros [= <-]. apply Forall2_app; [|now apply IH].
           now apply run_pairs_nested.
        -- intros H. apply Forall2_app_inv_l in H.
           destruct H as (here' & rest' & Hh & Hrest & ->).
           apply run_pairs_nested in Hh.
           rewrite Hh in Hp. injection Hp as ->.
           apply IH in Hrest. now injection Hrest as ->.
      * split; [discriminate|]. intros H. apply Forall2_app_inv_l in H.
        destruct H as (here' & rest' & _ & Hrest & _).
        apply IH in Hrest. discriminate.
    + split; [discriminate|]. intros H. apply Forall2_app_inv_l in H.
      destruct H as (here' & rest' & Hh & _ & _).
      apply run_pairs_nested in Hh.
      rewrite Hh in Hp. discriminate.
Qed.

(** A completed run, group by group. *)
Definition aggregate (data_bundle schemas_bundle : dict)
    (rs rf rr rp : list dumped) : Prop :=
  Forall2 (produced_schema schemas_bundle) schemas_bundle rs /\
  Forall2 (produced (on_file schemas_bundle)) data_bundle rf /\
  Forall2 (produced (on_nested (validate_ref' schemas_bundle data_bundle)))
    (nested_units find_refs data_bundle) rr /\
  Forall2 (produced (on_nested
                       (validate_resource_paths' schemas_bundle data_bundle)))
    (nested_units find_resource_paths data_bundle) rp.

Lemma main_spec (only_errors : bool) (data_bundle schemas_bundle : dict) (r : run) :
  main' only_errors data_bundle schemas_bundle = Return r <->
  exists rs rf rr rp,
    aggregate data_bundle schemas_bundle rs rf rr rp /\
    r = Run (rs ++ rf ++ rr ++ rp)
            (filter is_error (rs ++ rf ++ rr ++ rp))
            (if only_errors then filter is_error (rs ++ rf ++ rr ++ rp)
             else rs ++ rf ++ rr ++ rp)
            (if (0 <? List.length (filter is_error (rs ++ rf ++ rr ++ rp)))%nat
             then 1%Z else 0%Z).
Proof using.
  unfold main, aggregate. split.
  - destruct (run_schemas _ _ _ schemas_bundle schemas_bundle []) as [[rs b]|e] eqn:Hs;
      simpl; [|discriminate].
    apply run_schemas_spec in Hs. destruct Hs as [-> (new & -> & Hs)]. simpl.
    destruct (run_files _ schemas_bundle data_bundle) as [rf|e] eqn:Hf;
      simpl; [|discriminate].
    destruct (run_nested find_refs _ data_bundle) as [rr|e] eqn:Hr;
      simpl; [|discriminate].
    destruct (run_nested find_resource_paths _ data_bundle) as [rp|e] eqn:Hp;
      simpl; [|discriminate].
    intros [= <-]. exists new, rf, rr, rp.
    apply run_files_spec in Hf. apply run_nested_spec in Hr, Hp. auto.
  - intros (rs & rf & rr & rp & (Hs & Hf & Hr & Hp) & ->).
    assert (Hs' : run_schemas check_schema draft4_validate http_get
                    schemas_bundle schemas_bundle [] = Return (rs, schemas_bundle)).
    { apply run_schemas_spec. split; [reflexivity|]. exists rs. auto. }
    rewrite Hs'. simpl.
    apply run_files_spec in Hf. apply run_nested_spec in Hr, Hp.
    rewrite Hf. simpl. rewrite Hr. simpl. rewrite Hp. reflexivity.
Qed.

(** *** Every outcome carries the kind and the file name of its unit *)

Ltac split_outcome :=
  unfold bind; cbv zeta;
  repeat match goal with
         | |- context [match ?x with _ => _ end] => destruct x
         end;
  try discriminate;
  let H := fresh in intros H; inversion H; subst; simpl; auto.

Definition labelled (kind : ValidatedFileKind) (filename : string)
    (o : ValidationResult) : Prop :=
  kind_of o = kind /\ filename_of o = filename.

Lemma validate_schema_labelled schemas_bundle filename schema_data o b :
  validate_schema' schemas_bundle filename schema_data = Return (o, b) ->
  labelled SCHEMA filename o.
Proof using.
  unfold validate_schema, labelled. split_outcome.
Qed.

Lemma validate_file_labelled schemas_bundle filename data o :
  validate_file' schemas_bundle filename data = Return o ->
  labelled DATA_FILE filename o.
Proof using.
  unfold validate_file, labelled. split_outcome.
Qed.

Lemma validate_ref_labelled schemas_bundle bundle filename data ptr ref o :
  validate_ref' schemas_bundle bundle filename data ptr ref = Return o ->
  labelled REF filename o.
Proof using.
  unfold validate_ref, labelled. split_outcome.
Qed.

Lemma validate_resource_paths_labelled
    schemas_bundle bundle filename data ptr res o :
  validate_resource_paths' schemas_bundle bundle filename data ptr res = Return o ->
  labelled RESOURCE_PATH filename o.
Proof using.
  unfold validate_resource_paths, labelled. split_outcome.
Qed.

(** What the record of an outcome shows: the name of its kind, its file
    name and its status. *)
Definition shown (o : ValidationResult) (d : dumped) : Prop :=
  d_kind d = match kind_of o with
             | SCHEMA => "SCHEMA"
             | DATA_FILE => "FILE"
             | REF => "REF"
             | RESOURCE_PATH => "RESOURCE_PATH"
             end /\
  d_filename d = filename_of o /\
  d_status d = (if status o then "OK" else "ERROR").

Lemma dump_shown (o : ValidationResult) : shown o (dump o).
Proof using.
  destruct o as [[] ? ?|[] ? ? ?|[] ? ? ? ?]; repeat split.
Qed.

Lemma dump_status (o : ValidationResult) :
  d_status (dump o) = "ERROR" <-> status o = false.
Proof using.
  destruct o; simpl; split; intros H; try discriminate; reflexivity.
Qed.

Lemma is_error_dump (o : ValidationResult) :
  is_error (dump o) = negb (status o).
Proof using.
  now destruct o.
Qed.

Lemma filter_is_error_dump (os : list ValidationResult) :
  filter is_error (map dump os) =
  map dump (filter (fun o => negb (status o)) os).
Proof using.
  induction os as [|o r IH]; simpl; [reflexivity|].
  rewrite is_error_dump. destruct (negb (status o)); simpl; now rewrite IH.
Qed.

Lemma map_dump_shown (os : list ValidationResult) :
  Forall2 shown os (map dump os).
Proof using.
  induction os as [|o r IH]; simpl; constructor; [apply dump_shown | exact IH].
Qed.

Lemma Forall2_weaken {A B : Type} (R R' : A -> B -> Prop) (l : list A)
    (l' : list B) :
  (forall a b, R a b -> R' a b) -> Forall2 R l l' -> Forall2 R' l l'.
Proof using.
  intros Himp. induction 1; constructor; auto.
Qed.

(** The outcomes behind the records of a group. *)
Lemma outcomes_of_records {U : Type} (R : U -> ValidationResult -> Prop)
    (l : list U) (rs : list dumped) :
  Forall2 (fun u d => exists o, R u o /\ d = dump o) l rs ->
  exists os, Forall2 R l os /\ rs = map dump os.
Proof using.
  induction 1 as [|u d l rs (o & Ho & ->) _ (os & Hos & ->)].
  - exists []. split; [constructor | reflexivity].
  - exists (o :: os). split; [now constructor | reflexivity].
Qed.

(** C8 (amended).  When the orchestrator completes, its aggregate is the
    concatenation of four groups in this order: the outcomes of
    [validate_schema] on the schemas, of [validate_file] on the documents, of
    [validate_ref] on the discovered references and of
    [validate_resource_paths] on the discovered resource paths, each group in
    bundle iteration order (and, inside a document, discovery order), every
    record showing the kind of its group, the file name of its unit and the
    status of its outcome.  The error list holds the records of the outcomes
    whose status is ERROR, in the same order, and the process exits with a
    non-zero status iff one of the outcomes has status ERROR.  When a
    validator raises on a unit, the orchestrator produces no aggregate: the
    exception leaves [main] and the process exits with a non-zero status
    although no outcome with status ERROR has been aggregated. *)
Theorem main_aggregates_in_order
    (only_errors : bool) (data_bundle schemas_bundle : dict) :
  let outcome :=
    main check_schema draft4_validate http_get open_file yaml_load json_load
      only_errors data_bundle schemas_bundle in
  (forall r,
      outcome = Return r ->
      exists os_s os_f os_r os_p : list ValidationResult,
        Forall2 (fun item o =>
                   validate_schema check_schema draft4_validate http_get
                     schemas_bundle (fst item) (snd item)
                   = Return (o, schemas_bundle) /\
                   kind_of o = SCHEMA /\ filename_of o = fst item)
          schemas_bundle os_s /\
        Forall2 (fun item o =>
                   validate_file draft4_validate schemas_bundle
                     (fst item) (snd item) = Return o /\
                   kind_of o = DATA_FILE /\ filename_of o = fst item)
          data_bundle os_f /\
        Forall2 (fun u o =>
                   validate_ref draft4_validate schemas_bundle data_bundle
                     (fst (fst u)) (snd (fst u)) (fst (snd u)) (snd (snd u))
                   = Return o /\
                   kind_of o = REF /\ filename_of o = fst (fst u))
          (nested_units find_refs data_bundle) os_r /\
        Forall2 (fun u o =>
                   validate_resource_paths open_file yaml_load json_load
                     schemas_bundle data_bundle
                     (fst (fst u)) (snd (fst u)) (fst (snd u)) (snd (snd u))
                   = Return o /\
                   kind_of o = RESOURCE_PATH /\ filename_of o = fst (fst u))
          (nested_units find_resource_paths data_bundle) os_p /\
        let outcomes := os_s ++ os_f ++ os_r ++ os_p in
        let failed := filter (fun o => negb (status o)) outcomes in
        results r = map dump outcomes /\
        Forall2 shown outcomes (results r) /\
        errors r = map dump failed /\
        Forall2 shown failed (errors r) /\
        output r = (if only_errors then errors r else results r) /\
        (exit_status r <> 0%Z <-> exists o, In o outcomes /\ status o = false) /\
        process_exit outcome = exit_status r) /\
  (forall e, outcome = Raise e -> process_exit outcome <> 0%Z).
Proof using.
  intros outcome. split.
  - intros r Hrun. unfold process_exit. rewrite Hrun. subst outcome.
    apply main_spec in Hrun.
    destruct Hrun as (rs & rf & rr & rp & (Hs & Hf & Hr & Hp) & ->).
    apply outcomes_of_records in Hs, Hf, Hr, Hp.
    destruct Hs as (os_s & Hs & ->). destruct Hf as (os_f & Hf & ->).
    destruct Hr as (os_r & Hr & ->). destruct Hp as (os_p & Hp & ->).
    exists os_s, os_f, os_r, os_p.
    split; [|split; [|split; [|split]]].
    + eapply Forall2_weaken; [|exact Hs]. intros item o Ho. split; [exact Ho|].
      exact (validate_schema_labelled _ _ _ _ _ Ho).
    + eapply Forall2_weaken; [|exact Hf]. intros item o Ho. split; [exact Ho|].
      exact (validate_file_labelled _ _ _ _ Ho).
    + eapply Forall2_weaken; [|exact Hr]. intros u o Ho. split; [exact Ho|].
      exact (validate_ref_labelled _ _ _ _ _ _ _ Ho).
    + eapply Forall2_weaken; [|exact Hp]. intros u o Ho. split; [exact Ho|].
      unfold on_nested in Ho.
      exact (validate_resource_paths_labelled _ _ _ _ _ _ _ Ho).
    + cbv zeta. simpl results. simpl errors. simpl output. simpl exit_status.
      rewrite <- !map_app, filter_is_error_dump.
      split; [reflexivity|]. split; [apply map_dump_shown|].
      split; [reflexivity|]. split; [apply map_dump_shown|].
      split; [reflexivity|]. split; [|reflexivity].
      rewrite length_map.
      destruct (filter (fun o => negb (status o)) (os_s ++ os_f ++ os_r ++ os_p))
        as [|o l] eqn:E; simpl.
      * split; [intros H; now elim H|]. intros (o & Hin & Ho).
        assert (Hf' : In o (filter (fun o => negb (status o))
                              (os_s ++ os_f ++ os_r ++ os_p)))
          by (apply filter_In; split; [exact Hin | now rewrite Ho]).
        rewrite E in Hf'. elim Hf'.
      * split; [|discriminate]. intros _. exists o.
        assert (Hf' : In o (filter (fun o => negb (status o))
                              (os_s ++ os_f ++ os_r ++ os_p)))
          by (rewrite E; now left).
        apply filter_In in Hf'. destruct Hf' as [Hin Ho].
        split; [exact Hin|]. now destruct (status o).
  - intros e Hrun. unfold process_exit. rewrite Hrun. discriminate.
Qed.

(** *** The exceptions the validators convert, and the ones they let through *)

(** The [except] clauses around the engine in [validate_schema] and in
    [validate_file], and around the loading of a resource file. *)
Definition schema_handlers : list (exn * string) :=
  [(JsValidationError, "VALIDATION_ERROR"); (JsSchemaError, "SCHEMA_ERROR");
   (JsRefResolutionError, "SCHEMA_ERROR")].

Definition file_handlers : list (exn * string) :=
  [(JsValidationError, "VALIDATION_ERROR"); (JsSchemaError, "SCHEMA_ERROR");
   (TypeError, "SCHEMA_TYPE_ERROR")].


Definition unhandled (handlers : list (exn * string)) (e : exn) : Prop :=
  forall reason, ~ In (e, reason) handlers.





Lemma validate_file_schema_not_found schemas_bundle filename kvs url :
  dict_get kvs "$schema" = Some (JStr url) ->
  dict_get schemas_bundle (normalize_url url) = None ->
  validate_file' schemas_bundle filename (JObj kvs) =
  Return (ValidationError DATA_FILE filename "SCHEMA_NOT_FOUND"
            (ErrExn (KeyError (JStr (normalize_url url))))
            [("schema_url", JStr (normalize_url url))]).
Proof using.
  intros Hurl Hschema. unfold validate_file.
  rewrite (subscript_present _ _ _ Hurl). unfold bundle_subscript.
  now rewrite Hschema.
Qed.


Lemma validate_resource_paths_extension
    schemas_bundle bundle filename data ptr reskvs p :
  dict_get reskvs "path" = Some (JStr p) ->
  str_in (snd (splitext p)) valid_extensions = false ->
  outcome_reason
    (validate_resource_paths' schemas_bundle bundle filename data ptr (JObj reskvs))
  = Some "MISSING_EXTENSION".
Proof using.
  intros Hpath Hext. unfold validate_resource_paths.
  rewrite (subscript_present _ _ _ Hpath). unfold bind at 1. cbv zeta.
  now rewrite Hext.
Qed.

(** *** What stops a run and what does not *)

Lemma Forall2_returns {U : Type} (R : U -> dumped -> Prop) (l : list U)
    (rs : list dumped) :
  Forall2 R l rs -> forall u, In u l -> exists d, R u d.
Proof using.
  induction 1 as [|u d l rs Hu _ IH]; intros u' [].
  - subst. eauto.
  - auto.
Qed.









End OrchestratorFacts.

(** ** Concrete runs *)

(** Two applications and a user; the second application refers to a user
    that is not in the bundle. *)
Definition sample_data : dict :=
  [("/apps/web.yml",
    JObj [("$schema", JStr "/app-1.yml"); ("owner", ann_ref); ("config", config_res)]);
   ("/apps/db.yml",
    JObj [("$schema", JStr "/app-1.yml");
          ("owner", JObj [("$ref", JStr "/users/bob.yml")])]);
   ("/users/ann.yml",
    JObj [("$schema", JStr "/user-1.yml"); ("name", JStr "Ann")])].

Definition sample_schemas : dict :=
  app_schemas ++ [("/user-1.yml", JObj [("$schema", JStr "/metaschema-1.json")])].

Definition sample_main : result run :=
  main any_schema accept_all offline
    (one_file "resources/config/cm.yaml" "kind: ConfigMap")
    (parses_to (JObj config_map)) (parses_to (JObj config_map))
    false sample_data sample_schemas.

Example sample_main_records :
  match sample_main with
  | Return r =>
      map (fun d => (d_kind d, d_filename d, d_status d, d_reason d)) (results r) =
      [("SCHEMA", "/metaschema-1.json", "OK", None);
       ("SCHEMA", "/app-1.yml", "OK", None);
       ("SCHEMA", "/user-1.yml", "OK", None);
       ("FILE", "/apps/web.yml", "OK", None);
       ("FILE", "/apps/db.yml", "OK", None);
       ("FILE", "/users/ann.yml", "OK", None);
       ("REF", "/apps/web.yml", "OK", None);
       ("REF", "/apps/db.yml", "ERROR", Some "FILE_NOT_FOUND");
       ("RESOURCE_PATH", "/apps/web.yml", "OK", None)] /\
      exit_status r = 1%Z
  | Raise _ => False
  end.
Proof. vm_compute. split; reflexivity. Qed.

Lemma main_aggregates_in_order_witness :
  exists r,
    sample_main = Return r /\
    exists outcomes,
      results r = map dump outcomes /\
      (exit_status r <> 0%Z <-> exists o, In o outcomes /\ status o = false) /\
      process_exit sample_main = exit_status r.
Proof.
  assert (E : exists r, sample_main = Return r)
    by (eexists; vm_compute; reflexivity).
  destruct E as [r E]. exists r. split; [exact E|].
  destruct (proj1
              (main_aggregates_in_order any_schema accept_all offline
                 (one_file "resources/config/cm.yaml" "kind: ConfigMap")
                 (parses_to (JObj config_map)) (parses_to (JObj config_map))
                 false sample_data sample_schemas) r E)
    as (os_s & os_f & os_r & os_p & _ & _ & _ & _ & H).
  destruct H as (Hres & _ & _ & _ & _ & Hexit & Hproc).
  exists (os_s ++ os_f ++ os_r ++ os_p).
  split; [exact Hres|]. split; [exact Hexit | exact Hproc].
Defined.

(** A schema bundle whose second schema names a meta-schema that is neither
    in the bundle nor on the network. *)
Definition aborting_schemas : dict :=
  [("/metaschema-1.json", JObj [("$schema", JStr "/metaschema-1.json")]);
   ("/app-1.yml", JObj [("$schema", JStr "/missing-1.json")])].

(** C8 (as stated, refuted).  The first schema is valid and the second one
    makes [validate_schema] raise: the run aborts, the process exits with a
    non-zero status, and the only outcome there has been has status OK. *)
Lemma aborted_run_exit_counterexample :
  validate_schema any_schema accept_all offline aborting_schemas
    "/metaschema-1.json" (JObj [("$schema", JStr "/metaschema-1.json")])
  = Return (ValidationOK SCHEMA "/metaschema-1.json" (JStr "/metaschema-1.json"),
            aborting_schemas) /\
  status (ValidationOK SCHEMA "/metaschema-1.json" (JStr "/metaschema-1.json"))
  = true /\
  validate_schema any_schema accept_all offline aborting_schemas
    "/app-1.yml" (JObj [("$schema", JStr "/missing-1.json")])
  = Raise (MissingSchemaFile "/missing-1.json") /\
  main any_schema accept_all offline (fun _ => None) (parses_to JNull)
    (parses_to JNull) false [] aborting_schemas
  = Raise (MissingSchemaFile "/missing-1.json") /\
  process_exit
    (main any_schema accept_all offline (fun _ => None) (parses_to JNull)
       (parses_to JNull) false [] aborting_schemas) <> 0%Z.
Proof.
  repeat split. discriminate.
Qed.




(** * Further properties *)


(** ** The two walkers share one traversal *)

Section Walk.

(** What makes an object a site: the key [$ref] for [find_refs], the
    provider and path of a resource for [find_resource_paths]. *)
Variable trigger : dict -> bool.

Fixpoint walk_from (obj : json) (ptr : string)
    (found : list (string * json)) : list (string * json) :=
  match obj with
  | JObj kvs =>
      if trigger kvs then found ++ [(ptr, obj)]
      else
        (fix items (l : dict) (found : list (string * json)) :=
           match l with
           | [] => found
           | (key, item) :: r =>
               items r (walk_from item (join_ptr ptr key) found)
           end) kvs found
  | JArr xs =>
      (fix enumerate (l : list json) (index : nat)
           (found : list (string * json)) :=
         match l with
         | [] => found
         | item :: r =>
             enumerate r (S index)
               (walk_from item (join_ptr ptr (str_of_index index)) found)
         end) xs 0 found
  | _ => found
  end.

Definition triggers (v : json) : bool :=
  match v with
  | JObj kvs => trigger kvs
  | _ => false
  end.

(** [o] sits at [p] in [doc], triggers, and lies inside no other object that
    triggers. *)
Definition outermost_site (doc : json) (p : path) (o : json) : Prop :=
  value_at doc p = Some o /\ triggers o = true /\
  forall q r above, p = q ++ r -> r <> [] ->
                    value_at doc q = Some above -> triggers above = false.

Fixpoint sites_of (v : json) : list (path * json) :=
  match v with
  | JObj kvs =>
      if trigger kvs then [([], v)]
      else flat_map (fun kv => map (under (Key (fst kv))) (sites_of (snd kv))) kvs
  | JArr xs =>
      (fix enumerate (index : nat) (l : list json) : list (path * json) :=
         match l with
         | [] => []
         | item :: r =>
             map (under (Index index)) (sites_of item) ++ enumerate (S index) r
         end) 0 xs
  | _ => []
  end.

Lemma walk_from_sites (v : json) :
  forall ptr found,
    walk_from v ptr found = found ++ map (located ptr) (sites_of v).
Proof using.
  induction v as [| | | |xs IH|kvs IH] using json_deep_ind; intros ptr found;
    try (simpl; now rewrite app_nil_r).
  - simpl. generalize 0 as index. revert found.
    induction IH as [|item r Hitem _ IHr]; intros found index.
    + now rewrite app_nil_r.
    + rewrite IHr, Hitem, map_app, located_under, <- app_assoc. reflexivity.
  - simpl. destruct (trigger kvs); [reflexivity|].
    revert found. induction IH as [|[key item] r Hitem _ IHr]; intros found.
    + now rewrite app_nil_r.
    + simpl in *. rewrite IHr, Hitem, map_app, located_under, <- app_assoc.
      reflexivity.
Qed.

Lemma sites_of_children (v : json) :
  sites_of v =
  if triggers v then [([], v)]
  else flat_map (fun sc => map (under (fst sc)) (sites_of (snd sc))) (children v).
Proof using.
  destruct v as [| | | |xs|kvs]; try reflexivity.
  - simpl. generalize 0 as index.
    induction xs as [|item r IH]; intros index; simpl; [reflexivity|].
    now rewrite IH.
  - simpl. destruct (trigger kvs); [reflexivity|].
    induction kvs as [|[key item] r IH]; simpl; [reflexivity|].
    now rewrite IH.
Qed.

Lemma outermost_site_here (v : json) (p : path) (o : json) :
  triggers v = true -> (outermost_site v p o <-> p = [] /\ o = v).
Proof using.
  intros Hv. split.
  - intros (Hat & _ & Habove). destruct p as [|s p'].
    + simpl in Hat. injection Hat as <-. auto.
    + specialize (Habove [] (s :: p') v eq_refl ltac:(discriminate) eq_refl).
      rewrite Hv in Habove. discriminate.
  - intros [-> ->]. split; [reflexivity|]. split; [exact Hv|].
    intros q r above E Hr. symmetry in E. apply app_eq_nil in E.
    destruct E as [_ ->]. now elim Hr.
Qed.

Lemma outermost_site_below (v : json) (p : path) (o : json) :
  triggers v = false ->
  (outermost_site v p o <->
   exists s p' c, p = s :: p' /\ child v s = Some c /\ outermost_site c p' o).
Proof using.
  intros Hv. split.
  - intros (Hat & Ho & Habove). destruct p as [|s p'].
    + simpl in Hat. injection Hat as <-. rewrite Hv in Ho. discriminate.
    + simpl in Hat. destruct (child v s) as [c|] eqn:Hc; [|discriminate].
      exists s, p', c. split; [reflexivity|]. split; [exact Hc|].
      split; [exact Hat|]. split; [exact Ho|].
      intros q r above E Hr Hq. apply (Habove (s :: q) r above).
      * simpl. now rewrite E.
      * exact Hr.
      * simpl. now rewrite Hc.
  - intros (s & p' & c & -> & Hc & Hat & Ho & Habove).
    split; [simpl; now rewrite Hc|]. split; [exact Ho|].
    intros q r above E Hr Hq. destruct q as [|s' q'].
    + simpl in Hq. injection Hq as <-. exact Hv.
    + simpl in E. injection E as <- E. simpl in Hq. rewrite Hc in Hq.
      exact (Habove q' r above E Hr Hq).
Qed.

Lemma sites_of_sound_complete :
  forall v, wf_json v ->
            forall p o, In (p, o) (sites_of v) <-> outermost_site v p o.
Proof using.
  induction v as [v IH] using json_children_ind. intros Hwf p o.
  rewrite sites_of_children. destruct (triggers v) eqn:Hv.
  - rewrite outermost_site_here by exact Hv. simpl. split.
    + intros [E|[]]. injection E as <- <-. auto.
    + intros [-> ->]. now left.
  - rewrite outermost_site_below by exact Hv. rewrite in_flat_map. split.
    + intros ([s c] & Hin & Hsite). simpl in Hsite.
      apply in_map_iff in Hsite. destruct Hsite as ([p' o'] & E & Hsite).
      unfold under in E. simpl in E. injection E as Ep Eo. subst p o.
      exists s, p', c.
      assert (Hc := Hin). apply children_child in Hc; [|exact Hwf].
      split; [reflexivity|]. split; [exact Hc|].
      now apply (IH s c Hin (children_wf _ _ _ Hwf Hin)).
    + intros (s & p' & c & -> & Hc & Hsite).
      apply children_child in Hc; [|exact Hwf].
      exists (s, c). split; [exact Hc|]. simpl. apply in_map_iff.
      exists (p', o). split; [reflexivity|].
      now apply (IH s c Hc (children_wf _ _ _ Hwf Hc)).
Qed.

Lemma sites_of_trigger :
  forall v p o, In (p, o) (sites_of v) -> triggers o = true.
Proof using.
  induction v as [v IH] using json_children_ind. intros p o.
  rewrite sites_of_children. destruct (triggers v) eqn:Hv.
  - intros [E|[]]. injection E as _ <-. exact Hv.
  - intros Hin. apply in_flat_map in Hin. destruct Hin as ([s c] & Hc & Hin).
    simpl in Hin. apply in_map_iff in Hin. destruct Hin as ([p' o'] & E & Hin).
    unfold under in E. simpl in E. injection E as _ <-. eauto.
Qed.

Lemma in_sites_of_below (l : list (segment * json)) (p : path) :
  In p (map fst (flat_map (fun sc => map (under (fst sc)) (sites_of (snd sc))) l)) ->
  exists t d q, In (t, d) l /\ p = t :: q /\ In q (map fst (sites_of d)).
Proof using.
  rewrite in_map_iff. intros ([p' o] & <- & Hin).
  apply in_flat_map in Hin. destruct Hin as ([t d] & Hl & Hin). simpl in Hin.
  apply in_map_iff in Hin. destruct Hin as ([q o'] & E & Hq).
  unfold under in E. simpl in E. injection E as <- <-.
  exists t, d, q. repeat split; auto. apply (in_map fst) in Hq. exact Hq.
Qed.

Lemma sites_of_NoDup :
  forall v, wf_json v -> NoDup (map fst (sites_of v)).
Proof using.
  induction v as [v IH] using json_children_ind. intros Hwf.
  rewrite sites_of_children. destruct (triggers v).
  - simpl. constructor; [intros [] | constructor].
  - pose proof (children_segments_NoDup v Hwf) as Hnd.
    assert (Hall : forall s c, In (s, c) (children v) ->
                               NoDup (map fst (sites_of c))).
    { intros s c Hin. apply (IH s c Hin). eapply children_wf; eauto. }
    clear IH. induction (children v) as [|[s c] r IHr]; simpl; [constructor|].
    inversion Hnd as [|? ? Hnotin Hnd']; subst.
    rewrite map_app, under_paths. apply NoDup_app.
    + apply Finite.Injective_map_NoDup; [|now apply (Hall s c); left].
      intros a b E. now injection E.
    + apply IHr; [exact Hnd'|]. intros t d Hin. apply (Hall t d). now right.
    + intros p Hp Hp'. apply in_map_iff in Hp. destruct Hp as (q & <- & _).
      apply in_sites_of_below in Hp'. destruct Hp' as (t & d & q' & Hin & E & _).
      injection E as <- _. apply Hnotin. apply (in_map fst) in Hin. exact Hin.
Qed.

Lemma sites_of_sorted :
  forall v, wf_json v -> StronglySorted (site_before v) (sites_of v).
Proof using.
  induction v as [v IH] using json_children_ind. intros Hwf.
  rewrite sites_of_children. destruct (triggers v).
  - repeat constructor.
  - assert (Hall : forall s c, In (s, c) (children v) ->
                               StronglySorted (site_before c) (sites_of c)).
    { intros s c Hin. apply (IH s c Hin). eapply children_wf; eauto. }
    clear IH.
    assert (G : forall suffix prefix,
               children v = prefix ++ suffix ->
               StronglySorted (site_before v)
                 (flat_map (fun sc => map (under (fst sc)) (sites_of (snd sc)))
                    suffix)).
    { induction suffix as [|[s c] r IHr]; simpl; intros prefix E; [constructor|].
      assert (Hin : In (s, c) (children v)).
      { rewrite E. apply in_or_app. right. now left. }
      apply StronglySorted_app.
      - apply StronglySorted_under with c; [now apply children_child|].
        now apply (Hall s c).
      - apply (IHr (prefix ++ [(s, c)])). now rewrite <- app_assoc.
      - intros a b Ha Hb. apply in_map_iff in Ha. destruct Ha as ([p o] & <- & _).
        apply in_flat_map in Hb. destruct Hb as ([t d] & Ht & Hb). simpl in Hb.
        apply in_map_iff in Hb. destruct Hb as ([q o'] & <- & _).
        unfold site_before. simpl. now apply before_sibling with prefix c r d. }
    now apply (G (children v) []).
Qed.

End Walk.

(** The two functions of the source are this walker with their trigger. *)
Lemma find_refs_from_walk :
  find_refs_from = walk_from (fun kvs => dict_has kvs "$ref").
Proof. reflexivity. Qed.

Lemma find_resource_paths_from_walk :
  find_resource_paths_from = walk_from is_resource.
Proof. reflexivity. Qed.

(** ** Resource discovery *)

(** X1. [find_resource_paths] is complete and precise: on a tree of dicts and
    lists it returns exactly the objects whose [provider] is ["resource"] and
    that have a [path] key and lie inside no other such object, each once, in
    document order, each with the pointer written as its location: for
    every key or index on the way from the root, a slash followed by the key
    or by the decimal numeral of the index. *)
Theorem find_resource_paths_complete_and_precise (doc : json)
    (Hwf : wf_json doc) :
  exists sites : list (path * json),
    Forall2 (fun found site =>
               written (fst site) (fst found) /\ snd found = snd site)
            (find_resource_paths doc) sites /\
    (forall p o, In (p, o) sites <-> outermost_site is_resource doc p o) /\
    NoDup (map fst sites) /\
    StronglySorted (site_before doc) sites.
Proof.
  exists (sites_of is_resource doc). split; [|split; [|split]].
  - unfold find_resource_paths. rewrite find_resource_paths_from_walk.
    rewrite walk_from_sites. apply located_written.
  - now apply sites_of_sound_complete.
  - now apply sites_of_NoDup.
  - now apply sites_of_sorted.
Qed.

Definition sample_with_resources : json :=
  JObj [("$schema", JStr "/app-1.yml");
        ("config", config_res);
        ("extra", JArr [JObj [("provider", JStr "vault"); ("path", JStr "/x")];
                        JObj [("provider", JStr "resource");
                              ("path", JStr "/config/db.json");
                              ("inner", config_res)]])].

Lemma sample_with_resources_wf : wf_json sample_with_resources.
Proof.
  unfold sample_with_resources, config_res.
  repeat first
    [ apply wf_obj | apply wf_arr | apply wf_str | apply wf_num
    | apply Forall_cons | apply Forall_nil | apply NoDup_nil
    | apply NoDup_cons; [simpl; intuition discriminate|] ]; simpl.
Qed.

Example find_resource_paths_sample :
  map fst (find_resource_paths sample_with_resources) = ["/config"; "/extra/1"].
Proof. reflexivity. Qed.

Lemma find_resource_paths_complete_and_precise_witness :
  wf_json sample_with_resources /\
  exists sites : list (path * json),
    Forall2 (fun found site =>
               written (fst site) (fst found) /\ snd found = snd site)
            (find_resource_paths sample_with_resources) sites /\
    (forall p o, In (p, o) sites <->
                 outermost_site is_resource sample_with_resources p o) /\
    NoDup (map fst sites) /\
    StronglySorted (site_before sample_with_resources) sites.
Proof.
  split; [exact sample_with_resources_wf|].
  exact (find_resource_paths_complete_and_precise sample_with_resources
           sample_with_resources_wf).
Defined.

Lemma is_resource_fields (kvs : dict) :
  is_resource kvs = true ->
  dict_get kvs "provider" = Some (JStr "resource") /\
  exists path, dict_get kvs "path" = Some path.
Proof.
  unfold is_resource, dict_has.
  destruct (dict_get kvs "provider") as [v|]; [|discriminate].
  rewrite andb_true_iff. intros [Hv Hp]. apply eq_str_true in Hv. subst v.
  split; [reflexivity|]. destruct (dict_get kvs "path"); [eauto | discriminate].
Qed.

(** X2. What discovery hands to the validators has the shape they read:
    every pair of [find_resource_paths] holds a dict whose [provider] is
    ["resource"] and whose [path] key is present, so that [res['path']]
    returns; every pair of [find_refs] holds a dict with a [$ref] key, so
    that [ref['$ref']] returns. *)
Theorem discovered_objects_have_their_keys (doc : json) :
  (forall ptr res,
      In (ptr, res) (find_resource_paths doc) ->
      exists kvs path,
        res = JObj kvs /\
        dict_get kvs "provider" = Some (JStr "resource") /\
        subscript res "path" = Return path) /\
  (forall ptr ref,
      In (ptr, ref) (find_refs doc) ->
      exists kvs target,
        ref = JObj kvs /\ subscript ref "$ref" = Return target).
Proof.
  split.
  - intros ptr res. unfold find_resource_paths.
    rewrite find_resource_paths_from_walk, walk_from_sites. simpl.
    intros Hin. apply in_map_iff in Hin. destruct Hin as ([p o] & E & Hin).
    unfold located in E. simpl in E. injection E as _ ->.
    apply sites_of_trigger in Hin.
    destruct res as [| | | | |kvs]; try discriminate. simpl in Hin.
    destruct (is_resource_fields kvs Hin) as [Hprov [path Hpath]].
    exists kvs, path. split; [reflexivity|]. split; [exact Hprov|].
    now apply subscript_present.
  - intros ptr ref Hin.
    destruct (find_refs_yields_ref_objects doc ptr ref Hin) as (kvs & target & -> & Ht).
    exists kvs, target. split; [reflexivity|]. now apply subscript_present.
Qed.

(** ** Pointers and their segments *)

Fixpoint has_slash (s : string) : bool :=
  match s with
  | EmptyString => false
  | String c r => Ascii.eqb c "/"%char || has_slash r
  end.

(** No object key, at any depth, contains a slash. *)
Fixpoint slash_free (v : json) : bool :=
  match v with
  | JObj kvs =>
      forallb (fun kv => negb (has_slash (fst kv)) && slash_free (snd kv)) kvs
  | JArr xs => forallb slash_free xs
  | _ => true
  end.

Lemma split_slash_nonempty (s : string) : split_slash s <> [].
Proof.
  induction s as [|c r IH]; simpl; [discriminate|].
  destruct (Ascii.eqb c "/"); [discriminate|].
  destruct (split_slash r); [contradiction | discriminate].
Qed.

Lemma split_slash_whole (s : string) :
  has_slash s = false -> split_slash s = [s].
Proof.
  induction s as [|c r IH]; simpl; [reflexivity|].
  destruct (Ascii.eqb c "/"); simpl; [discriminate|].
  intros H. now rewrite (IH H).
Qed.

Lemma split_slash_join (a b : string) :
  split_slash (a ++ String "/" b)%string = split_slash a ++ split_slash b.
Proof.
  induction a as [|c r IH]; simpl; [reflexivity|].
  destruct (Ascii.eqb c "/"); [now rewrite IH|].
  rewrite IH. pose proof (split_slash_nonempty r) as Hne.
  destruct (split_slash r); [contradiction | reflexivity].
Qed.

Lemma split_slash_pointer (p : path) :
  forall base,
    forallb (fun s => negb (has_slash (segment_text s))) p = true ->
    split_slash (pointer_of base p) = split_slash base ++ map segment_text p.
Proof.
  induction p as [|s r IH]; intros base Hfree.
  - unfold pointer_of. simpl. now rewrite app_nil_r.
  - simpl in Hfree. apply andb_true_iff in Hfree. destruct Hfree as [Hs Hr].
    apply negb_true_iff in Hs.
    change (pointer_of base (s :: r))
      with (pointer_of (join_ptr base (segment_text s)) r).
    rewrite (IH _ Hr). unfold join_ptr. simpl.
    rewrite split_slash_join, (split_slash_whole _ Hs), <- app_assoc.
    reflexivity.
Qed.

(** The text of an index is a non-empty run of digits. *)
Lemma string_of_uint_digits (d : Decimal.uint) :
  all_digits (NilEmpty.string_of_uint d) = true.
Proof.
  induction d; simpl; auto.
Qed.

Lemma str_of_index_isdigit (i : nat) : isdigit (str_of_index i) = true.
Proof.
  unfold str_of_index.
  pose proof (string_of_uint_digits (Nat.to_uint i)) as Hd.
  destruct (NilEmpty.string_of_uint (Nat.to_uint i)) eqn:E;
    [|exact (all_digits_isdigit _ _ Hd)].
  exfalso.
  assert (Hnil : Nat.to_uint i = Decimal.Nil).
  { destruct (Nat.to_uint i); simpl in E; try discriminate. reflexivity. }
  pose proof (DecimalNat.Unsigned.to_of (Nat.to_uint i)) as Hto.
  rewrite DecimalNat.Unsigned.of_to, Hnil in Hto.
  symmetry in Hto. now apply DecimalFacts.unorm_nonnil in Hto.
Qed.

Lemma digits_have_no_slash (s : string) :
  all_digits s = true -> has_slash s = false.
Proof.
  induction s as [|c r IH]; simpl; [reflexivity|].
  rewrite andb_true_iff. intros [Hc Hr]. rewrite (IH Hr), orb_false_r.
  destruct (Ascii.eqb_spec c "/"); [subst; discriminate | reflexivity].
Qed.

Lemma str_of_index_no_slash (i : nat) : has_slash (str_of_index i) = false.
Proof.
  apply digits_have_no_slash, string_of_uint_digits.
Qed.

Lemma str_of_index_inj (i j : nat) : str_of_index i = str_of_index j -> i = j.
Proof.
  unfold str_of_index. intros E.
  apply DecimalNat.Unsigned.to_uint_inj.
  pose proof (NilEmpty.usu (Nat.to_uint i)) as Hi.
  pose proof (NilEmpty.usu (Nat.to_uint j)) as Hj.
  rewrite E in Hi. rewrite Hi in Hj. now injection Hj.
Qed.

(** The segments of a location that exists in a slash-free document are
    slash-free. *)
Lemma located_segments_slash_free (p : path) :
  forall v o,
    slash_free v = true -> value_at v p = Some o ->
    forallb (fun s => negb (has_slash (segment_text s))) p = true /\
    slash_free o = true.
Proof.
  induction p as [|s r IH]; intros v o Hfree Hat; simpl in *.
  - injection Hat as <-. auto.
  - destruct (child v s) as [c|] eqn:Hc; [|discriminate].
    assert (Hs : has_slash (segment_text s) = false /\ slash_free c = true).
    { destruct v as [| | | |xs|kvs]; destruct s as [k|i]; simpl in Hc;
        try discriminate.
      - split; [apply str_of_index_no_slash|].
        simpl in Hfree. rewrite forallb_forall in Hfree.
        apply Hfree. eapply nth_error_In; eauto.
      - simpl in Hfree. clear -Hfree Hc.
        induction kvs as [|[k' v'] rest IHk]; simpl in *; [discriminate|].
        apply andb_true_iff in Hfree. destruct Hfree as [Hkv Hrest].
        apply andb_true_iff in Hkv. destruct Hkv as [Hk' Hv'].
        destruct (String.eqb_spec k' k) as [->|Hne].
        + injection Hc as <-. apply negb_true_iff in Hk'. auto.
        + auto. }
    destruct Hs as [Hs Hc']. rewrite Hs. simpl.
    exact (IH c o Hc' Hat).
Qed.

Lemma split_slash_location (doc : json) (p : path) (o : json) :
  slash_free doc = true -> value_at doc p = Some o ->
  split_slash (pointer_of "" p) = EmptyString :: map segment_text p.
Proof.
  intros Hfree Hat.
  destruct (located_segments_slash_free p doc o Hfree Hat) as [Hsegs _].
  now rewrite (split_slash_pointer p "" Hsegs).
Qed.

(** X3. Pointer round trip.  For a location that exists in a document none
    of whose keys contains a slash, splitting the pointer built from the
    location on [/] gives the empty leading segment followed by the texts of
    the location's segments, one per key or index; and the text of an index
    always satisfies [isdigit]. *)
Theorem pointer_split_round_trip (doc : json) (p : path) (o : json)
    (Hfree : slash_free doc = true) (Hat : value_at doc p = Some o) :
  split_slash (pointer_of "" p) = EmptyString :: map segment_text p /\
  (forall i, In (Index i) p -> isdigit (segment_text (Index i)) = true).
Proof.
  split.
  - exact (split_slash_location doc p o Hfree Hat).
  - intros i _. apply str_of_index_isdigit.
Qed.

Lemma pointer_split_round_trip_witness :
  slash_free sample_document = true /\
  value_at sample_document [Key "deps"; Index 0]
  = Some (JObj [("$ref", JStr "/apps/db.yml")]) /\
  split_slash (pointer_of "" [Key "deps"; Index 0]) = [""; "deps"; "0"].
Proof.
  split; [reflexivity|]. split; [reflexivity|].
  exact (proj1 (pointer_split_round_trip sample_document [Key "deps"; Index 0]
                  (JObj [("$ref", JStr "/apps/db.yml")]) eq_refl eq_refl)).
Defined.

(** Walking a schema along a location: [items] below an index,
    [properties[k]] below a key. *)
Fixpoint schema_at (schema : json) (p : path) : result json :=
  match p with
  | [] => Return schema
  | Index _ :: r => (below <- subscript schema "items" ;; schema_at below r)
  | Key k :: r =>
      (props <- subscript schema "properties" ;;
       below <- subscript props k ;; schema_at below r)
  end.

Definition no_digit_keys (p : path) : bool :=
  forallb (fun s => match s with
                    | Key k => negb (isdigit k)
                    | Index _ => true
                    end) p.

Lemma descend_all_schema_at (p : path) :
  forall schema,
    no_digit_keys p = true ->
    descend_all schema (map segment_text p) = schema_at schema p.
Proof.
  induction p as [|s r IH]; intros schema Hkeys; [reflexivity|].
  simpl in Hkeys. apply andb_true_iff in Hkeys. destruct Hkeys as [Hs Hr].
  simpl. unfold descend. destruct s as [k|i].
  - apply negb_true_iff in Hs. simpl. rewrite Hs.
    destruct (subscript schema "properties") as [props|e]; simpl; [|reflexivity].
    destruct (subscript props k) as [below|e]; simpl; [|reflexivity].
    now apply IH.
  - simpl segment_text. rewrite str_of_index_isdigit.
    destruct (subscript schema "items") as [below|e]; simpl; [|reflexivity].
    now apply IH.
Qed.

(** X4. Discovery and navigation compose.  For a location that exists in a
    document without slashes in its keys, navigating a schema by the pointer
    of the location visits one schema level per segment, by the segment's
    text; when moreover no key on the way satisfies [str.isdigit] (is
    non-empty and made of digit characters only), it takes [items] at each
    index and [properties[key]] at each key.  A key that satisfies
    [str.isdigit] is taken for an index: it selects [items]. *)
Theorem navigation_follows_location (doc : json) (p : path) (o schema : json)
    (Hfree : slash_free doc = true) (Hat : value_at doc p = Some o) :
  get_schema_info_from_pointer schema (pointer_of "" p)
  = descend_all schema (map segment_text p) /\
  (no_digit_keys p = true ->
   get_schema_info_from_pointer schema (pointer_of "" p) = schema_at schema p) /\
  (forall k, isdigit k = true -> descend schema k = subscript schema "items").
Proof.
  assert (E : get_schema_info_from_pointer schema (pointer_of "" p)
              = descend_all schema (map segment_text p)).
  { unfold get_schema_info_from_pointer.
    now rewrite (split_slash_location doc p o Hfree Hat). }
  split; [exact E|]. split.
  - intros Hkeys. rewrite E. now apply descend_all_schema_at.
  - intros k Hk. unfold descend. now rewrite Hk.
Qed.

Lemma navigation_follows_location_witness :
  slash_free (JObj app) = true /\
  value_at (JObj app) [Key "owner"] = Some ann_ref /\
  get_schema_info_from_pointer app_schema (pointer_of "" [Key "owner"])
  = schema_at app_schema [Key "owner"].
Proof.
  split; [reflexivity|]. split; [reflexivity|].
  exact (proj1 (proj2 (navigation_follows_location (JObj app) [Key "owner"]
                         ann_ref app_schema eq_refl eq_refl)) eq_refl).
Defined.

(** *** Distinct sites have distinct pointers *)

Lemma same_text_same_location (p : path) :
  forall q v o o',
    value_at v p = Some o -> value_at v q = Some o' ->
    map segment_text p = map segment_text q -> p = q.
Proof.
  induction p as [|s r IH]; intros q v o o' Hp Hq E.
  - destruct q; [reflexivity | discriminate].
  - destruct q as [|t r']; [discriminate|]. simpl in E. injection E as Est Er.
    simpl in Hp, Hq.
    destruct (child v s) as [c|] eqn:Hc; [|discriminate].
    destruct (child v t) as [c'|] eqn:Hc'; [|discriminate].
    assert (Hst : s = t).
    { destruct v as [| | | |xs|kvs]; destruct s as [k|i]; destruct t as [k'|j];
        simpl in Hc, Hc'; try discriminate; simpl in Est.
      - f_equal. now apply str_of_index_inj.
      - now f_equal. }
    subst t. rewrite Hc in Hc'. injection Hc' as <-.
    f_equal. exact (IH r' c o o' Hp Hq Er).
Qed.

Lemma pointer_of_injective (doc : json) (p q : path) (o o' : json) :
  slash_free doc = true ->
  value_at doc p = Some o -> value_at doc q = Some o' ->
  pointer_of "" p = pointer_of "" q -> p = q.
Proof.
  intros Hfree Hp Hq E.
  apply (same_text_same_location p q doc o o' Hp Hq).
  pose proof (split_slash_location doc p o Hfree Hp) as Sp.
  pose proof (split_slash_location doc q o' Hfree Hq) as Sq.
  rewrite E, Sq in Sp. now injection Sp.
Qed.

Lemma walk_pointers_NoDup (trigger : dict -> bool) (doc : json) :
  wf_json doc -> slash_free doc = true ->
  NoDup (map fst (walk_from trigger doc "" [])).
Proof.
  intros Hwf Hfree. rewrite walk_from_sites. simpl. rewrite map_map.
  change (fun x => fst (located "" x)) with (fun x : path * json => pointer_of "" (fst x)).
  rewrite <- (map_map fst (pointer_of "")).
  apply Finite.Injective_map_NoDup_in; [|now apply sites_of_NoDup].
  intros p q Hp Hq E.
  apply in_map_iff in Hp. destruct Hp as ([p' o] & <- & Hp).
  apply in_map_iff in Hq. destruct Hq as ([q' o'] & <- & Hq).
  apply (sites_of_sound_complete trigger doc Hwf) in Hp, Hq.
  destruct Hp as (Hp & _). destruct Hq as (Hq & _).
  exact (pointer_of_injective doc p' q' o o' Hfree Hp Hq E).
Qed.

(** X5. Pointers identify what was discovered: in a document whose keys
    contain no slash, no two pairs returned by [find_refs] share a pointer,
    and no two pairs returned by [find_resource_paths] do. *)
Theorem discovered_pointers_are_distinct (doc : json)
    (Hwf : wf_json doc) (Hfree : slash_free doc = true) :
  NoDup (map fst (find_refs doc)) /\
  NoDup (map fst (find_resource_paths doc)).
Proof.
  split.
  - unfold find_refs. rewrite find_refs_from_walk.
    now apply walk_pointers_NoDup.
  - unfold find_resource_paths. rewrite find_resource_paths_from_walk.
    now apply walk_pointers_NoDup.
Qed.

Lemma discovered_pointers_are_distinct_witness :
  wf_json sample_document /\ slash_free sample_document = true /\
  NoDup (map fst (find_refs sample_document)).
Proof.
  split; [exact sample_document_wf|]. split; [reflexivity|].
  exact (proj1 (discovered_pointers_are_distinct sample_document
                  sample_document_wf eq_refl)).
Defined.

(** Without the condition two sites can share a pointer: a key that contains
    a slash reads like a nested location. *)
Example slash_in_a_key_collides :
  map fst (find_refs (JObj [("a/b", ann_ref); ("a", JObj [("b", ann_ref)])]))
  = ["/a/b"; "/a/b"].
Proof. reflexivity. Qed.

(** ** [os.path.splitext] *)

Fixpoint has_char (c : ascii) (s : string) : bool :=
  match s with
  | EmptyString => false
  | String a r => Ascii.eqb a c || has_char c r
  end.

Lemma rfind_from_shift (c : ascii) (s : string) :
  forall i last,
    rfind_from c s i last =
    if (rfind_from c s 0 (-1) <? 0)%Z then last
    else (i + rfind_from c s 0 (-1))%Z.
Proof.
  induction s as [|a r IH]; intros i last; simpl; [reflexivity|].
  rewrite (IH (i + 1)%Z), (IH (0 + 1)%Z).
  destruct (rfind_from c r 0 (-1) <? 0)%Z eqn:Hneg.
  - destruct (Ascii.eqb a c); simpl; [now rewrite Z.add_0_r | reflexivity].
  - apply Z.ltb_ge in Hneg.
    destruct ((0 + 1 + rfind_from c r 0 (-1)) <? 0)%Z eqn:Hneg'.
    + apply Z.ltb_lt in Hneg'. lia.
    + lia.
Qed.

(** [rfind] read from the front of the string. *)
Lemma rfind_cons (a : ascii) (r : string) (c : ascii) :
  rfind (String a r) c =
  if (rfind r c <? 0)%Z then (if Ascii.eqb a c then 0%Z else (-1)%Z)
  else (1 + rfind r c)%Z.
Proof.
  unfold rfind. simpl. rewrite rfind_from_shift.
  destruct (rfind_from c r 0 (-1) <? 0)%Z; reflexivity.
Qed.

Lemma rfind_bounds (s : string) (c : ascii) :
  (-1 <= rfind s c < Z.of_nat (String.length s))%Z.
Proof.
  induction s as [|a r IH]; [unfold rfind; simpl; lia|].
  rewrite rfind_cons. simpl String.length.
  destruct (rfind r c <? 0)%Z eqn:Hneg.
  - destruct (Ascii.eqb a c); lia.
  - apply Z.ltb_ge in Hneg. lia.
Qed.

Lemma rfind_absent (s : string) (c : ascii) :
  (rfind s c < 0)%Z <-> has_char c s = false.
Proof.
  induction s as [|a r IH]; [unfold rfind; simpl; split; [reflexivity | lia]|].
  rewrite rfind_cons. cbn [has_char].
  destruct (rfind r c <? 0)%Z eqn:Hneg.
  - apply Z.ltb_lt in Hneg. apply IH in Hneg. rewrite Hneg, orb_false_r.
    destruct (Ascii.eqb a c); split; intros H;
      solve [lia | discriminate | reflexivity].
  - apply Z.ltb_ge in Hneg. split; [intros H; lia|].
    intros H. apply orb_false_iff in H. destruct H as [_ H].
    apply IH in H. lia.
Qed.

Lemma substring_whole (s : string) : substring 0 (String.length s) s = s.
Proof.
  induction s as [|a r IH]; simpl; [reflexivity | now rewrite IH].
Qed.

Lemma substring_split (s : string) :
  forall n, (substring 0 n s ++ substring n (String.length s - n) s)%string = s.
Proof.
  induction s as [|a r IH]; intros n.
  - destruct n; reflexivity.
  - destruct n as [|n]; simpl.
    + now rewrite substring_whole.
    + now rewrite IH.
Qed.

(** From the last occurrence of [c] on, the string is [c] followed by a text
    without [c]. *)
Lemma suffix_from_rfind (s : string) (c : ascii) :
  (0 <= rfind s c)%Z ->
  exists rest,
    substring (Z.to_nat (rfind s c))
      (String.length s - Z.to_nat (rfind s c)) s = String c rest /\
    has_char c rest = false.
Proof.
  induction s as [|a r IH]; [unfold rfind; simpl; lia|].
  rewrite rfind_cons. destruct (rfind r c <? 0)%Z eqn:Hneg.
  - apply Z.ltb_lt in Hneg. destruct (Ascii.eqb_spec a c) as [->|]; [|lia].
    intros _. exists r. simpl. rewrite substring_whole.
    split; [reflexivity | now apply rfind_absent].
  - apply Z.ltb_ge in Hneg. intros _. destruct (IH Hneg) as (rest & E & Hrest).
    exists rest. split; [|exact Hrest].
    replace (Z.to_nat (1 + rfind r c)) with (S (Z.to_nat (rfind r c))) by lia.
    simpl. exact E.
Qed.

(** Past the last occurrence of [c] there is no [c]. *)
Lemma suffix_after_rfind (s : string) (c : ascii) :
  forall n,
    (rfind s c < Z.of_nat n)%Z ->
    has_char c (substring n (String.length s - n) s) = false.
Proof.
  induction s as [|a r IH]; intros n Hn.
  - destruct n; reflexivity.
  - destruct n as [|n].
    + simpl. rewrite substring_whole.
      apply (rfind_absent (String a r) c). lia.
    + simpl. apply IH. rewrite rfind_cons in Hn.
      destruct (rfind r c <? 0)%Z eqn:Hneg.
      * apply Z.ltb_lt in Hneg. lia.
      * lia.
Qed.

Lemma splitext_cut (p : string) :
  (fst (splitext p) ++ snd (splitext p))%string = p /\
  (snd (splitext p) = EmptyString \/
   exists rest,
     snd (splitext p) = String "." rest /\
     has_char "." rest = false /\ has_char "/" rest = false).
Proof.
  unfold splitext.
  destruct (rfind p "/" <? rfind p ".")%Z eqn:Hlt;
    [|simpl; split; [apply string_append_empty | now left]].
  apply Z.ltb_lt in Hlt.
  destruct (all_dots _);
    [simpl; split; [apply string_append_empty | now left]|].
  simpl. split; [apply substring_split|]. right.
  pose proof (rfind_bounds p "/") as Hsep.
  destruct (suffix_from_rfind p "." ltac:(lia)) as (rest & E & Hrest).
  exists rest. split; [exact E|]. split; [exact Hrest|].
  pose proof (suffix_after_rfind p "/" (Z.to_nat (rfind p ".")) ltac:(lia)) as Hs.
  rewrite E in Hs. simpl in Hs. exact Hs.
Qed.

(** X6. [splitext] cuts a path in two without losing a character: root and
    extension concatenate to the path; and the extension is empty or is a
    period followed by a text with no period and no slash. *)
Theorem splitext_root_and_extension (p : string) :
  (fst (splitext p) ++ snd (splitext p))%string = p /\
  (snd (splitext p) = EmptyString \/
   exists rest,
     snd (splitext p) = String "." rest /\
     has_char "." rest = false /\ has_char "/" rest = false).
Proof.
  exact (splitext_cut p).
Qed.

Lemma string_length_append (a b : string) :
  String.length (a ++ b)%string = String.length a + String.length b.
Proof.
  induction a as [|x a IH]; simpl; [reflexivity | now rewrite IH].
Qed.

Lemma rfind_append (a b : string) (c : ascii) :
  rfind (a ++ b)%string c =
  if (rfind b c <? 0)%Z then rfind a c
  else (Z.of_nat (String.length a) + rfind b c)%Z.
Proof.
  induction a as [|x a IH].
  - simpl append. destruct (rfind b c <? 0)%Z eqn:Hneg.
    + apply Z.ltb_lt in Hneg. unfold rfind at 2. simpl.
      pose proof (rfind_bounds b c). lia.
    + simpl String.length. lia.
  - simpl append. rewrite !rfind_cons, IH.
    destruct (rfind b c <? 0)%Z eqn:Hneg; [reflexivity|].
    apply Z.ltb_ge in Hneg.
    destruct (Z.of_nat (String.length a) + rfind b c <? 0)%Z eqn:Hneg'.
    + apply Z.ltb_lt in Hneg'. lia.
    + simpl String.length. lia.
Qed.

Lemma substring_append_left (a b : string) :
  forall n m,
    n + m <= String.length a -> substring n m (a ++ b)%string = substring n m a.
Proof.
  induction a as [|x a IH]; intros n m Hle.
  - simpl in Hle. assert (n = 0) by lia. assert (m = 0) by lia. subst.
    destruct b; reflexivity.
  - destruct n as [|n]; simpl.
    + destruct m as [|m]; [reflexivity|]. f_equal. apply (IH 0 m).
      simpl in Hle. lia.
    + apply IH. simpl in Hle. lia.
Qed.

Lemma substring_append_right (a b : string) :
  substring (String.length a) (String.length b) (a ++ b)%string = b.
Proof.
  induction a as [|x a IH]; simpl; [apply substring_whole | exact IH].
Qed.

(** The last component of a path: what follows its last slash. *)
Definition last_component (p : string) : string :=
  substring (Z.to_nat (rfind p "/" + 1))
    (String.length p - Z.to_nat (rfind p "/" + 1)) p.

Lemma splitext_joined (root rest : string)
    (Hdot : has_char "." rest = false) (Hslash : has_char "/" rest = false) :
  splitext (root ++ String "." rest)%string =
  if all_dots (last_component root)
  then ((root ++ String "." rest)%string, EmptyString)
  else (root, String "." rest).
Proof.
  unfold splitext, last_component.
  assert (Hext_dot : rfind (String "." rest) "." = 0%Z).
  { rewrite rfind_cons. apply rfind_absent in Hdot.
    apply Z.ltb_lt in Hdot. now rewrite Hdot. }
  assert (Hext_slash : (rfind (String "." rest) "/" < 0)%Z).
  { apply rfind_absent. simpl. exact Hslash. }
  rewrite !rfind_append, Hext_dot. apply Z.ltb_lt in Hext_slash.
  rewrite Hext_slash. change (0 <? 0)%Z with false. cbv iota.
  rewrite Z.add_0_r, Nat2Z.id.
  pose proof (rfind_bounds root "/") as Hsep.
  assert (Hlt : (rfind root "/" <? Z.of_nat (String.length root))%Z = true)
    by (apply Z.ltb_lt; lia).
  rewrite Hlt.
  rewrite substring_append_left by lia.
  destruct (all_dots _); [reflexivity|].
  rewrite substring_append_left by lia. rewrite substring_whole.
  rewrite string_length_append.
  replace (String.length root + String.length (String "." rest) - String.length root)
    with (String.length (String "." rest)) by lia.
  now rewrite substring_append_right.
Qed.

(** X7. [splitext] undoes the adding of an extension.  Appending to a root a
    period and a text with neither period nor slash gives a path that splits
    back into that root and that extension, provided the last component of
    the root has a character other than a period; when that component is
    empty or made of periods only (a hidden file), the path has no extension
    at all. *)
Theorem splitext_of_root_and_extension (root rest : string)
    (Hdot : has_char "." rest = false) (Hslash : has_char "/" rest = false) :
  splitext (root ++ String "." rest)%string =
  if all_dots (last_component root)
  then ((root ++ String "." rest)%string, EmptyString)
  else (root, String "." rest).
Proof.
  exact (splitext_joined root rest Hdot Hslash).
Qed.

Lemma splitext_of_root_and_extension_witness :
  has_char "." "yaml" = false /\ has_char "/" "yaml" = false /\
  splitext "/config/cm.yaml" = ("/config/cm", ".yaml").
Proof.
  split; [reflexivity|]. split; [reflexivity|].
  exact (splitext_of_root_and_extension "/config/cm" "yaml" eq_refl eq_refl).
Defined.

(** ** More on the validators *)

Lemma normalize_url_absolute (url : string) :
  startswith (normalize_url url) "http" = true \/
  startswith (normalize_url url) "/" = true.
Proof.
  unfold normalize_url.
  destruct (startswith url "http") eqn:Hh; simpl; [now left|].
  destruct (startswith url "/") eqn:Hs; simpl; [now right|].
  right. now destruct url.
Qed.

Lemma normalize_url_idempotent (url : string) :
  normalize_url (normalize_url url) = normalize_url url.
Proof.
  destruct (normalize_url_absolute url) as [H|H];
    unfold normalize_url at 1; rewrite H; simpl; [reflexivity|].
  now destruct (startswith (normalize_url url) "http").
Qed.

Section MoreValidatorFacts.

Variable check_schema : json -> option exn.
Variable draft4_validate : resolver -> json -> json -> option exn.
Variable http_get : string -> result json.

(** X8. What an Ok of [validate_file] means.  The document is a dict whose
    [$schema] is a string; the outcome names that identifier normalised, which
    starts with ["http"] or ["/"] and is a fixed point of the normalisation;
    the schema bundle holds a schema under the normalised identifier, and the
    engine accepted the document against it.  Any other returned outcome is an
    Error of kind FILE. *)
Theorem validate_file_ok_means (schemas_bundle : dict) (filename : string)
    (data : json) (o : ValidationResult)
    (Hrun : validate_file draft4_validate schemas_bundle filename data = Return o) :
  (status o = true ->
   exists kvs url schema,
     data = JObj kvs /\ dict_get kvs "$schema" = Some (JStr url) /\
     o = ValidationOK DATA_FILE filename (JStr (normalize_url url)) /\
     (startswith (normalize_url url) "http" = true \/
      startswith (normalize_url url) "/" = true) /\
     normalize_url (normalize_url url) = normalize_url url /\
     dict_get schemas_bundle (normalize_url url) = Some schema /\
     draft4_validate (RefResolver (normalize_url url) schema schemas_bundle)
       schema data = None) /\
  (status o = false ->
   exists reason error kwargs,
     o = ValidationError DATA_FILE filename reason error kwargs /\
     In reason ["MISSING_SCHEMA_URL"; "SCHEMA_NOT_FOUND"; "VALIDATION_ERROR";
                "SCHEMA_ERROR"; "SCHEMA_TYPE_ERROR"]).
Proof using.
  unfold validate_file in Hrun.
  destruct data as [| | | | |kvs]; simpl in Hrun; try discriminate.
  destruct (dict_get kvs "$schema") as [v|] eqn:Hurl.
  2:{ injection Hrun as <-. split; [discriminate|]. intros _.
      do 3 eexists. split; [reflexivity|].
      simpl; repeat first [left; reflexivity | right]. }
  destruct v as [| | |url| |]; try discriminate.
  destruct (dict_get schemas_bundle (normalize_url url)) as [schema|] eqn:Hschema.
  2:{ injection Hrun as <-. split; [discriminate|]. intros _.
      do 3 eexists. split; [reflexivity|].
      simpl; repeat first [left; reflexivity | right]. }
  destruct (draft4_validate _ schema (JObj kvs)) as [e|] eqn:Hval.
  - destruct e; try discriminate; injection Hrun as <-;
      (split; [discriminate|]); intros _;
      do 3 eexists; (split; [reflexivity|]);
      simpl; repeat first [left; reflexivity | right].
  - injection Hrun as <-. split; [|discriminate]. intros _.
    exists kvs, url, schema. split; [reflexivity|]. split; [exact Hurl|].
    split; [reflexivity|]. split; [apply normalize_url_absolute|].
    split; [apply normalize_url_idempotent|]. split; [exact Hschema | exact Hval].
Qed.

Lemma unhandled_file_handlers_dec (e : exn) :
  unhandled file_handlers e <->
  e <> JsValidationError /\ e <> JsSchemaError /\ e <> TypeError.
Proof using.
  unfold unhandled, file_handlers. split.
  - intros H. repeat split; intros ->.
    + apply (H "VALIDATION_ERROR"). simpl. auto.
    + apply (H "SCHEMA_ERROR"). simpl. auto.
    + apply (H "SCHEMA_TYPE_ERROR"). simpl. auto.
  - intros (H1 & H2 & H3) reason [E|[E|[E|[]]]]; injection E as <- _; auto.
Qed.

(** X9. When [validate_file] raises.  It raises exactly in three cases:
    [TypeError] when the document is not a dict; [AttributeError] when its
    [$schema] is present and is not a string; and the engine's own exception
    when the schema was found and the engine raised something other than
    a validation error, a schema error or a type error.  In every other case
    it returns an outcome. *)
Theorem validate_file_raises_exactly (schemas_bundle : dict) (filename : string)
    (data : json) (e : exn) :
  validate_file draft4_validate schemas_bundle filename data = Raise e <->
  (is_dict data = false /\ e = TypeError) \/
  (exists kvs v,
      data = JObj kvs /\ dict_get kvs "$schema" = Some v /\
      is_str v = false /\ e = AttributeError) \/
  (exists kvs url schema,
      data = JObj kvs /\ dict_get kvs "$schema" = Some (JStr url) /\
      dict_get schemas_bundle (normalize_url url) = Some schema /\
      draft4_validate (RefResolver (normalize_url url) schema schemas_bundle)
        schema data = Some e /\
      unhandled file_handlers e).
Proof using.
  unfold validate_file. split.
  - destruct data as [| | | | |kvs]; simpl;
      try (intros [= <-]; left; split; reflexivity).
    destruct (dict_get kvs "$schema") as [v|] eqn:Hurl; [|discriminate].
    destruct v as [| | |url| |];
      try (intros [= <-]; right; left; exists kvs; eexists;
           split; [reflexivity|]; split; [exact Hurl|];
           split; reflexivity).
    destruct (dict_get schemas_bundle (normalize_url url)) as [schema|] eqn:Hs;
      [|discriminate].
    destruct (draft4_validate _ schema (JObj kvs)) as [e'|] eqn:Hval;
      [|discriminate].
    intros Hrun. right. right. exists kvs, url, schema.
    assert (e' = e /\ unhandled file_handlers e) as [-> Hun].
    { rewrite unhandled_file_handlers_dec.
      destruct e'; try discriminate; injection Hrun as <-;
        repeat split; discriminate. }
    repeat split; auto.
  - intros [[Hd ->] | [(kvs & v & -> & Hurl & Hv & ->) | (kvs & url & schema & -> & Hurl & Hs & Hval & Hun)]].
    + destruct data; try discriminate; reflexivity.
    + simpl. rewrite Hurl. destruct v; try discriminate; reflexivity.
    + simpl. rewrite Hurl, Hs, Hval.
      apply unhandled_file_handlers_dec in Hun. destruct Hun as (H1 & H2 & H3).
      destruct e; try reflexivity; contradiction.
Qed.

Lemma dict_get_appended (d : dict) (k : string) (v : json) (k' : string) :
  dict_get (d ++ [(k, v)]) k' =
  match dict_get d k' with
  | Some x => Some x
  | None => if k =? k' then Some v else None
  end.
Proof using.
  induction d as [|[k0 v0] r IH]; simpl; [reflexivity|].
  destruct (k0 =? k'); [reflexivity | exact IH].
Qed.

(** The first part of [validate_schema], up to the engine, when the document
    names a meta-schema that is not in the bundle. *)
Lemma validate_schema_fetching schemas_bundle filename kvs url :
  dict_get kvs "$schema" = Some (JStr url) ->
  dict_has schemas_bundle url = false ->
  validate_schema check_schema draft4_validate http_get
    schemas_bundle filename (JObj kvs) =
  (meta_schema <- fetch_schema http_get (JStr url) ;;
   let bundle' := schemas_bundle ++ [(url, meta_schema)] in
   o <- schema_outcome filename (JStr url)
          (match check_schema (JObj kvs) with
           | Some e => Some e
           | None => draft4_validate (RefResolver filename (JObj kvs) bundle')
                       meta_schema (JObj kvs)
           end) ;;
   Return (o, bundle')).
Proof using.
  intros Hurl Habsent. unfold validate_schema.
  rewrite (subscript_present _ _ _ Hurl). simpl bundle_contains.
  rewrite Habsent. simpl bind at 1. cbv iota. unfold fetch_schema.
  destruct (startswith url "http"); [|reflexivity].
  destruct (http_get url) as [meta|e]; [|reflexivity].
  simpl. unfold dict_has in Habsent.
  destruct (dict_get schemas_bundle url) eqn:Hget; [discriminate|].
  rewrite (dict_set_absent _ _ _ Hget).
  destruct (match check_schema (JObj kvs) with
            | Some e => Some e
            | None => _
            end) as [[]|]; reflexivity.
Qed.

(** X10. The schema bundle is a read-through cache of meta-schemas.  When
    [validate_schema] returns for a schema whose meta-schema identifier was
    not in the bundle, the identifier starts with ["http"], the network
    returned a document, and the bundle handed back is the old one with that
    document appended under the identifier: looking the identifier up now
    finds it, every other lookup is unchanged, and validating the same schema
    again with the new bundle gives the same outcome without any fetch.  When
    the identifier was already in the bundle, the bundle comes back
    unchanged. *)
Theorem validate_schema_caches_meta_schema
    (schemas_bundle : dict) (filename : string) (kvs : dict) (url : string)
    (o : ValidationResult) (bundle' : dict)
    (Hurl : dict_get kvs "$schema" = Some (JStr url))
    (Hrun : validate_schema check_schema draft4_validate http_get
              schemas_bundle filename (JObj kvs) = Return (o, bundle')) :
  (dict_has schemas_bundle url = true -> bundle' = schemas_bundle) /\
  (dict_has schemas_bundle url = false ->
   startswith url "http" = true /\
   exists meta_schema,
     http_get url = Return meta_schema /\
     bundle' = schemas_bundle ++ [(url, meta_schema)] /\
     dict_get bundle' url = Some meta_schema /\
     (forall k, k <> url -> dict_get bundle' k = dict_get schemas_bundle k) /\
     forall other_network,
       validate_schema check_schema draft4_validate other_network
         bundle' filename (JObj kvs) = Return (o, bundle')).
Proof using.
  split.
  - intros Hpresent. unfold dict_has in Hpresent.
    destruct (dict_get schemas_bundle url) as [meta|] eqn:Hmeta; [|discriminate].
    rewrite (validate_schema_bundled _ _ _ _ _ _ _ _ Hurl Hmeta) in Hrun.
    destruct (schema_outcome _ _ _) as [o'|e]; simpl in Hrun; [|discriminate].
    now injection Hrun as _ <-.
  - intros Habsent.
    rewrite (validate_schema_fetching _ _ _ _ Hurl Habsent) in Hrun.
    simpl in Hrun. destruct (startswith url "http") eqn:Hhttp; [|discriminate].
    split; [reflexivity|].
    destruct (http_get url) as [meta|e]; simpl in Hrun; [|discriminate].
    exists meta. split; [reflexivity|].
    destruct (schema_outcome _ _ _) as [o'|e] eqn:Ho; simpl in Hrun; [|discriminate].
    injection Hrun as <- <-.
    unfold dict_has in Habsent.
    destruct (dict_get schemas_bundle url) eqn:Hget; [discriminate|].
    assert (Hnew : dict_get (schemas_bundle ++ [(url, meta)]) url = Some meta).
    { rewrite dict_get_appended, Hget, String.eqb_refl. reflexivity. }
    split; [reflexivity|]. split; [exact Hnew|]. split.
    + intros k Hk. rewrite dict_get_appended.
      destruct (dict_get schemas_bundle k); [reflexivity|].
      destruct (String.eqb_spec url k); [now elim Hk | reflexivity].
    + intros other.
      rewrite (validate_schema_bundled _ _ _ _ _ _ _ _ Hurl Hnew), Ho.
      reflexivity.
Qed.

Lemma schema_outcome_raises filename url raised e :
  (exists r : ValidationResult * dict,
      (o <- schema_outcome filename url raised ;; Return (o, snd r)) = Raise e)
  <-> raised = Some e /\ unhandled schema_handlers e.
Proof using.
  unfold unhandled, schema_handlers. split.
  - intros [r H]. destruct raised as [e'|]; [|discriminate].
    destruct e'; simpl in H; try discriminate; injection H as <-;
      (split; [reflexivity|]);
      intros reason [E|[E|[E|[]]]]; discriminate.
  - intros [-> Hun]. exists (ValidationOK SCHEMA filename url, []).
    destruct e; try reflexivity; exfalso.
    + apply (Hun "VALIDATION_ERROR"). simpl. auto.
    + apply (Hun "SCHEMA_ERROR"). simpl. auto.
    + apply (Hun "SCHEMA_ERROR"). simpl. auto.
Qed.

(** The engine's verdict on a schema: the structural check first, then the
    validation against the meta-schema. *)
Definition engine_on_schema (filename : string) (schema_data meta_schema : json)
    (bundle' : dict) : option exn :=
  match check_schema schema_data with
  | Some e => Some e
  | None => draft4_validate (RefResolver filename schema_data bundle')
              meta_schema schema_data
  end.

(** X11. When [validate_schema] raises.  It raises exactly in these cases:
    [TypeError] when the schema document is not a dict, or when its [$schema]
    is a list or a dict (unhashable); [AttributeError] when its [$schema] is
    another non-string value; [MissingSchemaFile] when the [$schema] string
    is not in the bundle and does not start with ["http"]; the network's
    exception when it does and the fetch fails; and the engine's exception
    when the engine raises something other than a validation error, a schema
    error or a reference-resolution error. *)
Theorem validate_schema_raises_exactly (schemas_bundle : dict)
    (filename : string) (data : json) (e : exn) :
  validate_schema check_schema draft4_validate http_get
    schemas_bundle filename data = Raise e <->
  (is_dict data = false /\ e = TypeError) \/
  (exists kvs v,
      data = JObj kvs /\ dict_get kvs "$schema" = Some v /\
      is_str v = false /\
      e = if hashable v then AttributeError else TypeError) \/
  (exists kvs url,
      data = JObj kvs /\ dict_get kvs "$schema" = Some (JStr url) /\
      dict_has schemas_bundle url = false /\
      ((startswith url "http" = false /\ e = MissingSchemaFile url) \/
       (startswith url "http" = true /\ http_get url = Raise e))) \/
  (exists kvs url meta_schema bundle',
      data = JObj kvs /\ dict_get kvs "$schema" = Some (JStr url) /\
      ((dict_get schemas_bundle url = Some meta_schema /\
        bundle' = schemas_bundle) \/
       (dict_has schemas_bundle url = false /\
        startswith url "http" = true /\
        http_get url = Return meta_schema /\
        bundle' = schemas_bundle ++ [(url, meta_schema)])) /\
      engine_on_schema filename data meta_schema bundle' = Some e /\
      unhandled schema_handlers e).
Proof using.
  destruct data as [| | | | |kvs];
    try (unfold validate_schema; simpl; split;
         [ intros [= <-]; left; split; reflexivity
         | intros [[_ ->] | [(kvs' & v' & E & _) | [(kvs' & url' & E & _)
                                                    | (kvs' & url' & m' & b' & E & _)]]];
           try discriminate; reflexivity ]).
  destruct (dict_get kvs "$schema") as [v|] eqn:Hurl.
  2:{ unfold validate_schema. simpl. rewrite Hurl. split; [discriminate|].
      intros [[Hd _] | [(k & v & E & Hv & _) | [(k & u & E & Hv & _)
                                                | (k & u & m & b & E & Hv & _)]]];
        try discriminate; injection E as <-; rewrite Hurl in Hv; discriminate. }
  destruct (is_str v) eqn:Hstr.
  - destruct v as [| | |url| |]; try discriminate.
    destruct (dict_get schemas_bundle url) as [meta|] eqn:Hmeta.
    + rewrite (validate_schema_bundled _ _ _ _ _ _ _ _ Hurl Hmeta). split.
      * intros Hrun. do 3 right. exists kvs, url, meta, schemas_bundle.
        split; [reflexivity|]. split; [exact Hurl|]. split; [left; auto|].
        apply (schema_outcome_raises filename (JStr url)).
        exists (ValidationOK SCHEMA filename JNull, schemas_bundle). exact Hrun.
      * intros [[Hd _] | [(k & v & E & Hv & Hs & _) | [(k & u & E & Hv & Habs & _)
                                                       | (k & u & m & b & E & Hv & Hb & Heng & Hun)]]].
        -- discriminate.
        -- injection E as <-. rewrite Hurl in Hv. injection Hv as <-. discriminate.
        -- injection E as <-. rewrite Hurl in Hv. injection Hv as <-.
           unfold dict_has in Habs. rewrite Hmeta in Habs. discriminate.
        -- injection E as <-. rewrite Hurl in Hv. injection Hv as <-.
           destruct Hb as [[Hm ->] | [Habs _]].
           ++ rewrite Hmeta in Hm. injection Hm as <-.
              unfold engine_on_schema in Heng. rewrite Heng.
              destruct (proj2 (schema_outcome_raises filename (JStr url) (Some e) e)
                          (conj eq_refl Hun)) as [r Hr].
              destruct (schema_outcome filename (JStr url) (Some e)); [discriminate|].
              simpl in Hr. simpl. exact Hr.
           ++ unfold dict_has in Habs. rewrite Hmeta in Habs. discriminate.
    + assert (Habsent : dict_has schemas_bundle url = false)
        by (unfold dict_has; now rewrite Hmeta).
      rewrite (validate_schema_fetching _ _ _ _ Hurl Habsent). simpl. split.
      * destruct (startswith url "http") eqn:Hhttp.
        -- destruct (http_get url) as [meta|e'] eqn:Hget; simpl.
           ++ intros Hrun. do 3 right.
              exists kvs, url, meta, (schemas_bundle ++ [(url, meta)]).
              split; [reflexivity|]. split; [exact Hurl|].
              split; [right; auto|].
              apply (schema_outcome_raises filename (JStr url)).
              exists (ValidationOK SCHEMA filename JNull,
                      schemas_bundle ++ [(url, meta)]). exact Hrun.
           ++ intros [= <-]. right. right. left. exists kvs, url. auto 6.
        -- simpl. intros [= <-]. right. right. left. exists kvs, url. auto 6.
      * intros [[Hd _] | [(k & v & E & Hv & Hs & _) | [(k & u & E & Hv & _ & Hcase)
                                                       | (k & u & m & b & E & Hv & Hb & Heng & Hun)]]].
        -- discriminate.
        -- injection E as <-. rewrite Hurl in Hv. injection Hv as <-. discriminate.
        -- injection E as <-. rewrite Hurl in Hv. injection Hv as <-.
           destruct Hcase as [[Hh ->] | [Hh Hget]].
           ++ now rewrite Hh.
           ++ now rewrite Hh, Hget.
        -- injection E as <-. rewrite Hurl in Hv. injection Hv as <-.
           destruct Hb as [[Hm _] | (_ & Hh & Hget & ->)].
           ++ rewrite Hmeta in Hm. discriminate.
           ++ rewrite Hh, Hget. simpl.
              unfold engine_on_schema in Heng. rewrite Heng.
              destruct (proj2 (schema_outcome_raises filename (JStr url) (Some e) e)
                          (conj eq_refl Hun)) as [r Hr].
              destruct (schema_outcome filename (JStr url) (Some e)); [discriminate|].
              simpl in Hr. simpl. exact Hr.
  - unfold validate_schema. simpl. rewrite Hurl. split.
    + intros Hrun. right. left. exists kvs, v.
      split; [reflexivity|]. split; [exact Hurl|]. split; [exact Hstr|].
      destruct v; try discriminate; simpl in Hrun; injection Hrun as <-;
        reflexivity.
    + intros [[Hd _] | [(k & v' & E & Hv & Hs & ->) | [(k & u & E & Hv & _)
                                                       | (k & u & m & b & E & Hv & _)]]].
      * discriminate.
      * injection E as <-. rewrite Hurl in Hv. injection Hv as <-.
        destruct v; try discriminate; reflexivity.
      * injection E as <-. rewrite Hurl in Hv. injection Hv as ->. discriminate.
      * injection E as <-. rewrite Hurl in Hv. injection Hv as ->. discriminate.
Qed.

End MoreValidatorFacts.

Section MoreOrchestratorFacts.

Variable check_schema : json -> option exn.
Variable draft4_validate : resolver -> json -> json -> option exn.
Variable http_get : string -> result json.
Variable open_file : string -> option string.
Variable yaml_load : string -> result json.
Variable json_load : string -> result json.

(** *** Resource files: which collaborator is consulted *)

(** [validate_resource_paths] sees the filesystem and the parsers through
    [load_resource] only. *)
Lemma validate_resource_paths_by_load
    (open_file' : string -> option string)
    (yaml_load' json_load' : string -> result json)
    schemas_bundle bundle filename data ptr res :
  (forall p,
      subscript res "path" = Return (JStr p) ->
      str_in (snd (splitext p)) valid_extensions = true ->
      load_resource open_file' yaml_load' json_load'
        ("resources" ++ p)%string (snd (splitext p)) =
      load_resource open_file yaml_load json_load
        ("resources" ++ p)%string (snd (splitext p))) ->
  validate_resource_paths open_file' yaml_load' json_load'
    schemas_bundle bundle filename data ptr res =
  validate_resource_paths open_file yaml_load json_load
    schemas_bundle bundle filename data ptr res.
Proof using.
  intros Hload. unfold validate_resource_paths.
  destruct (subscript res "path") as [path|e]; [|reflexivity].
  destruct path as [| | |p| |]; try reflexivity.
  unfold bind. cbv beta iota zeta.
  destruct (str_in (snd (splitext p)) valid_extensions) eqn:Hext;
    [|reflexivity].
  simpl negb. cbv iota. now rewrite (Hload p eq_refl Hext).
Qed.

(** X12. Which collaborator a resource reference reaches.  With an extension
    other than [.json], [.yml] and [.yaml] (compared as written, so [.YAML]
    is one of the others) the outcome is MISSING_EXTENSION and neither the
    filesystem nor a parser is consulted.  A [.json] file is read by the JSON
    parser only and a [.yml] or [.yaml] file by the YAML parser only: the
    other parser has no influence on the outcome.  A file that cannot be
    opened gives FILE_NOT_FOUND whatever the parsers are. *)
Theorem resource_collaborators
    (schemas_bundle bundle : dict) (filename : string) (data : json)
    (ptr : string) (reskvs : dict) (p : string)
    (Hpath : dict_get reskvs "path" = Some (JStr p)) :
  (str_in (snd (splitext p)) valid_extensions = false ->
   validate_resource_paths open_file yaml_load json_load
     schemas_bundle bundle filename data ptr (JObj reskvs) =
   Return (ValidationError RESOURCE_PATH filename "MISSING_EXTENSION"
             (ErrText "The resource file extension should end in one of the following: .json, .yml, .yaml")
             [("res", JStr p)])) /\
  (snd (splitext p) = ".json" ->
   forall other_yaml,
     validate_resource_paths open_file other_yaml json_load
       schemas_bundle bundle filename data ptr (JObj reskvs) =
     validate_resource_paths open_file yaml_load json_load
       schemas_bundle bundle filename data ptr (JObj reskvs)) /\
  (str_in (snd (splitext p)) valid_yaml_ext = true ->
   forall other_json,
     validate_resource_paths open_file yaml_load other_json
       schemas_bundle bundle filename data ptr (JObj reskvs) =
     validate_resource_paths open_file yaml_load json_load
       schemas_bundle bundle filename data ptr (JObj reskvs)) /\
  (str_in (snd (splitext p)) valid_extensions = true ->
   open_file ("resources" ++ p)%string = None ->
   validate_resource_paths open_file yaml_load json_load
     schemas_bundle bundle filename data ptr (JObj reskvs) =
   Return (ValidationError RESOURCE_PATH filename "FILE_NOT_FOUND"
             (ErrText ("Resource file could not be found: "
                       ++ ("resources" ++ p))%string)
             [("res", JStr p)])).
Proof using.
  split; [|split; [|split]].
  - intros Hext. unfold validate_resource_paths.
    rewrite (subscript_present _ _ _ Hpath). unfold bind. cbv beta iota zeta.
    now rewrite Hext.
  - intros Hjson other. apply validate_resource_paths_by_load.
    intros p' Hp' _. rewrite (subscript_present _ _ _ Hpath) in Hp'.
    injection Hp' as <-. rewrite Hjson. unfold load_resource.
    destruct (open_file _); reflexivity.
  - intros Hyaml other. apply validate_resource_paths_by_load.
    intros p' Hp' _. rewrite (subscript_present _ _ _ Hpath) in Hp'.
    injection Hp' as <-. unfold load_resource. rewrite Hyaml.
    destruct (open_file _); reflexivity.
  - intros Hext Hopen. unfold validate_resource_paths.
    rewrite (subscript_present _ _ _ Hpath). unfold bind. cbv beta iota zeta.
    rewrite Hext. simpl negb. cbv iota. unfold load_resource. now rewrite Hopen.
Qed.

(** *** A fetched meta-schema and the iteration over the bundle *)

Lemma run_schemas_grown (pre : dict) :
  forall schemas_bundle acc filename schema_data rest o bundle',
    (forall item, In item pre ->
                  exists o', validate_schema check_schema draft4_validate http_get
                               schemas_bundle (fst item) (snd item)
                             = Return (o', schemas_bundle)) ->
    validate_schema check_schema draft4_validate http_get
      schemas_bundle filename schema_data = Return (o, bundle') ->
    List.length bundle' <> List.length schemas_bundle ->
    run_schemas check_schema draft4_validate http_get
      (pre ++ (filename, schema_data) :: rest) schemas_bundle acc
    = Raise RuntimeError.
Proof using.
  induction pre as [|[f s] r IH];
    intros schemas_bundle acc filename schema_data rest o bundle' Hpre Hrun Hlen;
    simpl.
  - rewrite Hrun. simpl. apply Nat.eqb_neq in Hlen. now rewrite Hlen.
  - destruct (Hpre (f, s) (or_introl eq_refl)) as [o' Ho']. simpl in Ho'.
    rewrite Ho'. simpl. rewrite Nat.eqb_refl.
    apply (IH _ _ _ _ _ o bundle'); auto.
    intros item Hin. apply Hpre. now right.
Qed.

(** X13. A meta-schema that has to be fetched never lets the run complete.
    [main] iterates over the schema bundle while [validate_schema] inserts
    the fetched meta-schema into it.  So a completed run had every schema's
    [$schema] string in the bundle from the start; and when the schemas before
    one are validated without a fetch and that one has its meta-schema
    fetched successfully, the run raises [RuntimeError] (the dict changed
    size during iteration) instead of returning its results. *)
Theorem fetch_during_iteration
    (only_errors : bool) (data_bundle schemas_bundle : dict) :
  (forall r,
      main check_schema draft4_validate http_get open_file yaml_load json_load
        only_errors data_bundle schemas_bundle = Return r ->
      forall filename kvs url,
        In (filename, JObj kvs) schemas_bundle ->
        dict_get kvs "$schema" = Some (JStr url) ->
        dict_has schemas_bundle url = true) /\
  (forall pre filename kvs rest url o bundle',
      schemas_bundle = pre ++ (filename, JObj kvs) :: rest ->
      (forall item,
          In item pre ->
          exists o', validate_schema check_schema draft4_validate http_get
                       schemas_bundle (fst item) (snd item)
                     = Return (o', schemas_bundle)) ->
      dict_get kvs "$schema" = Some (JStr url) ->
      dict_has schemas_bundle url = false ->
      validate_schema check_schema draft4_validate http_get
        schemas_bundle filename (JObj kvs) = Return (o, bundle') ->
      main check_schema draft4_validate http_get open_file yaml_load json_load
        only_errors data_bundle schemas_bundle = Raise RuntimeError).
Proof using.
  assert (Hgrow : forall filename kvs url o bundle',
             dict_get kvs "$schema" = Some (JStr url) ->
             dict_has schemas_bundle url = false ->
             validate_schema check_schema draft4_validate http_get
               schemas_bundle filename (JObj kvs) = Return (o, bundle') ->
             List.length bundle' <> List.length schemas_bundle).
  { intros filename kvs url o bundle' Hurl Habsent Hrun.
    rewrite (validate_schema_fetching _ _ _ _ _ _ _ Hurl Habsent) in Hrun.
    destruct (fetch_schema http_get (JStr url)) as [meta|e]; [|discriminate].
    simpl in Hrun.
    destruct (schema_outcome _ _ _) as [o'|e]; simpl in Hrun; [|discriminate].
    injection Hrun as _ <-. rewrite length_app. simpl. lia. }
  split.
  - intros r Hr filename kvs url Hin Hurl.
    apply main_spec in Hr.
    destruct Hr as (rs & rf & rr & rp & (Hs & _) & _).
    destruct (Forall2_returns _ _ _ Hs _ Hin) as (d & o & Ho & _).
    simpl in Ho.
    destruct (dict_has schemas_bundle url) eqn:Hhas; [reflexivity|].
    exfalso. now apply (Hgrow filename kvs url o schemas_bundle Hurl Hhas Ho).
  - intros pre filename kvs rest url o bundle' Hsplit Hpre Hurl Habsent Hrun.
    unfold main.
    rewrite Hsplit at 1.
    rewrite (run_schemas_grown pre schemas_bundle [] filename (JObj kvs) rest
               o bundle' Hpre Hrun (Hgrow _ _ _ _ _ Hurl Habsent Hrun)).
    reflexivity.
Qed.

(** X14. The [--only-errors] flag changes what is written and nothing else:
    the two runs over the same bundle either both raise the same exception or
    both complete with the same results, the same error list and the same
    exit status; with the flag the output is the error list, without it the
    output is all results. *)
Theorem only_errors_changes_output_only (data_bundle schemas_bundle : dict) :
  match
    main check_schema draft4_validate http_get open_file yaml_load json_load
      true data_bundle schemas_bundle,
    main check_schema draft4_validate http_get open_file yaml_load json_load
      false data_bundle schemas_bundle
  with
  | Return quiet, Return full =>
      results quiet = results full /\ errors quiet = errors full /\
      exit_status quiet = exit_status full /\
      output quiet = errors quiet /\ output full = results full
  | Raise e, Raise e' => e = e'
  | _, _ => False
  end.
Proof using.
  unfold main.
  destruct (run_schemas _ _ _ schemas_bundle schemas_bundle []) as [[rs b]|e];
    simpl; [|reflexivity].
  destruct (run_files _ b data_bundle) as [rf|e]; simpl; [|reflexivity].
  destruct (run_nested find_refs _ data_bundle) as [rr|e]; simpl; [|reflexivity].
  destruct (run_nested find_resource_paths _ data_bundle) as [rp|e]; simpl;
    [|reflexivity].
  repeat split.
Qed.

(** *** What the outcomes of [validate_ref] mean *)

Lemma bundle_subscript_raises (b : dict) (k : json) (e : exn) :
  bundle_subscript b k = Raise e -> e = KeyError k \/ e = TypeError.
Proof using.
  destruct k; simpl; try (intros [= <-]; auto).
  destruct (dict_get b s); [discriminate | intros [= <-]; auto].
Qed.

(** The annotation of the schema node accepts the referenced document. *)
Definition cross_check_passes (info : dict) (ref_data : json) : Prop :=
  match dict_get info "$schemaRef" with
  | None | Some JNull => True
  | Some (JStr expected) => subscript ref_data "$schema" = Return (JStr expected)
  | Some expected => draft4_validate DefaultResolver expected ref_data = None
  end.

(** X15. What a RefOk of [validate_ref] guarantees: the reference is a dict
    whose [$ref] names a document of the data bundle; the containing document
    is a dict whose [$schema], taken as written, names a schema of the schema
    bundle; navigating that schema by the pointer reaches an object; and that
    object's [$schemaRef], if any, accepts the referenced document (a string
    equals the referenced document's [$schema], anything else but null is a
    schema the engine accepted).  The outcome then carries the [$ref] value
    and the [$schema] value. *)
Theorem validate_ref_ok_means
    (schemas_bundle bundle : dict) (filename : string) (data : json)
    (ptr : string) (ref : json) (o : ValidationResult)
    (Hrun : validate_ref draft4_validate schemas_bundle bundle filename
              data ptr ref = Return o)
    (Hok : status o = true) :
  exists refkvs target ref_data datakvs url schema info,
    ref = JObj refkvs /\ dict_get refkvs "$ref" = Some target /\
    bundle_subscript bundle target = Return ref_data /\
    data = JObj datakvs /\ dict_get datakvs "$schema" = Some url /\
    bundle_subscript schemas_bundle url = Return schema /\
    get_schema_info_from_pointer schema ptr = Return (JObj info) /\
    cross_check_passes info ref_data /\
    o = ValidationRefOK REF filename target url.
Proof using.
  destruct ref as [| | | | |refkvs]; try discriminate.
  destruct (dict_get refkvs "$ref") as [target|] eqn:Href.
  2:{ unfold validate_ref, subscript in Hrun. rewrite Href in Hrun.
      discriminate. }
  destruct (bundle_subscript bundle target) as [ref_data|e] eqn:Hfound.
  2:{ destruct (bundle_subscript_raises _ _ _ Hfound) as [-> | ->].
      - rewrite (validate_ref_file_not_found _ _ _ _ _ _ _ _ Href Hfound) in Hrun.
        injection Hrun as <-. discriminate.
      - unfold validate_ref in Hrun. rewrite (subscript_present _ _ _ Href) in Hrun.
        simpl in Hrun. rewrite Hfound in Hrun. discriminate. }
  destruct data as [| | | | |datakvs];
    try (unfold validate_ref in Hrun;
         rewrite (subscript_present _ _ _ Href) in Hrun;
         simpl in Hrun; rewrite Hfound in Hrun; discriminate).
  destruct (dict_get datakvs "$schema") as [url|] eqn:Hurl.
  2:{ rewrite (validate_ref_schema_not_found _ _ _ _ _ _ _ _ _
                 (JStr "$schema") Href Hfound) in Hrun.
      - injection Hrun as <-. discriminate.
      - unfold subscript. now rewrite Hurl. }
  destruct (bundle_subscript schemas_bundle url) as [schema|e] eqn:Hschema.
  2:{ destruct (bundle_subscript_raises _ _ _ Hschema) as [-> | ->].
      - rewrite (validate_ref_schema_not_found _ _ _ _ _ _ _ _ _ url
                   Href Hfound) in Hrun.
        + injection Hrun as <-. discriminate.
        + rewrite (subscript_present _ _ _ Hurl). exact Hschema.
      - unfold validate_ref in Hrun.
        rewrite (subscript_present _ _ _ Href),
          (subscript_present _ _ _ Hurl) in Hrun.
        simpl in Hrun. rewrite Hfound, Hschema in Hrun. discriminate. }
  rewrite (validate_ref_navigation _ _ _ _ _ _ _ _ _ _ _
             Href Hfound Hurl Hschema) in Hrun.
  destruct (get_schema_info_from_pointer schema ptr) as [node|e] eqn:Hnav.
  2:{ destruct e; try discriminate. injection Hrun as <-. discriminate. }
  destruct node as [| | | | |info]; try discriminate. simpl in Hrun.
  exists refkvs, target, ref_data, datakvs, url, schema, info.
  repeat (split; [first [reflexivity | assumption]|]).
  unfold cross_check_passes.
  destruct (dict_get info "$schemaRef") as [expected|]; [|split; [exact I|]].
  2:{ now injection Hrun as <-. }
  destruct expected as [|b|n|expected|xs|kvs]; simpl in Hrun.
  - split; [exact I|]. now injection Hrun as <-.
  - destruct (draft4_validate _ _ _) as [e|].
    + destruct e; try discriminate. injection Hrun as <-. discriminate.
    + split; [reflexivity|]. now injection Hrun as <-.
  - destruct (draft4_validate _ _ _) as [e|].
    + destruct e; try discriminate. injection Hrun as <-. discriminate.
    + split; [reflexivity|]. now injection Hrun as <-.
  - destruct (subscript ref_data "$schema") as [got|e]; [|discriminate].
    simpl in Hrun. destruct (eq_str got expected) eqn:Heq.
    + apply eq_str_true in Heq. subst got. split; [reflexivity|].
      now injection Hrun as <-.
    + injection Hrun as <-. discriminate.
  - destruct (draft4_validate _ _ _) as [e|].
    + destruct e; try discriminate. injection Hrun as <-. discriminate.
    + split; [reflexivity|]. now injection Hrun as <-.
  - destruct (draft4_validate _ _ _) as [e|].
    + destruct e; try discriminate. injection Hrun as <-. discriminate.
    + split; [reflexivity|]. now injection Hrun as <-.
Qed.

(** *** The reason codes of each validator *)

Definition schema_reasons : list string :=
  ["MISSING_SCHEMA_URL"; "VALIDATION_ERROR"; "SCHEMA_ERROR"].
Definition file_reasons : list string :=
  ["MISSING_SCHEMA_URL"; "SCHEMA_NOT_FOUND"; "VALIDATION_ERROR"; "SCHEMA_ERROR";
   "SCHEMA_TYPE_ERROR"].
Definition ref_reasons : list string :=
  ["FILE_NOT_FOUND"; "SCHEMA_NOT_FOUND"; "SCHEMA_DEFINITION_NOT_FOUND";
   "INCORRECT_SCHEMA"; "SCHEMA_REF_VALIDATION_ERROR"].
Definition resource_reasons : list string :=
  ["MISSING_EXTENSION"; "FILE_NOT_FOUND"; "INVALID_YAML"; "INVALID_JSON";
   "INVALID_OBJECT"].

(** An outcome of the given kind for the given file: an Ok of the expected
    shape, or an Error whose reason is one of [reasons]. *)
Definition well_formed_outcome (kind : ValidatedFileKind) (with_ref : bool)
    (reasons : list string) (filename : string) (o : ValidationResult) : Prop :=
  match o with
  | ValidationOK k f _ => k = kind /\ f = filename /\ with_ref = false
  | ValidationRefOK k f _ _ => k = kind /\ f = filename /\ with_ref = true
  | ValidationError k f reason _ _ =>
      k = kind /\ f = filename /\ In reason reasons
  end.

Ltac outcome_shape :=
  unfold bind; cbv zeta;
  repeat match goal with
         | |- context [match ?x with _ => _ end] => destruct x
         end;
  try discriminate;
  let H := fresh in
  intros H; inversion H; subst; simpl;
  repeat split; repeat first [left; reflexivity | right].

(** X16. Every outcome a validator returns has the kind of the validator,
    the file name it was called with, and one of two shapes: the success
    shape of that validator (plain Ok for schemas and files, RefOk for
    references and resource paths) or an Error whose reason code belongs to
    the validator's own fixed list. *)
Theorem outcomes_are_well_formed
    (schemas_bundle bundle : dict) (filename : string) (data : json)
    (ptr : string) (obj : json) :
  (forall o b,
      validate_schema check_schema draft4_validate http_get
        schemas_bundle filename data = Return (o, b) ->
      well_formed_outcome SCHEMA false schema_reasons filename o) /\
  (forall o,
      validate_file draft4_validate schemas_bundle filename data = Return o ->
      well_formed_outcome DATA_FILE false file_reasons filename o) /\
  (forall o,
      validate_ref draft4_validate schemas_bundle bundle filename data ptr obj
      = Return o ->
      well_formed_outcome REF true ref_reasons filename o) /\
  (forall o,
      validate_resource_paths open_file yaml_load json_load
        schemas_bundle bundle filename data ptr obj = Return o ->
      well_formed_outcome RESOURCE_PATH true resource_reasons filename o).
Proof using.
  split; [|split; [|split]]; intros o.
  - intros b. unfold validate_schema. outcome_shape.
  - unfold validate_file. outcome_shape.
  - unfold validate_ref. outcome_shape.
  - unfold validate_resource_paths. outcome_shape.
Qed.

End MoreOrchestratorFacts.

(** ** Concrete instances of the further properties *)

(** A network that answers every request with the same document. *)
Definition online (doc : json) : string -> result json := fun _ => Return doc.

Definition draft4_meta : json := JObj [("id", JStr "http://json-schema.org/draft-04/schema#")].

Definition remote_schema : dict :=
  [("$schema", JStr "http://json-schema.org/draft-04/schema#")].

Lemma discovered_objects_have_their_keys_witness :
  In ("/config", config_res) (find_resource_paths sample_with_resources) /\
  exists kvs path,
    config_res = JObj kvs /\
    dict_get kvs "provider" = Some (JStr "resource") /\
    subscript config_res "path" = Return path.
Proof.
  assert (Hin : In ("/config", config_res)
                  (find_resource_paths sample_with_resources)) by now left.
  split; [exact Hin|].
  exact (proj1 (discovered_objects_have_their_keys sample_with_resources)
           "/config" config_res Hin).
Defined.

Lemma validate_file_ok_means_witness :
  validate_file accept_all app_schemas "app.yml" (JObj bare_app)
  = Return (ValidationOK DATA_FILE "app.yml" (JStr "/app-1.yml")) /\
  exists kvs url schema,
    JObj bare_app = JObj kvs /\ dict_get kvs "$schema" = Some (JStr url) /\
    ValidationOK DATA_FILE "app.yml" (JStr "/app-1.yml")
    = ValidationOK DATA_FILE "app.yml" (JStr (normalize_url url)) /\
    (startswith (normalize_url url) "http" = true \/
     startswith (normalize_url url) "/" = true) /\
    normalize_url (normalize_url url) = normalize_url url /\
    dict_get app_schemas (normalize_url url) = Some schema /\
    accept_all (RefResolver (normalize_url url) schema app_schemas)
      schema (JObj bare_app) = None.
Proof.
  split; [reflexivity|].
  exact (proj1 (validate_file_ok_means accept_all app_schemas "app.yml"
                  (JObj bare_app) _ eq_refl) eq_refl).
Defined.

Lemma validate_file_raises_exactly_witness :
  is_dict (JArr []) = false /\
  validate_file accept_all app_schemas "list.yml" (JArr []) = Raise TypeError.
Proof.
  split; [reflexivity|].
  exact (proj2 (validate_file_raises_exactly accept_all app_schemas "list.yml"
                  (JArr []) TypeError)
           (or_introl (conj eq_refl eq_refl))).
Defined.

Lemma validate_schema_caches_meta_schema_witness :
  dict_get remote_schema "$schema"
  = Some (JStr "http://json-schema.org/draft-04/schema#") /\
  validate_schema any_schema accept_all (online draft4_meta) []
    "/app-1.yml" (JObj remote_schema)
  = Return (ValidationOK SCHEMA "/app-1.yml"
              (JStr "http://json-schema.org/draft-04/schema#"),
            [("http://json-schema.org/draft-04/schema#", draft4_meta)]) /\
  forall other_network,
    validate_schema any_schema accept_all other_network
      [("http://json-schema.org/draft-04/schema#", draft4_meta)]
      "/app-1.yml" (JObj remote_schema)
    = Return (ValidationOK SCHEMA "/app-1.yml"
                (JStr "http://json-schema.org/draft-04/schema#"),
              [("http://json-schema.org/draft-04/schema#", draft4_meta)]).
Proof.
  split; [reflexivity|]. split; [reflexivity|].
  destruct (proj2 (validate_schema_caches_meta_schema any_schema accept_all
                     (online draft4_meta) [] "/app-1.yml" remote_schema
                     "http://json-schema.org/draft-04/schema#" _ _
                     eq_refl eq_refl) eq_refl)
    as (_ & meta & _ & _ & _ & _ & Hagain).
  exact Hagain.
Defined.

Lemma validate_schema_raises_exactly_witness :
  is_dict (JStr "not a schema") = false /\
  validate_schema any_schema accept_all offline app_schemas "/s.yml"
    (JStr "not a schema") = Raise TypeError.
Proof.
  split; [reflexivity|].
  exact (proj2 (validate_schema_raises_exactly any_schema accept_all offline
                  app_schemas "/s.yml" (JStr "not a schema") TypeError)
           (or_introl (conj eq_refl eq_refl))).
Defined.

Lemma resource_collaborators_witness :
  dict_get [("provider", JStr "resource"); ("path", JStr "/config/cm.YAML")] "path"
  = Some (JStr "/config/cm.YAML") /\
  str_in (snd (splitext "/config/cm.YAML")) valid_extensions = false /\
  outcome_reason
    (validate_resource_paths (fun _ => None) (parses_to JNull) (parses_to JNull)
       app_schemas [] "app.yml" (JObj app) "/config"
       (JObj [("provider", JStr "resource"); ("path", JStr "/config/cm.YAML")]))
  = Some "MISSING_EXTENSION".
Proof.
  split; [reflexivity|]. split; [reflexivity|].
  rewrite (proj1 (resource_collaborators (fun _ => None) (parses_to JNull)
                    (parses_to JNull) app_schemas [] "app.yml" (JObj app)
                    "/config"
                    [("provider", JStr "resource"); ("path", JStr "/config/cm.YAML")]
                    "/config/cm.YAML" eq_refl) eq_refl).
  reflexivity.
Defined.

Lemma fetch_during_iteration_witness :
  dict_has [("/app-1.yml", JObj remote_schema)]
    "http://json-schema.org/draft-04/schema#" = false /\
  (exists o b,
      validate_schema any_schema accept_all (online draft4_meta)
        [("/app-1.yml", JObj remote_schema)] "/app-1.yml" (JObj remote_schema)
      = Return (o, b)) /\
  main any_schema accept_all (online draft4_meta) (fun _ => None)
    (parses_to JNull) (parses_to JNull) false []
    [("/app-1.yml", JObj remote_schema)] = Raise RuntimeError.
Proof.
  split; [reflexivity|]. split; [do 2 eexists; reflexivity|].
  refine (proj2 (fetch_during_iteration any_schema accept_all (online draft4_meta)
                   (fun _ => None) (parses_to JNull) (parses_to JNull) false []
                   [("/app-1.yml", JObj remote_schema)])
            [] "/app-1.yml" remote_schema []
            "http://json-schema.org/draft-04/schema#" _ _
            eq_refl _ eq_refl eq_refl eq_refl).
  intros item [].
Defined.

Lemma validate_ref_ok_means_witness :
  validate_ref accept_all app_schemas users "app.yml" (JObj app) "/owner" ann_ref
  = Return (ValidationRefOK REF "app.yml" (JStr "/users/ann.yml")
              (JStr "/app-1.yml")) /\
  exists refkvs target ref_data datakvs url schema info,
    ann_ref = JObj refkvs /\ dict_get refkvs "$ref" = Some target /\
    bundle_subscript users target = Return ref_data /\
    JObj app = JObj datakvs /\ dict_get datakvs "$schema" = Some url /\
    bundle_subscript app_schemas url = Return schema /\
    get_schema_info_from_pointer schema "/owner" = Return (JObj info) /\
    cross_check_passes accept_all info ref_data /\
    ValidationRefOK REF "app.yml" (JStr "/users/ann.yml") (JStr "/app-1.yml")
    = ValidationRefOK REF "app.yml" target url.
Proof.
  split; [reflexivity|].
  exact (validate_ref_ok_means accept_all app_schemas users "app.yml" (JObj app)
           "/owner" ann_ref _ eq_refl eq_refl).
Defined.

Lemma outcomes_are_well_formed_witness :
  validate_ref accept_all app_schemas users "app.yml" (JObj app) "/owner"
    (JObj [("$ref", JStr "/users/bob.yml")])
  = Return (ValidationError REF "app.yml" "FILE_NOT_FOUND"
              (ErrExn (KeyError (JStr "/users/bob.yml")))
              [("ref", JStr "/users/bob.yml")]) /\
  well_formed_outcome REF true ref_reasons "app.yml"
    (ValidationError REF "app.yml" "FILE_NOT_FOUND"
       (ErrExn (KeyError (JStr "/users/bob.yml")))
       [("ref", JStr "/users/bob.yml")]).
Proof.
  split; [reflexivity|].
  exact (proj1 (proj2 (proj2
    (outcomes_are_well_formed any_schema accept_all offline (fun _ => None)
       (parses_to JNull) (parses_to JNull) app_schemas users "app.yml"
       (JObj app) "/owner" (JObj [("$ref", JStr "/users/bob.yml")])))) _ eq_refl).
Defined.

Section ResourceOk.

Variable open_file : string -> option string.
Variable yaml_load : string -> result json.
Variable json_load : string -> result json.

Lemma all_in_true_on_dict (v : json) :
  all_in v ["apiVersion"; "metadata"; "kind"] = Return true ->
  forall k, subscript v "kind" = Return k ->
  exists kvs,
    v = JObj kvs /\ dict_has kvs "apiVersion" = true /\
    dict_has kvs "metadata" = true /\ dict_get kvs "kind" = Some k.
Proof using.
  intros Hall k Hk. destruct v as [| | | | |kvs]; try discriminate.
  exists kvs. rewrite all_in_object in Hall. injection Hall as Hall.
  simpl in Hall. rewrite andb_true_r in Hall.
  apply andb_true_iff in Hall. destruct Hall as [Ha Hall].
  apply andb_true_iff in Hall. destruct Hall as [Hm _].
  simpl in Hk. destruct (dict_get kvs "kind"); [|discriminate].
  injection Hk as ->. auto.
Qed.

(** X17. What a RefOk of [validate_resource_paths] guarantees: the reference
    is a dict whose [path] is a string with one of the three extensions; the
    file [resources] + path was opened and parsed by the parser of its
    extension; the parsed value is a mapping with the keys [apiVersion],
    [metadata] and [kind], and with a [data] key when its kind is
    ["ConfigMap"] or ["Secret"]; and the containing document has a [$schema],
    which the outcome carries next to the path. *)
Theorem validate_resource_paths_ok_means
    (schemas_bundle bundle : dict) (filename : string) (data : json)
    (ptr : string) (res : json) (o : ValidationResult)
    (Hrun : validate_resource_paths open_file yaml_load json_load
              schemas_bundle bundle filename data ptr res = Return o)
    (Hok : status o = true) :
  exists p kvs kind url,
    subscript res "path" = Return (JStr p) /\
    str_in (snd (splitext p)) valid_extensions = true /\
    load_resource open_file yaml_load json_load
      ("resources" ++ p)%string (snd (splitext p)) = Return (JObj kvs) /\
    dict_has kvs "apiVersion" = true /\ dict_has kvs "metadata" = true /\
    dict_get kvs "kind" = Some kind /\
    (eq_str kind "ConfigMap" || eq_str kind "Secret" = true ->
     dict_has kvs "data" = true) /\
    subscript data "$schema" = Return url /\
    o = ValidationRefOK RESOURCE_PATH filename (JStr p) url.
Proof using.
  unfold validate_resource_paths in Hrun.
  destruct (subscript res "path") as [path|e] eqn:Hpath; [|discriminate].
  unfold bind at 1 in Hrun.
  destruct path as [| | |p| |]; try discriminate. cbv zeta in Hrun.
  destruct (str_in (snd (splitext p)) valid_extensions) eqn:Hext.
  2:{ simpl in Hrun. injection Hrun as <-. discriminate. }
  simpl negb in Hrun. cbv iota in Hrun.
  destruct (load_resource open_file yaml_load json_load _ _)
    as [parsed|e] eqn:Hload.
  2:{ destruct e; try discriminate; injection Hrun as <-; discriminate. }
  destruct (all_in parsed ["apiVersion"; "metadata"; "kind"]) as [basic|e] eqn:Hall;
    [|discriminate].
  unfold bind at 1 in Hrun. destruct basic.
  2:{ simpl in Hrun. injection Hrun as <-. discriminate. }
  simpl negb in Hrun. cbv iota in Hrun.
  destruct (subscript parsed "kind") as [kind|e] eqn:Hkind; [|discriminate].
  unfold bind at 1 in Hrun.
  destruct (all_in_true_on_dict parsed Hall kind Hkind)
    as (kvs & -> & Ha & Hm & Hk).
  exists p, kvs, kind.
  destruct (eq_str kind "ConfigMap" || eq_str kind "Secret") eqn:Hcm.
  - simpl in Hrun. destruct (dict_has kvs "data") eqn:Hd; simpl in Hrun.
    + destruct (subscript data "$schema") as [url|e]; [|discriminate].
      simpl in Hrun. injection Hrun as <-. exists url. repeat split; auto.
    + injection Hrun as <-. discriminate.
  - simpl in Hrun.
    destruct (subscript data "$schema") as [url|e]; [|discriminate].
    simpl in Hrun. injection Hrun as <-. exists url.
    repeat split; auto. discriminate.
Qed.

End ResourceOk.

Lemma validate_resource_paths_ok_means_witness :
  validate_resource_paths (one_file "resources/config/cm.yaml" "kind: ConfigMap")
    (parses_to (JObj config_map)) (parses_to (JObj config_map))
    app_schemas [] "app.yml" (JObj app_with_resource) "/config" config_res
  = Return (ValidationRefOK RESOURCE_PATH "app.yml" (JStr "/config/cm.yaml")
              (JStr "/app-1.yml")) /\
  exists p kvs kind url,
    subscript config_res "path" = Return (JStr p) /\
    str_in (snd (splitext p)) valid_extensions = true /\
    load_resource (one_file "resources/config/cm.yaml" "kind: ConfigMap")
      (parses_to (JObj config_map)) (parses_to (JObj config_map))
      ("resources" ++ p)%string (snd (splitext p)) = Return (JObj kvs) /\
    dict_has kvs "apiVersion" = true /\ dict_has kvs "metadata" = true /\
    dict_get kvs "kind" = Some kind /\
    (eq_str kind "ConfigMap" || eq_str kind "Secret" = true ->
     dict_has kvs "data" = true) /\
    subscript (JObj app_with_resource) "$schema" = Return url /\
    ValidationRefOK RESOURCE_PATH "app.yml" (JStr "/config/cm.yaml")
      (JStr "/app-1.yml")
    = ValidationRefOK RESOURCE_PATH "app.yml" (JStr p) url.
Proof.
  split; [reflexivity|].
  exact (validate_resource_paths_ok_means
           (one_file "resources/config/cm.yaml" "kind: ConfigMap")
           (parses_to (JObj config_map)) (parses_to (JObj config_map))
           app_schemas [] "app.yml" (JObj app_with_resource) "/config"
           config_res _ eq_refl eq_refl).
Defined.

(** ** The extension check of [validate_resource_paths] *)

Lemma valid_extension_shape (ext : string) :
  str_in ext valid_extensions = true <->
  In ext [".json"; ".yml"; ".yaml"].
Proof.
  unfold str_in, valid_extensions, valid_json_ext, valid_yaml_ext. simpl.
  rewrite !orb_true_iff, !String.eqb_eq.
  split.
  - intros [H|[H|[H|H]]]; subst; auto; discriminate.
  - intros [H|[H|[H|[]]]]; subst; auto.
Qed.

(** X18. Which paths pass the extension check of [validate_resource_paths]:
    exactly those that consist of a root followed by [.json], [.yml] or
    [.yaml], where the last component of the root (what follows its last
    slash) has a character other than a period.  So [/a/cm.yaml] passes,
    while [/a/.yaml] and [/a/cm.YAML] do not. *)
Theorem extension_check_accepts (p : string) :
  str_in (snd (splitext p)) valid_extensions = true <->
  exists root ext,
    p = (root ++ ext)%string /\ In ext [".json"; ".yml"; ".yaml"] /\
    all_dots (last_component root) = false.
Proof.
  rewrite valid_extension_shape. split.
  - intros Hext. destruct (splitext_cut p) as [Hcut [Hempty | Hshape]].
    + rewrite Hempty in Hext. simpl in Hext.
      destruct Hext as [H|[H|[H|[]]]]; discriminate.
    + destruct Hshape as (rest & Erest & Hdot & Hslash).
      exists (fst (splitext p)), (snd (splitext p)).
      split; [now rewrite Hcut|]. split; [exact Hext|].
      pose proof (splitext_joined (fst (splitext p)) rest Hdot Hslash) as Hj.
      rewrite <- Erest, Hcut in Hj.
      destruct (all_dots (last_component (fst (splitext p)))); [|reflexivity].
      rewrite Hj in Erest. discriminate.
  - intros (root & ext & -> & Hext & Hroot).
    assert (Hj : splitext (root ++ ext)%string = (root, ext)).
    { destruct Hext as [<-|[<-|[<-|[]]]];
        rewrite splitext_joined by reflexivity; now rewrite Hroot. }
    now rewrite Hj.
Qed.

Example extension_check_samples :
  map (fun p => str_in (snd (splitext p)) valid_extensions)
    ["/a/cm.yaml"; "/a/cm.yml"; "/a/cm.json"; "/a/.yaml"; "/a/cm.YAML";
     "/a.yaml/cm"; "/a/cm.tar.json"; "cm.yaml."]
  = [true; true; true; false; false; false; true; false].
Proof. reflexivity. Qed.

Lemma extension_check_accepts_witness :
  all_dots (last_component "/a/cm") = false /\
  str_in (snd (splitext "/a/cm.yaml")) valid_extensions = true.
Proof.
  split; [reflexivity|].
  apply (proj2 (extension_check_accepts "/a/cm.yaml")).
  exists "/a/cm", ".yaml". split; [reflexivity|]. split; [|reflexivity].
  right. right. left. reflexivity.
Defined.
